(** * Market-data ingestion and caching engine: a shallow embedding

    The development follows the Python sources of the bot's data layer:

    - [src/cache_manager.py], with the two collectors it is wired to,
      [src/data_collectors.py] and [src/crypto_data_collector.py]
                                                    (module [CacheManager])
    - [src/historical_data/database_manager.py]     (module [DatabaseManager])
    - [src/historical_data/historical_collector.py] (module [HistoricalCollector])
    - [src/crypto_historical_analyzer.py]           (module [CryptoHistoricalAnalyzer])
    - [src/crypto_history_collector.py], [src/historical_data_manager.py]
                                                    (module [Indicators])

    Modules [Json] and [Float64] hold the decoded JSON values and the
    doubles the sources compute with.  Modules [Observations] and
    [Scenarios] hold the readings of a run and the concrete runs the
    properties are evaluated on.  Further modules embed what surrounds these
    functions in the same files: the schedule of the caches
    ([CacheSchedule]), the queries of the store ([DatabaseQueries]), the
    relations a collection run is followed with ([CollectorRuns],
    [RunScenarios]), the points handed to the AI ([AiPoints]), the moving
    averages, levels and trend ([TrendIndicators]), the current position
    ([PositionStats]), the incremental update ([IncrementalUpdate]) and the
    estimate of the remaining time ([ProgressEstimates]).
    The properties follow, grouped as the modules are.

    Conventions.  Python [int] is [Z].  A member of a decoded JSON object is
    absent, [null] or a value.  Where a result depends on the rounding of
    Python's floats ([progress_percentage], the collection time, the
    position statistics) a float is a double: a rational rounded to the
    nearest double, ties to even, with the infinities and not-a-number.
    Prices, volumes and the indicators computed from them are exact
    rationals [Q]; where the source relies on IEEE special values there
    (division by zero in the RSI) they are explicit constructors.  The test
    of the completion threshold is exact as well, and shown to be what the
    float comparison gives for jobs of fewer than 2^40 days.  A naive
    [datetime] is the number of microseconds since the start of day 0 of the
    proleptic Gregorian calendar, so that [date()] and [.hour] are a
    quotient and a remainder; a [date] is its ordinal ([date.toordinal()]),
    whose ISO string is an injective rendering.  Exceptions are explicit
    results.  The collector runs in a small state-and-exception monad over
    the collector object, the files and tables it owns, the clock, and the
    history of its sleeps and provider calls; the provider is a function
    from the number of the call to its reply. *)

From Stdlib Require Import ZArith QArith Qabs Qround Qpower.
From Stdlib Require Import List String Ascii Bool Lia Lqa.
From Stdlib Require Import Sorted Permutation.
Import ListNotations.
Open Scope Z_scope.

(** ** Dates and times *)

Module Datetime.

Definition datetime := Z.
Definition date := Z.
Definition timedelta := Z.

Definition us_per_second : Z := 1000000.
Definition us_per_minute : Z := 60 * us_per_second.
Definition us_per_hour : Z := 60 * us_per_minute.
Definition us_per_day : Z := 24 * us_per_hour.

(** [datetime(y, m, d, hour, minute)], the date given by its ordinal. *)
Definition mk_datetime (ordinal hour minute : Z) : datetime :=
  ordinal * us_per_day + hour * us_per_hour + minute * us_per_minute.

(** [t.date()] *)
Definition dt_date (t : datetime) : date := t / us_per_day.

(** [t.hour] *)
Definition dt_hour (t : datetime) : Z := (t mod us_per_day) / us_per_hour.

(** [t.replace(hour=h, minute=0, second=0, microsecond=0)] *)
Definition replace_hour (t : datetime) (h : Z) : datetime :=
  dt_date t * us_per_day + h * us_per_hour.

(** [timedelta(days=n)], [timedelta(minutes=n)] and [td.days] *)
Definition days (n : Z) : timedelta := n * us_per_day.
Definition minutes (n : Z) : timedelta := n * us_per_minute.
Definition td_days (d : timedelta) : Z := d / us_per_day.

(** The days a [datetime] can hold: [date.min.toordinal()] and
    [date.max.toordinal()], 0001-01-01 and 9999-12-31. *)
Definition min_ordinal : date := 1.
Definition max_ordinal : date := 3652059.

End Datetime.

Import Datetime.

(** ** Results of calls that may raise *)

Inductive outcome (A : Type) : Type :=
| Returns (a : A)
| Raises.
Arguments Returns {A} a.
Arguments Raises {A}.

(** ** JSON values *)

Module Json.

(** A decoded JSON value.  Numbers are rationals; [JTimestamp t] is the
    string [t.isoformat()] of a naive datetime. *)
#[local] Unset Elimination Schemes.
Inductive json : Type :=
| JNull
| JBool (b : bool)
| JNumber (x : Q)
| JString (s : string)
| JTimestamp (t : datetime)
| JArray (items : list json)
| JObject (members : list (string * json)).
#[local] Set Elimination Schemes.

(** A member of a JSON object as [dict.get] reads it: absent, [null], or a
    value of the type the reader expects. *)
Inductive field (A : Type) : Type :=
| Absent
| Null
| Has (a : A).
Arguments Absent {A}.
Arguments Null {A}.
Arguments Has {A} a.

(** [if v:] on a decoded value *)
Definition truthy_value (v : json) : bool :=
  match v with
  | JNull => false
  | JBool b => b
  | JNumber x => negb (Qeq_bool x 0)
  | JString s => negb (String.eqb s "")
  | JTimestamp _ => true
  | JArray items => match items with [] => false | _ :: _ => true end
  | JObject members => match members with [] => false | _ :: _ => true end
  end.

End Json.

(** ** Python floats *)

Module Float64.

(** A double: not-a-number, an infinity, or a finite value (a rational
    [m * 2^e] with [|m| <= 2^53] and [-1074 <= e <= 971]).  The sign of a
    zero is not kept. *)
Inductive float : Type :=
| nan
| infinity (negative : bool)
| finite (x : Q).

Definition two_to (k : Z) : Q := (2 ^ k)%Q.

(** The exponent of the last place of the doubles of the binade
    [2^k <= |x| < 2^(k+1)]: 52 places below [k], and not below the
    subnormal exponent -1074. *)
Definition last_place (k : Z) : Z := Z.max (k - 52) (-1074).

(** [floor(log2(n / d))] *)
Definition floor_log2 (n d : positive) : Z :=
  let k := Z.log2 (Z.pos n) - Z.log2 (Z.pos d) in
  if Qle_bool (two_to k) (Z.pos n # d) then k else k - 1.

(** The exponent of the last place of the doubles around a positive [x]. *)
Definition exponent (x : Q) : Z :=
  match Qnum x with
  | Z.pos n => last_place (floor_log2 n (Qden x))
  | _ => -1074
  end.

(** The integer nearest to [x], the even one of the two when [x] lies half
    way. *)
Definition nearest_even (x : Q) : Z :=
  let below := Qfloor x in
  match (x - inject_Z below ?= 1 # 2)%Q with
  | Lt => below
  | Gt => below + 1
  | Eq => if Z.even below then below else below + 1
  end.

(** The multiple of [2^exponent] nearest to a positive [x], ties to even. *)
Definition nearest (x : Q) : Q :=
  (inject_Z (nearest_even (x / two_to (exponent x))) * two_to (exponent x))%Q.

(** The double nearest to a positive real; [+inf] when that is [2^1024] or
    more. *)
Definition round_positive (x : Q) : float :=
  if Qle_bool (two_to 1024) (nearest x) then infinity false
  else finite (Qred (nearest x)).

Definition negate (f : float) : float :=
  match f with
  | nan => nan
  | infinity s => infinity (negb s)
  | finite x => finite (Qred (- x))
  end.

(** The result of an arithmetic operation whose exact value is [x]: round
    to nearest, ties to even. *)
Definition round (x : Q) : float :=
  match (x ?= 0)%Q with
  | Eq => finite 0
  | Gt => round_positive x
  | Lt => negate (round_positive (- x))
  end.

Definition is_negative (x : Q) : bool :=
  match (x ?= 0)%Q with
  | Lt => true
  | _ => false
  end.

(** [a * b] on floats *)
Definition fmul (a b : float) : float :=
  match a, b with
  | nan, _ => nan
  | _, nan => nan
  | infinity s, infinity t => infinity (xorb s t)
  | infinity s, finite y =>
      if Qeq_bool y 0 then nan else infinity (xorb s (is_negative y))
  | finite x, infinity t =>
      if Qeq_bool x 0 then nan else infinity (xorb (is_negative x) t)
  | finite x, finite y => round (x * y)
  end.

(** [a - b] on floats *)
Definition fsub (a b : float) : float :=
  match a, b with
  | nan, _ => nan
  | _, nan => nan
  | infinity s, infinity t => if Bool.eqb s t then nan else infinity s
  | infinity s, finite _ => infinity s
  | finite _, infinity t => infinity (negb t)
  | finite x, finite y => round (x - y)
  end.

(** [a / b] on numpy floats: a division by zero gives an infinity or
    not-a-number and does not raise (a zero divisor is taken as [+0.0]). *)
Definition fdiv (a b : float) : float :=
  match a, b with
  | nan, _ => nan
  | _, nan => nan
  | infinity _, infinity _ => nan
  | infinity s, finite y => infinity (xorb s (is_negative y))
  | finite _, infinity _ => finite 0
  | finite x, finite y =>
      if Qeq_bool y 0 then
        if Qeq_bool x 0 then nan else infinity (is_negative x)
      else round (x / y)
  end.

(** [a <= b] and [a > 0] on floats: a comparison with not-a-number is
    false. *)
Definition fle (a b : float) : bool :=
  match a, b with
  | nan, _ => false
  | _, nan => false
  | infinity true, _ => true
  | _, infinity false => true
  | infinity false, _ => false
  | _, infinity true => false
  | finite x, finite y => Qle_bool x y
  end.

Definition fpositive (a : float) : bool :=
  match a with
  | nan => false
  | infinity s => negb s
  | finite x => negb (Qle_bool x 0)
  end.

(** [a / b] on two [int]s: the quotient correctly rounded;
    [ZeroDivisionError] for a zero divisor and [OverflowError] when the
    quotient is too large for a float. *)
Definition true_divide (a b : Z) : outcome float :=
  if b =? 0 then Raises
  else
    match round (inject_Z a / inject_Z b) with
    | finite q => Returns (finite q)
    | _ => Raises
    end.

(** [float(n)] for an [int], as an operation between an [int] and a float
    converts it: the nearest double, [OverflowError] when [n] is too large
    for one. *)
Definition of_int (n : Z) : outcome float :=
  match round (inject_Z n) with
  | finite q => Returns (finite q)
  | _ => Raises
  end.

(** [n >= f] for an [int] and a float: the two are compared by their exact
    values. *)
Definition int_ge (n : Z) (f : float) : bool := fle f (finite (inject_Z n)).

(** The order of the floats rounding produces: finite values by their
    value, below [+inf] and above [-inf]. *)
Definition below (a b : float) : Prop :=
  match a, b with
  | finite u, finite v => (u <= v)%Q
  | finite _, infinity false => True
  | infinity true, finite _ => True
  | infinity true, infinity _ => True
  | infinity false, infinity false => True
  | _, _ => False
  end.

(** The rationals that are doubles: rounding leaves them as they are. *)
Definition is_double (q : Q) : Prop := round q = finite (Qred q).

End Float64.

(** ** cache_manager.py *)

Module CacheManager.

Import Json.

(** The cached payload is a JSON object, kept as the list of its members;
    only its truthiness (non-emptiness) is inspected by the cache manager. *)
Definition payload := list (string * json).

Definition truthy (d : payload) : bool :=
  match d with
  | [] => false
  | _ :: _ => true
  end.

(** The ['last_update'] member of a cache file:
    - [LuAbsent]: absent, the empty string, null or another falsy value;
    - [LuMalformed]: a string [datetime.fromisoformat] rejects ([ValueError]);
    - [LuNotString]: a truthy value that is not a string, on which
      [datetime.fromisoformat] raises [TypeError];
    - [LuAt t]: the ISO string of the naive datetime [t], as [_save_cache]
      and [_save_crypto_cache] write it;
    - [LuAware t]: an ISO string with a UTC offset, [t] being its wall-clock
      reading ([date()] and [.hour] are those of [t]); comparing it with a
      naive datetime raises [TypeError]. *)
Inductive last_update_field : Type :=
| LuAbsent
| LuMalformed
| LuNotString
| LuAt (t : datetime)
| LuAware (t : datetime).

(** [data]: the ['data'] member when it is an object ([None]: absent or
    null); [update_count]: the ['update_count'] member when it is a
    number. *)
Record cache_data : Type := {
  last_update : last_update_field;
  data : option payload;
  update_count : option Z
}.

(** The content of a cache file on disk: no file, a text [json.load]
    rejects, a JSON value that is not an object (a list, a string, a number,
    null: it has no [get]), or a JSON object. *)
Inductive cache_file : Type :=
| NoFile
| Undecodable
| NotAnObject
| Stored (c : cache_data).

(** The wall-clock reading of a parsed ['last_update']. *)
Definition wall_clock (l : last_update_field) : option datetime :=
  match l with
  | LuAt t => Some t
  | LuAware t => Some t
  | _ => None
  end.

(** [for hour in self.update_hours: if current_hour < hour: ...; break] *)
Fixpoint next_update_hour (current_hour : Z) (hours : list Z) : option Z :=
  match hours with
  | [] => None
  | hour :: rest =>
      if current_hour <? hour then Some hour
      else next_update_hour current_hour rest
  end.

(** [for hour in reversed(self.update_hours): if current_hour >= hour: ...; break] *)
Fixpoint first_reached (current_hour : Z) (hours : list Z) : option Z :=
  match hours with
  | [] => None
  | hour :: rest =>
      if hour <=? current_hour then Some hour
      else first_reached current_hour rest
  end.

Definition last_planned_hour (current_hour : Z) (hours : list Z) : option Z :=
  first_reached current_hour (rev hours).

(** [max(self.update_hours)]; [None] stands for the [ValueError] on an empty
    list. *)
Definition max_hours (hours : list Z) : option Z :=
  match hours with
  | [] => None
  | h :: rest => Some (fold_left Z.max rest h)
  end.

(** [CacheManager._is_cache_valid]; every exception inside the [try] block
    ([except Exception]) yields [False].  Only the date and the hour of the
    parsed timestamp are read, so that an offset-aware one is treated as its
    wall-clock reading. *)
Definition is_cache_valid (update_hours : list Z) (f : cache_file)
    (now : datetime) : bool :=
  match f with
  | NoFile => false
  | Undecodable => false
  | NotAnObject => false
  | Stored cache =>
      match last_update cache with
      | LuAbsent => false
      | LuMalformed => false
      | LuNotString => false
      | LuAt last_upd | LuAware last_upd =>
          if negb (dt_date last_upd =? dt_date now) then false
          else
            let current_hour := dt_hour now in
            let last_update_hour := dt_hour last_upd in
            match next_update_hour current_hour update_hours with
            | None =>
                match max_hours update_hours with
                | Some m => m <=? last_update_hour
                | None => false
                end
            | Some _ =>
                match last_planned_hour current_hour update_hours with
                | None =>
                    let yesterday := now - days 1 in
                    if dt_date last_upd =? dt_date yesterday then
                      match max_hours update_hours with
                      | Some m => m <=? last_update_hour
                      | None => false
                      end
                    else false
                | Some planned => planned <=? last_update_hour
                end
            end
      end
  end.

(** [CacheManager._save_cache]: the file is replaced wholesale by
    [{'last_update': now, 'data': data}]. *)
Definition save_cache (d : payload) (now : datetime) : cache_file :=
  Stored {| last_update := LuAt now; data := Some d; update_count := None |}.

(** [CacheManager._load_cache] (and [_load_crypto_cache], which is the same
    code on the other file): any exception yields [None]. *)
Definition load_cache (f : cache_file) : option payload :=
  match f with
  | NoFile => None
  | Undecodable => None
  | NotAnObject => None
  | Stored cache => data cache
  end.

(** [if cached_data:] on an [Optional[Dict]] *)
Definition usable (d : option payload) : option payload :=
  match d with
  | Some p => if truthy p then Some p else None
  | None => None
  end.

(** *** data_collectors.py: the collector of the market cache *)

(** What the [try] block of each source method of [DataCollector] comes to
    when it is run: the dict it returns, [None] when it falls off its end
    without a [return] ([hist.empty], no ['data'] in the answer), or an
    exception. *)
Record DataCollector : Type := {
  yahoo_finance : outcome payload;
  fed_rates : outcome (option payload);
  fear_greed_index : outcome (option payload)
}.

(** [DataCollector.get_yahoo_finance_data]: [except Exception: return {}] *)
Definition get_yahoo_finance_data (c : DataCollector) : json :=
  match yahoo_finance c with
  | Returns data => JObject data
  | Raises => JObject []
  end.

(** The value of a method whose body may also end without returning. *)
Definition returned_or_empty (body : outcome (option payload)) : json :=
  match body with
  | Returns (Some d) => JObject d
  | Returns None => JNull
  | Raises => JObject []
  end.

(** [DataCollector.get_fed_interest_rate] and [get_fear_greed_index] *)
Definition get_fed_interest_rate (c : DataCollector) : json :=
  returned_or_empty (fed_rates c).

Definition get_fear_greed_index (c : DataCollector) : json :=
  returned_or_empty (fear_greed_index c).

(** [sum(1 for source, data in all_data.items()
         if source != 'collection_timestamp' and data)] *)
Definition successful_sources (all_data : payload) : Z :=
  Z.of_nat (List.length
    (filter (fun item => negb (String.eqb (fst item) "collection_timestamp")
                         && truthy_value (snd item)) all_data)).

(** [f"{(successful_sources/3)*100:.1f}%"], for the four values the count
    takes. *)
Definition collection_success_rate (n : Z) : string :=
  if n =? 0 then "0.0%"
  else if n =? 1 then "33.3%"
  else if n =? 2 then "66.7%"
  else "100.0%".

(** [DataCollector.collect_all_metrics]: it has no [try] of its own, since
    every source method catches its exceptions; whatever the sources did,
    the result is a dict of five members. *)
Definition collect_all_metrics (c : DataCollector) (now : datetime)
    : payload :=
  let all_data :=
    [ ("collection_timestamp"%string, JTimestamp now);
      ("yahoo_finance"%string, get_yahoo_finance_data c);
      ("fed_rates"%string, get_fed_interest_rate c);
      ("fear_greed_index"%string, get_fear_greed_index c) ] in
  let n := successful_sources all_data in
  all_data
  ++ [ ("data_quality"%string,
        JObject [ ("sources_available"%string, JNumber (inject_Z n));
                  ("total_sources"%string, JNumber 3);
                  ("collection_success_rate"%string,
                   JString (collection_success_rate n)) ]) ].

(** [payload.get('data_quality', {}).get('sources_available', 0)], as
    [get_cache_info] and [test_cache] read it. *)
Fixpoint member (key : string) (d : payload) : option json :=
  match d with
  | [] => None
  | (k, v) :: rest => if String.eqb k key then Some v else member key rest
  end.

Definition sources_available (d : payload) : option json :=
  match member "data_quality" d with
  | Some (JObject quality) => member "sources_available" quality
  | _ => None
  end.

(** [CacheManager.get_market_data], with the collector [__init__] wires in
    ([self.data_collector = DataCollector()]).  The result is the value
    returned and the cache file afterwards. *)
Definition get_market_data (update_hours : list Z) (force_update : bool)
    (data_collector : DataCollector) (now : datetime) (f : cache_file)
    : outcome payload * cache_file :=
  let from_cache :=
    if negb force_update && is_cache_valid update_hours f now
    then usable (load_cache f) else None in
  match from_cache with
  | Some cached_data => (Returns cached_data, f)
  | None =>
      let fresh_data := collect_all_metrics data_collector now in
      (Returns fresh_data, save_cache fresh_data now)
  end.

(** *** The crypto cache *)

(** The loop of [_is_crypto_cache_valid] on a naive timestamp: the write
    must fall within 30 minutes after one of today's scheduled hours.
    [now.replace(hour=h)] raises [ValueError] for an hour outside 0..23,
    which is caught. *)
Fixpoint in_some_slot (last_upd now : datetime) (hours : list Z) : bool :=
  match hours with
  | [] => false
  | hour :: rest =>
      if (0 <=? hour) && (hour <? 24) then
        let scheduled_time := replace_hour now hour in
        if (scheduled_time <=? last_upd) && (last_upd <=? scheduled_time + minutes 30)
        then true
        else in_some_slot last_upd now rest
      else false
  end.

(** [CacheManager._is_crypto_cache_valid].  Its [except] names
    [json.JSONDecodeError], [ValueError] and [KeyError] only: the
    [AttributeError] of [cache_data.get] on a value that is not an object,
    the [TypeError] of [fromisoformat] on a value that is not a string, and
    the [TypeError] of the first comparison [scheduled_time <= last_update]
    with an offset-aware timestamp leave the method. *)
Definition is_crypto_cache_valid (crypto_update_hours : list Z)
    (f : cache_file) (now : datetime) : outcome bool :=
  match f with
  | NoFile => Returns false
  | Undecodable => Returns false
  | NotAnObject => Raises
  | Stored cache =>
      match last_update cache with
      | LuAbsent => Returns false
      | LuMalformed => Returns false
      | LuNotString => Raises
      | LuAt last_upd =>
          if negb (dt_date last_upd =? dt_date now) then Returns false
          else Returns (in_some_slot last_upd now crypto_update_hours)
      | LuAware last_upd =>
          if negb (dt_date last_upd =? dt_date now) then Returns false
          else
            match crypto_update_hours with
            | [] => Returns false
            | hour :: _ =>
                if (0 <=? hour) && (hour <? 24) then Raises else Returns false
            end
      end
  end.

(** [CacheManager._save_crypto_cache]; the inner bare [except] leaves the
    count at 1 when the existing file cannot be read as an object. *)
Definition save_crypto_cache (d : payload) (now : datetime) (f : cache_file)
    : cache_file :=
  let count :=
    match f with
    | NoFile => 1
    | Undecodable => 1
    | NotAnObject => 1
    | Stored existing =>
        match update_count existing with
        | Some n => n + 1
        | None => 0 + 1
        end
    end in
  Stored {| last_update := LuAt now; data := Some d; update_count := Some count |}.

(** [CacheManager.get_crypto_data].  [collector] is the outcome of
    [self.crypto_data_collector.collect_all_crypto_data()], should it be
    called; the validity check stands before the [try] block. *)
Definition get_crypto_data (crypto_update_hours : list Z) (force_update : bool)
    (collector : outcome payload) (now : datetime) (f : cache_file)
    : outcome payload * cache_file :=
  let checked :=
    if force_update then Returns false
    else is_crypto_cache_valid crypto_update_hours f now in
  match checked with
  | Raises => (Raises, f)
  | Returns valid =>
      let from_cache := if valid then usable (load_cache f) else None in
      match from_cache with
      | Some cached_data => (Returns cached_data, f)
      | None =>
          match collector with
          | Returns crypto_data =>
              if truthy crypto_data then
                (Returns crypto_data, save_crypto_cache crypto_data now f)
              else
                match usable (load_cache f) with
                | Some cached_data => (Returns cached_data, f)
                | None => (Returns [], f)
                end
          | Raises =>
              match usable (load_cache f) with
              | Some cached_data => (Returns cached_data, f)
              | None => (Returns [], f)
              end
          end
      end
  end.

(** *** crypto_data_collector.py: the collector of the crypto cache *)

(** What the [try] block of each source method of [CryptoDataCollector]
    comes to: the list or dict it returns, or an exception.  The coins
    [get_top_cryptocurrencies] builds all carry a ['symbol'], so that the
    comprehension over [top_coins[:5]] cannot fail. *)
Record CryptoDataCollector : Type := {
  top_cryptocurrencies : outcome (list payload);
  derivatives_data : outcome payload;
  market_fear_greed : outcome payload
}.

(** [get_top_cryptocurrencies]: [except Exception: return []] *)
Definition get_top_cryptocurrencies (c : CryptoDataCollector)
    : list payload :=
  match top_cryptocurrencies c with
  | Returns coins => coins
  | Raises => []
  end.

(** [get_derivatives_data] and [get_market_fear_greed_crypto]:
    [except Exception: return {}] *)
Definition get_derivatives_data (c : CryptoDataCollector) : payload :=
  match derivatives_data c with
  | Returns d => d
  | Raises => []
  end.

Definition get_market_fear_greed_crypto (c : CryptoDataCollector) : payload :=
  match market_fear_greed c with
  | Returns d => d
  | Raises => []
  end.

(** [len(x) > 0] *)
Definition non_empty {A : Type} (l : list A) : bool :=
  match l with
  | [] => false
  | _ :: _ => true
  end.

(** [CryptoDataCollector.collect_all_crypto_data] *)
Definition collect_all_crypto_data (c : CryptoDataCollector) (now : datetime)
    : payload :=
  let top_coins := get_top_cryptocurrencies c in
  let derivatives := get_derivatives_data c in
  let fear_greed := get_market_fear_greed_crypto c in
  [ ("top_cryptocurrencies"%string, JArray (map JObject top_coins));
    ("derivatives_data"%string, JObject derivatives);
    ("fear_greed_index"%string, JObject fear_greed);
    ("last_updated"%string, JTimestamp now);
    ("data_sources"%string,
     JObject [ ("coingecko"%string, JBool (non_empty top_coins));
               ("binance_derivatives"%string, JBool (non_empty derivatives));
               ("fear_greed"%string, JBool (non_empty fear_greed)) ]) ].

(** [CacheManager.get_crypto_data] with the collector [__init__] wires in
    ([self.crypto_data_collector = CryptoDataCollector()]). *)
Definition get_crypto_data_wired (crypto_update_hours : list Z)
    (force_update : bool) (crypto_data_collector : CryptoDataCollector)
    (now : datetime) (f : cache_file) : outcome payload * cache_file :=
  get_crypto_data crypto_update_hours force_update
    (Returns (collect_all_crypto_data crypto_data_collector now)) now f.

(** The configured schedules. *)
Definition update_hours : list Z := [9; 21].
Definition crypto_update_hours : list Z := [8; 20].

(** What a degraded read may fall back to: the last-known payload when the
    file holds a non-empty one, otherwise the empty result. *)
Definition stale_or_empty (f : cache_file) : payload :=
  match usable (load_cache f) with
  | Some cached_data => cached_data
  | None => []
  end.

(** A collector has failed when it raised or came back with nothing. *)
Definition failed (collector : outcome payload) : bool :=
  match collector with
  | Raises => true
  | Returns d => negb (truthy d)
  end.

(** Every source of either collector unreachable: each source method ends
    in its [except] branch. *)
Definition sources_down : DataCollector :=
  {| yahoo_finance := Raises; fed_rates := Raises; fear_greed_index := Raises |}.

Definition crypto_sources_down : CryptoDataCollector :=
  {| top_cryptocurrencies := Raises; derivatives_data := Raises;
     market_fear_greed := Raises |}.

End CacheManager.

(** ** Python string operations used by the collector *)

Module Str.

Definition lower_ascii (c : ascii) : ascii :=
  let n := nat_of_ascii c in
  if ((65 <=? n) && (n <=? 90))%nat then ascii_of_nat (n + 32) else c.

Definition upper_ascii (c : ascii) : ascii :=
  let n := nat_of_ascii c in
  if ((97 <=? n) && (n <=? 122))%nat then ascii_of_nat (n - 32) else c.

Fixpoint map_chars (f : ascii -> ascii) (s : string) : string :=
  match s with
  | EmptyString => EmptyString
  | String c rest => String (f c) (map_chars f rest)
  end.

(** [s.lower()] and [s.upper()] (on the ASCII letters) *)
Definition lower : string -> string := map_chars lower_ascii.
Definition upper : string -> string := map_chars upper_ascii.

(** A [str] that is only sliced: the list of its characters (code
    points). *)
Definition text : Type := list N.

Definition text_of (s : string) : text :=
  map (fun c => N.of_nat (nat_of_ascii c)) (list_ascii_of_string s).

(** [needle in s] *)
Fixpoint contains (needle s : string) : bool :=
  if String.prefix needle s then true
  else
    match s with
    | EmptyString => false
    | String _ rest => contains needle rest
    end.

End Str.

(** ** historical_data/database_manager.py *)

Module DatabaseManager.

(** One element of the [data] list given to [save_daily_data]: a dict with a
    ['date'] and nullable numeric fields ([record.get(...)] yields [None] for
    a missing key).  [r_date = None] stands for a record without a usable
    ['date'], for which the insertion raises and the record is skipped. *)
Record daily_record : Type := {
  r_date : option date;
  r_open : option Q;
  r_high : option Q;
  r_low : option Q;
  r_close : option Q;
  r_volume : option Q;
  r_market_cap : option Q;
  r_circulating_supply : option Q;
  r_total_supply : option Q;
  r_fdv : option Q;
  r_price_change_24h : option Q;
  r_volume_change_24h : option Q
}.

(** A row of table [daily_prices]:
    [id INTEGER PRIMARY KEY AUTOINCREMENT, coin_id, date, <numeric columns>,
     created_at DEFAULT CURRENT_TIMESTAMP, UNIQUE(coin_id, date)]. *)
Record price_row : Type := {
  row_id : Z;
  row_coin_id : string;
  row_date : date;
  row_values : daily_record;
  row_created_at : datetime
}.

(** A row of table [coin_metadata] ([coin_id] is the primary key). *)
Record metadata : Type := {
  m_name : option string;
  m_symbol : string;
  m_launch_date : string;
  m_max_supply : option Q;
  m_current_supply : option Q;
  m_algorithm : string;
  m_consensus : string;
  m_description : Str.text;
  m_website : option string
}.

(** A row of table [collection_stats]. *)
Record stats_row : Type := {
  st_coin_id : string;
  st_collection_date : date;
  st_records_added : Z;
  st_records_updated : Z;
  st_errors_count : Z;
  st_collection_time_seconds : Float64.float;
  st_status : string
}.

Record database : Type := {
  daily_prices : list price_row;
  daily_prices_seq : Z;
  coin_metadata : list (string * metadata);
  collection_stats : list stats_row
}.

Definition empty_database : database :=
  {| daily_prices := []; daily_prices_seq := 0;
     coin_metadata := []; collection_stats := [] |}.

(** The rows that violate [UNIQUE(coin_id, date)] against a new row. *)
Definition same_key (coin_id : string) (d : date) (r : price_row) : bool :=
  String.eqb (row_coin_id r) coin_id && (row_date r =? d).

(** [INSERT OR REPLACE INTO daily_prices (coin_id, date, ...) VALUES (...)]:
    the rows in conflict on the unique key are deleted, then the new row is
    inserted with a fresh [id] and [created_at]. *)
Definition insert_or_replace (coin_id : string) (d : date)
    (record : daily_record) (now : datetime) (db : database) : database :=
  let id := daily_prices_seq db + 1 in
  {| daily_prices :=
       filter (fun r => negb (same_key coin_id d r)) (daily_prices db)
       ++ [ {| row_id := id; row_coin_id := coin_id; row_date := d;
               row_values := record; row_created_at := now |} ];
     daily_prices_seq := id;
     coin_metadata := coin_metadata db;
     collection_stats := collection_stats db |}.

(** The loop of [DatabaseManager.save_daily_data]: the count of executed
    statements ([saved_count + updated_count]) and the database. *)
Fixpoint save_records (coin_id : string) (data : list daily_record)
    (now : datetime) (count : Z) (db : database) : Z * database :=
  match data with
  | [] => (count, db)
  | record :: rest =>
      match r_date record with
      | Some d =>
          save_records coin_id rest now (count + 1)
            (insert_or_replace coin_id d record now db)
      | None => save_records coin_id rest now count db
      end
  end.

Definition save_daily_data (coin_id : string) (data : list daily_record)
    (now : datetime) (db : database) : Z * database :=
  save_records coin_id data now 0 db.

(** [DatabaseManager.save_coin_metadata] *)
Definition save_coin_metadata (coin_id : string) (m : metadata)
    (db : database) : database :=
  {| daily_prices := daily_prices db;
     daily_prices_seq := daily_prices_seq db;
     coin_metadata :=
       filter (fun e => negb (String.eqb (fst e) coin_id)) (coin_metadata db)
       ++ [(coin_id, m)];
     collection_stats := collection_stats db |}.

(** [DatabaseManager.save_collection_stats] *)
Definition save_collection_stats (row : stats_row) (db : database) : database :=
  {| daily_prices := daily_prices db;
     daily_prices_seq := daily_prices_seq db;
     coin_metadata := coin_metadata db;
     collection_stats := collection_stats db ++ [row] |}.

(** [SELECT * FROM daily_prices WHERE coin_id = ?] (unordered) *)
Definition rows_of (coin_id : string) (db : database) : list price_row :=
  filter (fun r => String.eqb (row_coin_id r) coin_id) (daily_prices db).

(** The rows stored under one key. *)
Definition rows_at (coin_id : string) (d : date) (db : database)
    : list price_row :=
  filter (same_key coin_id d) (daily_prices db).

(** What a row stores apart from its [id] and [created_at]. *)
Definition stored (r : price_row) : string * date * daily_record :=
  (row_coin_id r, row_date r, row_values r).

(** [DatabaseManager.get_last_daily_date]:
    [SELECT MAX(date) FROM daily_prices WHERE coin_id = ?]. *)
Definition max_date (acc : option date) (r : price_row) : option date :=
  match acc with
  | None => Some (row_date r)
  | Some m => Some (Z.max m (row_date r))
  end.

Definition get_last_daily_date (coin_id : string) (db : database)
    : option date :=
  fold_left max_date (rows_of coin_id db) None.

End DatabaseManager.

(** ** historical_data/historical_collector.py *)

Module HistoricalCollector.

Import Json DatabaseManager Float64.

(** [status: str  # 'pending', 'in_progress', 'completed', 'error'] *)
Inductive job_status : Type :=
| Pending
| InProgress
| Completed
| Error.

Definition job_status_eqb (a b : job_status) : bool :=
  match a, b with
  | Pending, Pending => true
  | InProgress, InProgress => true
  | Completed, Completed => true
  | Error, Error => true
  | _, _ => false
  end.

(** The messages the collector formats into [errors] and [last_error]:
    "no data for request n", "failed to get data for request n",
    "collected only c/t days"; [Text] is any other string. *)
Inductive message : Type :=
| NoDataForRequest (current_request : Z)
| FetchFailedForRequest (current_request : Z)
| CollectedOnly (collected total : Z)
| Text (s : string).

Record CollectionProgress : Type := {
  coin_id : string;
  total_days : Z;
  collected_days : Z;
  start_date : datetime;
  end_date : datetime;
  current_date : datetime;
  status : job_status;
  errors : list message;
  last_error : option message;
  collection_start : option datetime;
  collection_end : option datetime
}.

(** [CollectionProgress.progress_percentage]:
    [(self.collected_days / self.total_days) * 100], the true division of
    two [int]s and the product of the float it gives by 100. *)
Definition progress_percentage (p : CollectionProgress) : outcome float :=
  if total_days p =? 0 then Returns (finite 0)
  else
    match true_divide (collected_days p) (total_days p) with
    | Raises => Raises
    | Returns quotient => Returns (fmul quotient (finite 100))
    end.

(** Field assignments on the (mutable) progress object. *)
Definition set_status (s : job_status) (p : CollectionProgress) : CollectionProgress :=
  {| coin_id := coin_id p; total_days := total_days p;
     collected_days := collected_days p; start_date := start_date p;
     end_date := end_date p; current_date := current_date p;
     status := s; errors := errors p; last_error := last_error p;
     collection_start := collection_start p; collection_end := collection_end p |}.

Definition add_collected_days (n : Z) (p : CollectionProgress) : CollectionProgress :=
  {| coin_id := coin_id p; total_days := total_days p;
     collected_days := collected_days p + n; start_date := start_date p;
     end_date := end_date p; current_date := current_date p;
     status := status p; errors := errors p; last_error := last_error p;
     collection_start := collection_start p; collection_end := collection_end p |}.

Definition append_error (m : message) (p : CollectionProgress) : CollectionProgress :=
  {| coin_id := coin_id p; total_days := total_days p;
     collected_days := collected_days p; start_date := start_date p;
     end_date := end_date p; current_date := current_date p;
     status := status p; errors := errors p ++ [m]; last_error := last_error p;
     collection_start := collection_start p; collection_end := collection_end p |}.

Definition set_last_error (m : message) (p : CollectionProgress) : CollectionProgress :=
  {| coin_id := coin_id p; total_days := total_days p;
     collected_days := collected_days p; start_date := start_date p;
     end_date := end_date p; current_date := current_date p;
     status := status p; errors := errors p; last_error := Some m;
     collection_start := collection_start p; collection_end := collection_end p |}.

Definition set_collection_start (t : datetime) (p : CollectionProgress) : CollectionProgress :=
  {| coin_id := coin_id p; total_days := total_days p;
     collected_days := collected_days p; start_date := start_date p;
     end_date := end_date p; current_date := current_date p;
     status := status p; errors := errors p; last_error := last_error p;
     collection_start := Some t; collection_end := collection_end p |}.

Definition set_collection_end (t : datetime) (p : CollectionProgress) : CollectionProgress :=
  {| coin_id := coin_id p; total_days := total_days p;
     collected_days := collected_days p; start_date := start_date p;
     end_date := end_date p; current_date := current_date p;
     status := status p; errors := errors p; last_error := last_error p;
     collection_start := collection_start p; collection_end := Some t |}.

(** [self.api_stats] *)
Record api_stats : Type := {
  total_requests : Z;
  successful_requests : Z;
  failed_requests : Z;
  rate_limit_hits : Z
}.

(** The two endpoints [_make_api_request] knows, with their parameters. *)
Inductive endpoint : Type :=
| market_chart (days : Z)
| coin_info.

(** What the process does to the outside: it sleeps and it calls the
    provider. *)
Inductive event : Type :=
| Slept (microseconds : Z)
| Requested (coin : string) (e : endpoint).

(** The collector object together with what it owns: the progress dict, the
    progress file, the API counters, the database, the wall clock, and the
    history of sleeps and provider calls (oldest first). *)
Record collector : Type := {
  progress : list (string * CollectionProgress);
  progress_file : list (string * CollectionProgress);
  stats : api_stats;
  db : database;
  clock : datetime;
  calls : nat;
  events : list event
}.

(** A provider answer.  A point [[timestamp_ms, value]] is kept as the local
    date of its timestamp and its value. *)
Definition point : Type := date * Q.

(** The ['market_data'] object of a coin answer; a supply that is absent or
    null reads as [None]. *)
Record market_data : Type := {
  md_max_supply : option Q;
  md_circulating_supply : option Q
}.

(** The members of a coin answer the collector reads: ['name'], ['symbol'],
    ['market_data'], ['description']['en'] and ['links']['homepage'], each
    absent, null, or of its documented type (the elements of the homepage
    list are strings or null). *)
Record coin_details : Type := {
  ci_name : field string;
  ci_symbol : field string;
  ci_market_data : field market_data;
  ci_description : field (field Str.text);
  ci_links : field (field (list (option string)))
}.

(** What a provider call returns: a falsy value ([None], an empty object),
    or a non-empty JSON object, given by the members the collector reads of
    it: those of a coin answer, or the three series of a market chart. *)
Inductive response : Type :=
| EmptyResponse
| CoinInfo (i : coin_details)
| MarketChart (prices market_caps total_volumes : field (list point)).

(** The provider call either answers or raises an exception with a message. *)
Inductive reply : Type :=
| Answer (r : response)
| Failure (error_msg : string).

(** *** The dict [self.progress] *)

Fixpoint lookup (k : string) (d : list (string * CollectionProgress))
    : option CollectionProgress :=
  match d with
  | [] => None
  | (k', v) :: rest => if String.eqb k' k then Some v else lookup k rest
  end.

Fixpoint store (k : string) (v : CollectionProgress)
    (d : list (string * CollectionProgress))
    : list (string * CollectionProgress) :=
  match d with
  | [] => [(k, v)]
  | (k', v') :: rest =>
      if String.eqb k' k then (k, v) :: rest else (k', v') :: store k v rest
  end.

(** *** State and exceptions *)

Definition M (A : Type) : Type := collector -> outcome A * collector.

Definition ret {A : Type} (a : A) : M A := fun w => (Returns a, w).

Definition raise {A : Type} : M A := fun w => (Raises, w).

Definition bind {A B : Type} (m : M A) (k : A -> M B) : M B :=
  fun w =>
    match m w with
    | (Returns a, w') => k a w'
    | (Raises, w') => (Raises, w')
    end.

Notation "x <- m ;; k" := (bind m (fun x => k))
  (at level 61, m at next level, right associativity).
Notation "m ;;; k" := (bind m (fun _ => k))
  (at level 61, right associativity).

Definition get : M collector := fun w => (Returns w, w).

Definition modify (f : collector -> collector) : M unit :=
  fun w => (Returns tt, f w).

Definition with_progress (f : list (string * CollectionProgress) ->
                              list (string * CollectionProgress))
    (w : collector) : collector :=
  {| progress := f (progress w); progress_file := progress_file w;
     stats := stats w; db := db w; clock := clock w; calls := calls w;
     events := events w |}.

Definition with_stats (f : api_stats -> api_stats) (w : collector) : collector :=
  {| progress := progress w; progress_file := progress_file w;
     stats := f (stats w); db := db w; clock := clock w; calls := calls w;
     events := events w |}.

Definition with_db (f : database -> database) (w : collector) : collector :=
  {| progress := progress w; progress_file := progress_file w;
     stats := stats w; db := f (db w); clock := clock w; calls := calls w;
     events := events w |}.

(** [time.sleep(seconds)] *)
Definition sleep (microseconds : Z) : M unit :=
  modify (fun w =>
    {| progress := progress w; progress_file := progress_file w;
       stats := stats w; db := db w; clock := clock w + microseconds;
       calls := calls w; events := events w ++ [Slept microseconds] |}).

(** [HistoricalCollector._save_progress] *)
Definition save_progress : M unit :=
  modify (fun w =>
    {| progress := progress w; progress_file := progress w;
       stats := stats w; db := db w; clock := clock w; calls := calls w;
       events := events w |}).

(** Mutation of the progress object registered under [coin]. *)
Definition update_progress (coin : string)
    (f : CollectionProgress -> CollectionProgress) : M unit :=
  modify (with_progress (fun d =>
    match lookup coin d with
    | Some p => store coin (f p) d
    | None => d
    end)).

(** [self.progress[coin]]; a missing key is a [KeyError]. *)
Definition the_progress (coin : string) : M CollectionProgress :=
  w <- get ;;
  match lookup coin (progress w) with
  | Some p => ret p
  | None => raise
  end.

(** *** Collection set-up *)

(** [self.start_dates] *)
Definition start_dates : list (string * datetime) :=
  [ ("bitcoin"%string, mk_datetime 736330 0 0);
    ("ethereum"%string, mk_datetime 736330 0 0);
    ("binancecoin"%string, mk_datetime 736511 0 0);
    ("solana"%string, mk_datetime 737485 0 0);
    ("cardano"%string, mk_datetime 736603 0 0);
    ("avalanche-2"%string, mk_datetime 737669 0 0);
    ("ripple"%string, mk_datetime 736330 0 0);
    ("polkadot"%string, mk_datetime 737546 0 0);
    ("chainlink"%string, mk_datetime 737180 0 0);
    ("polygon"%string, mk_datetime 737150 0 0) ].

Fixpoint start_date_of (coin : string) (table : list (string * datetime))
    : option datetime :=
  match table with
  | [] => None
  | (k, d) :: rest => if String.eqb k coin then Some d else start_date_of coin rest
  end.

(** [HistoricalCollector.initialize_collection]; an unsupported coin is a
    [ValueError]. *)
Definition initialize_collection (coin : string) : M CollectionProgress :=
  match start_date_of coin start_dates with
  | None => raise
  | Some start =>
      w <- get ;;
      let finish := clock w in
      let p := {| coin_id := coin;
                  total_days := td_days (finish - start);
                  collected_days := 0;
                  start_date := start;
                  end_date := finish;
                  current_date := start;
                  status := Pending;
                  errors := [];
                  last_error := None;
                  collection_start := None;
                  collection_end := None |} in
      modify (with_progress (store coin p)) ;;;
      save_progress ;;;
      ret p
  end.

(** [start_bitcoin_collection] / [start_ethereum_collection] *)
Definition start_collection (coin : string) : M unit :=
  _ <- initialize_collection coin ;;
  w <- get ;;
  update_progress coin (set_status InProgress) ;;;
  update_progress coin (set_collection_start (clock w)) ;;;
  save_progress.

(** *** The rate-limited client *)

Definition count_request (s : api_stats) : api_stats :=
  {| total_requests := total_requests s + 1;
     successful_requests := successful_requests s;
     failed_requests := failed_requests s;
     rate_limit_hits := rate_limit_hits s |}.

Definition count_success (s : api_stats) : api_stats :=
  {| total_requests := total_requests s;
     successful_requests := successful_requests s + 1;
     failed_requests := failed_requests s;
     rate_limit_hits := rate_limit_hits s |}.

Definition count_failure (s : api_stats) : api_stats :=
  {| total_requests := total_requests s;
     successful_requests := successful_requests s;
     failed_requests := failed_requests s + 1;
     rate_limit_hits := rate_limit_hits s |}.

Definition count_rate_limit (s : api_stats) : api_stats :=
  {| total_requests := total_requests s;
     successful_requests := successful_requests s;
     failed_requests := failed_requests s;
     rate_limit_hits := rate_limit_hits s + 1 |}.

Definition record_request (coin : string) (e : endpoint) (w : collector)
    : collector :=
  {| progress := progress w; progress_file := progress_file w;
     stats := stats w; db := db w; clock := clock w;
     calls := S (calls w); events := events w ++ [Requested coin e] |}.

Section Provider.

(** The provider: the reply to the n-th call made by this process. *)
Variable api : nat -> reply.

(** [HistoricalCollector._make_api_request]: 100 ms before every call; on an
    exception whose message mentions a rate limit, a 60 s pause; [None] on
    any exception. *)
Definition make_api_request (coin : string) (e : endpoint)
    : M (option response) :=
  modify (with_stats count_request) ;;;
  sleep 100000 ;;;
  w <- get ;;
  modify (record_request coin e) ;;;
  match api (calls w) with
  | Answer r =>
      modify (with_stats count_success) ;;;
      ret (Some r)
  | Failure error_msg =>
      modify (with_stats count_failure) ;;;
      if Str.contains "rate limit" (Str.lower error_msg) then
        modify (with_stats count_rate_limit) ;;;
        sleep 60000000 ;;;
        ret None
      else ret None
  end.

(** *** Processing of a market-chart answer *)

(** [if x and x > 0] on a nullable float *)
Definition positive (x : option Q) : bool :=
  match x with
  | Some v => negb (Qeq_bool v 0) && negb (Qle_bool v 0)
  | None => false
  end.

(** [if x] on a nullable float *)
Definition nonzero (x : option Q) : bool :=
  match x with
  | Some v => negb (Qeq_bool v 0)
  | None => false
  end.

Definition percent_change (new old : Q) : Q := (((new - old) / old) * 100)%Q.

Definition value_at (l : list point) (i : nat) : option Q :=
  option_map snd (nth_error l i).

(** [daily_data[-1]] *)
Definition last_record (daily_data : list daily_record) : option daily_record :=
  match rev daily_data with
  | [] => None
  | r :: _ => Some r
  end.

(** The loop of [_process_market_chart_data] from index [i] on. *)
Fixpoint process_prices (start : date) (prices : list point) (i : nat)
    (market_caps volumes : list point) (daily_data : list daily_record)
    : list daily_record :=
  match prices with
  | [] => daily_data
  | (record_date, price) :: rest =>
      if record_date <? start then
        process_prices start rest (S i) market_caps volumes daily_data
      else
        let market_cap := value_at market_caps i in
        let volume := value_at volumes i in
        let previous :=
          match i with
          | O => None
          | S _ => last_record daily_data
          end in
        let price_change_24h :=
          match previous with
          | Some prev =>
              if positive (r_close prev)
              then option_map (percent_change price) (r_close prev)
              else None
          | None => None
          end in
        let volume_change_24h :=
          match previous with
          | Some prev =>
              if positive (r_volume prev) && nonzero volume
              then match volume, r_volume prev with
                   | Some v, Some pv => Some (percent_change v pv)
                   | _, _ => None
                   end
              else None
          | None => None
          end in
        let record :=
          {| r_date := Some record_date;
             r_open := Some price;
             r_high := Some price;
             r_low := Some price;
             r_close := Some price;
             r_volume := volume;
             r_market_cap := market_cap;
             r_circulating_supply := None;
             r_total_supply := None;
             r_fdv := None;
             r_price_change_24h := price_change_24h;
             r_volume_change_24h := volume_change_24h |} in
        process_prices start rest (S i) market_caps volumes (daily_data ++ [record])
  end.

(** [response.get(key, [])] where the member is not null *)
Definition or_empty (l : field (list point)) : list point :=
  match l with
  | Has x => x
  | _ => []
  end.

Definition is_null {A : Type} (x : field A) : bool :=
  match x with
  | Null => true
  | _ => false
  end.

(** [HistoricalCollector._process_market_chart_data] on an answer whose
    ['prices'] is a list.  With ['market_caps'] or ['total_volumes'] null,
    [len(None)] raises inside the [try] of every record that is not skipped
    for its date, and no record is made. *)
Definition process_market_chart_data (prices : list point)
    (market_caps total_volumes : field (list point)) (start : datetime)
    : list daily_record :=
  if is_null market_caps || is_null total_volumes then []
  else process_prices (dt_date start) prices 0
         (or_empty market_caps) (or_empty total_volumes) [].

(** *** Metadata *)

(** The literals that differ between [collect_bitcoin_data] and
    [collect_ethereum_data]. *)
Record coin_constants : Type := {
  default_name : string;
  default_symbol : string;
  launch_date : string;
  algorithm : string;
  consensus : string
}.

Definition bitcoin_constants : coin_constants :=
  {| default_name := "Bitcoin"; default_symbol := "BTC";
     launch_date := "2009-01-03"; algorithm := "SHA-256";
     consensus := "Proof of Work" |}.

Definition ethereum_constants : coin_constants :=
  {| default_name := "Ethereum"; default_symbol := "ETH";
     launch_date := "2015-07-30"; algorithm := "Ethash (PoW) -> PoS";
     consensus := "Proof of Stake (с 2022)" |}.

Definition no_details : coin_details :=
  {| ci_name := Absent; ci_symbol := Absent; ci_market_data := Absent;
     ci_description := Absent; ci_links := Absent |}.

(** [coin_info.get('name', default)]: a null name is kept as [None]. *)
Definition name_of (c : coin_constants) (i : coin_details) : option string :=
  match ci_name i with
  | Absent => Some (default_name c)
  | Null => None
  | Has s => Some s
  end.

(** [coin_info.get('symbol', default).upper()]: [None] has no [upper]
    ([AttributeError]). *)
Definition symbol_of (c : coin_constants) (i : coin_details)
    : outcome string :=
  match ci_symbol i with
  | Absent => Returns (Str.upper (default_symbol c))
  | Null => Raises
  | Has s => Returns (Str.upper s)
  end.

(** [coin_info.get('market_data', {}).get('max_supply')] and
    [... .get('circulating_supply')]: [None] has no [get]
    ([AttributeError]). *)
Definition supplies_of (i : coin_details) : outcome (option Q * option Q) :=
  match ci_market_data i with
  | Absent => Returns (None, None)
  | Null => Raises
  | Has md => Returns (md_max_supply md, md_circulating_supply md)
  end.

(** [coin_info.get('description', {}).get('en', '')[:500]]: the first 500
    characters; [None] has no [get] ([AttributeError]) and cannot be sliced
    ([TypeError]). *)
Definition description_of (i : coin_details) : outcome Str.text :=
  match ci_description i with
  | Absent => Returns []
  | Null => Raises
  | Has Absent => Returns []
  | Has Null => Raises
  | Has (Has en) => Returns (firstn 500 en)
  end.

(** [coin_info.get('links', {}).get('homepage', [None])[0]]: [None] has no
    [get] ([AttributeError]) and no item ([TypeError]); an empty list is an
    [IndexError]. *)
Definition first_homepage (i : coin_details) : outcome (option string) :=
  match ci_links i with
  | Absent => Returns None
  | Null => Raises
  | Has Absent => Returns None
  | Has Null => Raises
  | Has (Has []) => Raises
  | Has (Has (site :: _)) => Returns site
  end.

(** The [metadata] dict built from a non-empty answer. *)
Definition build_metadata (c : coin_constants) (r : response)
    : outcome metadata :=
  let i := match r with
           | CoinInfo i => i
           | _ => no_details
           end in
  match symbol_of c i, supplies_of i, description_of i, first_homepage i with
  | Returns symbol, Returns (max_supply, current_supply),
    Returns description, Returns site =>
      Returns {| m_name := name_of c i;
                 m_symbol := symbol;
                 m_launch_date := launch_date c;
                 m_max_supply := max_supply;
                 m_current_supply := current_supply;
                 m_algorithm := algorithm c;
                 m_consensus := consensus c;
                 m_description := description;
                 m_website := site |}
  | _, _, _, _ => Raises
  end.

(** [if coin_info: ... db_manager.save_coin_metadata(coin, metadata)] *)
Definition store_metadata (coin : string) (c : coin_constants)
    (info : option response) : M unit :=
  match info with
  | None => ret tt
  | Some EmptyResponse => ret tt
  | Some r =>
      match build_metadata c r with
      | Raises => raise
      | Returns m => modify (with_db (save_coin_metadata coin m))
      end
  end.

(** *** The page loop *)

Definition max_days_per_request : Z := 365.

(** One iteration of the [while] loop, for request number
    [current_request]; the result is the new [total_collected].
    [start] is [progress.start_date].  An answer whose ['prices'] is null
    passes the test ['prices' in response] and makes
    [_process_market_chart_data] raise at [len(prices)], outside its [try]. *)
Definition collect_page (coin : string) (start : datetime)
    (total_days_needed current_request total_collected : Z) : M Z :=
  let days_for_this_request :=
    Z.min max_days_per_request (total_days_needed - total_collected) in
  response <- make_api_request coin (market_chart days_for_this_request) ;;
  total <-
    match response with
    | Some (MarketChart Null _ _) => raise
    | Some (MarketChart (Has prices) market_caps total_volumes) =>
        match process_market_chart_data prices market_caps total_volumes start with
        | [] =>
            update_progress coin
              (append_error (NoDataForRequest current_request)) ;;;
            ret total_collected
        | (_ :: _) as daily_data =>
            w <- get ;;
            let saved := save_daily_data coin daily_data (clock w) (db w) in
            modify (with_db (fun _ => snd saved)) ;;;
            update_progress coin
              (add_collected_days (Z.of_nat (List.length daily_data))) ;;;
            save_progress ;;;
            ret (total_collected + fst saved)
        end
    | _ =>
        update_progress coin
          (append_error (FetchFailedForRequest current_request)) ;;;
        update_progress coin
          (set_last_error (FetchFailedForRequest current_request)) ;;;
        ret total_collected
    end ;;
  sleep 2000000 ;;;
  ret total.

(** [while current_request < requests_needed], with [remaining] iterations
    to go. *)
Fixpoint page_loop (coin : string) (start : datetime) (total_days_needed : Z)
    (remaining : nat) (current_request total_collected : Z) : M Z :=
  match remaining with
  | O => ret total_collected
  | S k =>
      let current_request := current_request + 1 in
      total <- collect_page coin start total_days_needed
                 current_request total_collected ;;
      page_loop coin start total_days_needed k current_request total
  end.

(** *** The terminal check *)

(** [progress.collected_days >= progress.total_days * 0.95] *)
Definition reached_threshold (p : CollectionProgress) : bool :=
  Qle_bool (inject_Z (total_days p) * (95 # 100)) (inject_Z (collected_days p)).

(** The same test as the interpreter evaluates it: [total_days] converted
    to a float, the product with the double [0.95] rounded, and
    [collected_days] compared with the result. *)
Definition threshold_as_computed (p : CollectionProgress) : outcome bool :=
  match of_int (total_days p) with
  | Raises => Raises
  | Returns total =>
      Returns (int_ge (collected_days p) (fmul total (round (95 # 100))))
  end.

(** [td.total_seconds()]: the microseconds divided by [10**6], a float.
    (A [timedelta] is below [10**9] days, so the quotient is finite.) *)
Definition total_seconds (d : timedelta) : float :=
  round (inject_Z d / inject_Z us_per_second).

(** Lines "check completion" to the end of [collect_bitcoin_data].
    [progress.collection_end - progress.collection_start] is a [TypeError]
    when [collection_start] is [None]. *)
Definition finish_collection (coin : string) (total_collected : Z) : M bool :=
  p <- the_progress coin ;;
  if reached_threshold p then
    w <- get ;;
    update_progress coin (set_status Completed) ;;;
    update_progress coin (set_collection_end (clock w)) ;;;
    save_progress ;;;
    match collection_start p with
    | None => raise
    | Some started =>
        modify (with_db (save_collection_stats
          {| st_coin_id := coin;
             st_collection_date := dt_date (clock w);
             st_records_added := total_collected;
             st_records_updated := 0;
             st_errors_count := Z.of_nat (List.length (errors p));
             st_collection_time_seconds := total_seconds (clock w - started);
             st_status := "completed" |})) ;;;
        ret true
    end
  else
    update_progress coin (set_status Error) ;;;
    update_progress coin
      (set_last_error (CollectedOnly (collected_days p) (total_days p))) ;;;
    save_progress ;;;
    ret false.

(** *** The entry points *)

(** The common text of [collect_bitcoin_data] and [collect_ethereum_data]. *)
Definition collect_data (coin : string) (c : coin_constants) : M bool :=
  w <- get ;;
  match lookup coin (progress w) with
  | None => start_collection coin
  | Some _ => ret tt
  end ;;;
  p <- the_progress coin ;;
  if job_status_eqb (status p) Completed then ret true
  else
    info <- make_api_request coin coin_info ;;
    store_metadata coin c info ;;;
    let days_to_collect := td_days (end_date p - start_date p) in
    let total_days_needed := days_to_collect in
    let requests_needed :=
      (total_days_needed + max_days_per_request - 1) / max_days_per_request in
    total_collected <-
      page_loop coin (start_date p) total_days_needed
        (Z.to_nat requests_needed) 0 0 ;;
    finish_collection coin total_collected.

Definition collect_bitcoin_data : M bool :=
  collect_data "bitcoin" bitcoin_constants.

Definition collect_ethereum_data : M bool :=
  collect_data "ethereum" ethereum_constants.

End Provider.

End HistoricalCollector.

(** ** crypto_historical_analyzer.py: the incremental update *)

Module CryptoHistoricalAnalyzer.

Import DatabaseManager.

(** The analyzer object: [self.db_manager] and [self._cg], each possibly
    [None]. *)
Record analyzer : Type := {
  db_manager : option database;
  cg_available : bool
}.

(** [CryptoHistoricalAnalyzer.__init__]: the managers and the provider
    client are created together, or all three are [None]. *)
Definition new_analyzer (created : option database) : analyzer :=
  match created with
  | Some db => {| db_manager := Some db; cg_available := true |}
  | None => {| db_manager := None; cg_available := false |}
  end.

(** The decision at the head of [get_ethereum_analysis]:
    [(need_update, days_to_fetch)]. *)
Definition update_plan (last_date : option date) (today : date) : bool * Z :=
  match last_date with
  | None => (true, 365)
  | Some last =>
      let gap_days := today - last in
      if 1 <=? gap_days then (true, Z.min 90 (gap_days + 1))
      else (false, 0)
  end.

(** The [days] argument of every [get_coin_market_chart_by_id] call that one
    invocation of [get_ethereum_analysis] makes. *)
Definition requested_days (a : analyzer) (today : date) : list Z :=
  match db_manager a with
  | None => []
  | Some db =>
      let last_date := get_last_daily_date "ethereum" db in
      let plan := update_plan last_date today in
      if fst plan && cg_available a then [snd plan] else []
  end.

End CryptoHistoricalAnalyzer.

(** ** The RSI of crypto_history_collector.py and historical_data_manager.py *)

Module Indicators.

(** A float as pandas sees it: not-a-number, an infinity, or a finite value. *)
Inductive xfloat : Type :=
| NaN
| Inf (negative : bool)
| Fin (q : Q).

Definition is_negative (q : Q) : bool := negb (Qle_bool 0 q).
Definition is_positive (q : Q) : bool := negb (Qle_bool q 0).

Definition xadd (a b : xfloat) : xfloat :=
  match a, b with
  | NaN, _ => NaN
  | _, NaN => NaN
  | Inf s, Inf t => if Bool.eqb s t then Inf s else NaN
  | Inf s, Fin _ => Inf s
  | Fin _, Inf t => Inf t
  | Fin x, Fin y => Fin (x + y)
  end.

Definition xneg (a : xfloat) : xfloat :=
  match a with
  | NaN => NaN
  | Inf s => Inf (negb s)
  | Fin x => Fin (- x)
  end.

Definition xsub (a b : xfloat) : xfloat := xadd a (xneg b).

(** Division without exceptions, as numpy does it: [x/0] is an infinity of
    the sign of [x], [0/0] is NaN. *)
Definition xdiv (a b : xfloat) : xfloat :=
  match a, b with
  | NaN, _ => NaN
  | _, NaN => NaN
  | Inf _, Inf _ => NaN
  | Inf s, Fin y => Inf (xorb s (is_negative y))
  | Fin _, Inf _ => Fin 0
  | Fin x, Fin y =>
      if Qeq_bool y 0 then
        if Qeq_bool x 0 then NaN else Inf (is_negative x)
      else Fin (x / y)
  end.

(** A price series; [None] is a missing price (NaN). *)
Definition series : Type := list (option Q).

(** [prices.diff()] *)
Fixpoint diff_from (previous : option Q) (prices : series) : series :=
  match prices with
  | [] => []
  | x :: rest =>
      match previous, x with
      | Some a, Some b => Some (b - a)%Q
      | _, _ => None
      end :: diff_from x rest
  end.

Definition diff (prices : series) : series := diff_from None prices.

(** [delta.where(delta > 0, 0)] *)
Definition gain_of (d : option Q) : Q :=
  match d with
  | Some x => if is_positive x then x else 0%Q
  | None => 0%Q
  end.

(** [-delta.where(delta < 0, 0)] *)
Definition loss_of (d : option Q) : Q :=
  match d with
  | Some x => if is_negative x then (- x)%Q else (- 0)%Q
  | None => (- 0)%Q
  end.

Definition total (l : list Q) : Q := fold_right Qplus 0%Q l.

(** The [period] values ending at index [i]. *)
Definition window (period : nat) (l : list Q) (i : nat) : list Q :=
  firstn period (skipn (S i - period) l).

(** [s.rolling(window=period).mean()] on a series without NaN: NaN until
    [period] values are available. *)
Definition rolling_mean (period : nat) (l : list Q) : series :=
  map (fun i =>
         if ((1 <=? period) && (period <=? S i))%nat
         then Some (total (window period l i) / inject_Z (Z.of_nat period))%Q
         else None)
      (seq 0 (List.length l)).

Definition of_option (x : option Q) : xfloat :=
  match x with
  | Some q => Fin q
  | None => NaN
  end.

Definition average_gain (prices : series) (period : nat) : series :=
  rolling_mean period (map gain_of (diff prices)).

Definition average_loss (prices : series) (period : nat) : series :=
  rolling_mean period (map loss_of (diff prices)).

(** [rsi = 100 - (100 / (1 + rs))] *)
Definition rsi_of (gain loss : option Q) : xfloat :=
  let rs := xdiv (of_option gain) (of_option loss) in
  xsub (Fin 100) (xdiv (Fin 100) (xadd (Fin 1) rs)).

(** [_calculate_rsi(prices, period)] *)
Definition calculate_rsi (prices : series) (period : nat) : list xfloat :=
  map (fun gl => rsi_of (fst gl) (snd gl))
      (combine (average_gain prices period) (average_loss prices period)).

(** The value of a float, when it has one. *)
Definition has_value (v : xfloat) (q : Q) : Prop :=
  match v with
  | Fin x => (x == q)%Q
  | _ => False
  end.

End Indicators.

(** ** Readings of the event history *)

Module Observations.

Import Json HistoricalCollector.

(** The [days] parameters of the market-chart calls, in order. *)
Fixpoint chart_requests (history : list event) : list Z :=
  match history with
  | [] => []
  | Requested _ (market_chart days) :: rest => days :: chart_requests rest
  | _ :: rest => chart_requests rest
  end.


End Observations.

(** ** Concrete runs *)

Module Scenarios.

Import Json DatabaseManager HistoricalCollector.

(** A record with a date, a close and an optional market cap. *)
Definition sample_record (d : date) (close : Q) (market_cap : option Q)
    : daily_record :=
  {| r_date := Some d; r_open := Some close; r_high := Some close;
     r_low := Some close; r_close := Some close; r_volume := None;
     r_market_cap := market_cap; r_circulating_supply := None;
     r_total_supply := None; r_fdv := None; r_price_change_24h := None;
     r_volume_change_24h := None |}.

(** The collector right after [__init__], with no progress file. *)
Definition fresh_collector (now : datetime) : collector :=
  {| progress := []; progress_file := [];
     stats := {| total_requests := 0; successful_requests := 0;
                 failed_requests := 0; rate_limit_hits := 0 |};
     db := empty_database; clock := now; calls := O; events := [] |}.

(** [n] daily points from date [first] on, the value rising by one a day. *)
Definition daily_points (first : date) (n : nat) : list point :=
  map (fun k => (first + Z.of_nat k, inject_Z (1000 + Z.of_nat k)))
      (seq 0 n).

(** The provider's answer for the most recent days: [n] points from
    [first] on, in all three series. *)
Definition chart_answer (first : date) (n : nat) : reply :=
  Answer (MarketChart (Has (daily_points first n))
            (Has (daily_points first n)) (Has (daily_points first n))).

Definition bitcoin_details : response :=
  CoinInfo {| ci_name := Has "Bitcoin"%string;
              ci_symbol := Has "btc"%string;
              ci_market_data :=
                Has {| md_max_supply := Some (21000000 # 1);
                       md_circulating_supply := Some (19600000 # 1) |};
              ci_description :=
                Has (Has (Str.text_of
                  "Bitcoin is the first successful internet money."));
              ci_links := Has (Has [Some "http://www.bitcoin.org"%string]) |}.

(** 2017-01-11, ten days after the start date of bitcoin: a job that was
    initialised through [initialize_collection] and not started. *)
Definition ten_days_in : datetime := mk_datetime 736340 0 0.

Definition initialized_only : collector :=
  snd (initialize_collection "bitcoin" (fresh_collector ten_days_in)).

(** Every request is answered; the chart holds the 11 daily points of
    2017-01-01 .. 2017-01-11. *)
Definition api_answers_all (n : nat) : reply :=
  match n with
  | O => Answer bitcoin_details
  | S _ => chart_answer 736330 11
  end.

(** 400 days after the start date: two pages, the second for the 34 days
    still missing; the provider answers each with the most recent days. *)
Definition day_400 : datetime := mk_datetime 736730 0 0.

Definition api_overlapping (n : nat) : reply :=
  match n with
  | O => Answer bitcoin_details
  | S O => chart_answer 736365 366
  | S (S _) => chart_answer 736696 35
  end.

(** 800 days after the start date: three pages, the request of the second
    one refused for the rate limit. *)
Definition day_800 : datetime := mk_datetime 737130 0 0.

Definition rate_limit_message : string :=
  "You've exceeded the Rate Limit. Please visit the pricing page.".

Definition api_rate_limited (n : nat) : reply :=
  match n with
  | O => Answer bitcoin_details
  | S (S O) => Failure rate_limit_message
  | S _ => chart_answer 736765 366
  end.

(** The job of the 800-day run once [start_bitcoin_collection] has
    registered it. *)
Definition started_day_800 : collector :=
  snd (start_collection "bitcoin" (fresh_collector day_800)).

(** A collector whose bitcoin job is completed, with its counters and one
    stored row. *)
Definition finished_job : CollectionProgress :=
  {| coin_id := "bitcoin"; total_days := 10; collected_days := 11;
     start_date := mk_datetime 736330 0 0; end_date := ten_days_in;
     current_date := mk_datetime 736330 0 0; status := Completed;
     errors := []; last_error := None;
     collection_start := Some ten_days_in;
     collection_end := Some (ten_days_in + 2200000) |}.

Definition finished_collector : collector :=
  {| progress := [("bitcoin"%string, finished_job)];
     progress_file := [("bitcoin"%string, finished_job)];
     stats := {| total_requests := 2; successful_requests := 2;
                 failed_requests := 0; rate_limit_hits := 0 |};
     db := snd (save_daily_data "bitcoin"
                  [sample_record 736330 (1000 # 1) None] ten_days_in
                  empty_database);
     clock := ten_days_in + 2200000; calls := 2%nat;
     events := [Slept 100000; Requested "bitcoin" coin_info;
                Slept 100000; Requested "bitcoin" (market_chart 10);
                Slept 2000000] |}.

(** The job of the 800-day run as [start_bitcoin_collection] registers it. *)
Definition started_job : CollectionProgress :=
  {| coin_id := "bitcoin"; total_days := 800; collected_days := 0;
     start_date := mk_datetime 736330 0 0; end_date := day_800;
     current_date := mk_datetime 736330 0 0; status := InProgress;
     errors := []; last_error := None;
     collection_start := Some day_800; collection_end := None |}.

(** Fifteen closes rising by one a day, and fifteen equal closes. *)
Definition rising_prices : Indicators.series :=
  map (fun k => Some (inject_Z (100 + Z.of_nat k))) (seq 0 15).

Definition flat_prices : Indicators.series := repeat (Some (100 # 1)) 15.

(** The job registered under [coin], if any, after a run. *)
Definition job_after {A : Type} (coin : string) (run : outcome A * collector)
    : option CollectionProgress :=
  lookup coin (progress (snd run)).

(** A job in progress of [total] days, [collected] of them collected. *)
Definition job_with (collected total : Z) : CollectionProgress :=
  {| coin_id := "bitcoin"; total_days := total; collected_days := collected;
     start_date := mk_datetime 736330 0 0;
     end_date := mk_datetime 736330 0 0 + days total;
     current_date := mk_datetime 736330 0 0; status := InProgress;
     errors := []; last_error := None;
     collection_start := None; collection_end := None |}.

End Scenarios.

(** ** cache_manager.py: the schedule *)

Module CacheSchedule.

Import CacheManager.

(** The hours [datetime.replace(hour=...)] accepts. *)
Definition valid_hour (h : Z) : bool := (0 <=? h) && (h <? 24).

(** The loop of [_get_next_update_time]: the first scheduled time of today
    that is still ahead; [now.replace(hour=hour)] is a [ValueError] for an
    hour outside 0..23. *)
Fixpoint first_later_today (now : datetime) (hours : list Z)
    : outcome (option datetime) :=
  match hours with
  | [] => Returns None
  | hour :: rest =>
      if valid_hour hour then
        let next_update := replace_hour now hour in
        if now <? next_update then Returns (Some next_update)
        else first_later_today now rest
      else Raises
  end.

(** [t + d] on a datetime: an [OverflowError] when the sum leaves the
    years 1..9999. *)
Definition plus_timedelta (t : datetime) (d : timedelta) : outcome datetime :=
  let sum := t + d in
  if (min_ordinal <=? dt_date sum) && (dt_date sum <=? max_ordinal)
  then Returns sum
  else Raises.

(** [CacheManager._get_next_update_time]: failing a time today, the first
    hour of the list tomorrow ([now + timedelta(days=1)] is an
    [OverflowError] on the last day of the calendar, and
    [self.update_hours[0]] an [IndexError] on an empty list). *)
Definition get_next_update_time (update_hours : list Z) (now : datetime)
    : outcome datetime :=
  match first_later_today now update_hours with
  | Raises => Raises
  | Returns (Some next_update) => Returns next_update
  | Returns None =>
      match plus_timedelta now (days 1) with
      | Raises => Raises
      | Returns tomorrow =>
          match update_hours with
          | [] => Raises
          | first_hour :: _ =>
              if valid_hour first_hour
              then Returns (replace_hour tomorrow first_hour)
              else Raises
          end
      end
  end.

(** A scheduled instant: hour [h] of the schedule on day [d]. *)
Definition scheduled_at (d : date) (h : Z) : datetime :=
  d * us_per_day + h * us_per_hour.

(** The ['update_count'] a cache file carries (0 when it has none). *)
Definition count_of (f : cache_file) : Z :=
  match f with
  | Stored c =>
      match update_count c with
      | Some n => n
      | None => 0
      end
  | _ => 0
  end.

(** A series of forced reads of the crypto cache, each with the outcome of
    its collector call and its time; the file after the last one. *)
Fixpoint forced_crypto_reads (hours : list Z)
    (reads : list (outcome payload * datetime)) (f : cache_file) : cache_file :=
  match reads with
  | [] => f
  | (collector, now) :: rest =>
      forced_crypto_reads hours rest
        (snd (get_crypto_data hours true collector now f))
  end.

(** The reads of a series whose collector came back with data. *)
Definition refreshes (reads : list (outcome payload * datetime)) : nat :=
  List.length (filter (fun r => negb (failed (fst r))) reads).

End CacheSchedule.

(** ** historical_data/database_manager.py: the read path *)

Module DatabaseQueries.

Import DatabaseManager.

(** [ORDER BY date]: insertion into a list ordered by date.  (Rows of
    equal date, which [UNIQUE(coin_id, date)] rules out for one coin, are
    returned by SQLite in an order it does not fix.) *)
Fixpoint insert_by_date (r : price_row) (l : list price_row) : list price_row :=
  match l with
  | [] => [r]
  | x :: rest =>
      if row_date r <=? row_date x then r :: x :: rest
      else x :: insert_by_date r rest
  end.

Definition order_by_date (l : list price_row) : list price_row :=
  fold_right insert_by_date [] l.

(** The [WHERE] clause [get_daily_data] builds: [AND date >= ?] and
    [AND date <= ?] are added for the bounds that are given. *)
Definition in_range (start_date end_date : option date) (r : price_row) : bool :=
  match start_date with
  | Some s => s <=? row_date r
  | None => true
  end &&
  match end_date with
  | Some e => row_date r <=? e
  | None => true
  end.

(** [DatabaseManager.get_daily_data]:
    [SELECT * FROM daily_prices WHERE coin_id = ? ... ORDER BY date]. *)
Definition get_daily_data (coin_id : string) (start_date end_date : option date)
    (db : database) : list price_row :=
  order_by_date (filter (in_range start_date end_date) (rows_of coin_id db)).

(** The columns [get_daily_data_compact] lets through. *)
Definition allowed : list string :=
  ["date"; "open"; "high"; "low"; "close"; "volume"; "market_cap"]%string.

Definition mentions (names : list string) (c : string) : bool :=
  existsb (String.eqb c) names.

(** [cols = [c for c in columns if c in allowed]], with the default when
    nothing is left. *)
Definition select_columns (columns : list string) : list string :=
  match filter (mentions allowed) columns with
  | [] => ["date"; "close"; "volume"]%string
  | cols => cols
  end.

(** A cell of the compact result: the date or a nullable number. *)
Inductive cell : Type :=
| DateCell (d : date)
| NumberCell (x : option Q).

Definition column_value (c : string) (r : price_row) : cell :=
  if String.eqb c "date" then DateCell (row_date r)
  else if String.eqb c "open" then NumberCell (r_open (row_values r))
  else if String.eqb c "high" then NumberCell (r_high (row_values r))
  else if String.eqb c "low" then NumberCell (r_low (row_values r))
  else if String.eqb c "close" then NumberCell (r_close (row_values r))
  else if String.eqb c "volume" then NumberCell (r_volume (row_values r))
  else NumberCell (r_market_cap (row_values r)).

(** [DatabaseManager.get_daily_data_compact]: the selected column names and,
    per row in date order, their values. *)
Definition get_daily_data_compact (coin_id : string)
    (start_date end_date : option date) (columns : list string) (db : database)
    : list string * list (list cell) :=
  let cols := select_columns columns in
  (cols,
   map (fun r => map (fun c => column_value c r) cols)
       (get_daily_data coin_id start_date end_date db)).

(** The key of a row under [UNIQUE(coin_id, date)]. *)
Definition key_of (r : price_row) : string * date := (row_coin_id r, row_date r).

(** What SQLite keeps true of the table: no two rows share a key, no two
    rows share an id, and no id is beyond the autoincrement sequence. *)
Definition table_ok (db : database) : Prop :=
  NoDup (map key_of (daily_prices db)) /\
  NoDup (map row_id (daily_prices db)) /\
  Forall (fun r => row_id r <= daily_prices_seq db) (daily_prices db).

(** The records of a batch that carry a date. *)
Definition dated (data : list daily_record) : list daily_record :=
  filter (fun r => match r_date r with Some _ => true | None => false end) data.

(** The last record of a batch written for date [d], if any. *)
Fixpoint last_for (d : date) (data : list daily_record) : option daily_record :=
  match data with
  | [] => None
  | r :: rest =>
      match last_for d rest with
      | Some later => Some later
      | None =>
          match r_date r with
          | Some d' => if d' =? d then Some r else None
          | None => None
          end
      end
  end.

(** The later of a last date and the dates a batch carries. *)
Fixpoint last_date_after (last : option date) (data : list daily_record)
    : option date :=
  match data with
  | [] => last
  | r :: rest =>
      match r_date r with
      | Some d =>
          last_date_after
            (Some (match last with
                   | Some m => Z.max m d
                   | None => d
                   end)) rest
      | None => last_date_after last rest
      end
  end.

(** The order of [ORDER BY date]. *)
Definition by_date (a b : price_row) : Prop := row_date a <= row_date b.

End DatabaseQueries.

(** ** Readings of a collection run *)

Module CollectorRuns.

Import Json DatabaseManager HistoricalCollector.

(** A call keeps the relation [R] between the collector before and after
    it when it returns, and the relation [E] when it raises. *)
Definition preserves {A : Type} (R E : collector -> collector -> Prop)
    (m : M A) : Prop :=
  forall w,
    match fst (m w) with
    | Returns _ => R w (snd (m w))
    | Raises => E w (snd (m w))
    end.

(** The API counters against the provider calls made between two states. *)
Definition accounted (w w' : collector) : Prop :=
  let s := stats w in
  let s' := stats w' in
  (calls w <= calls w')%nat /\
  total_requests s' - total_requests s = Z.of_nat (calls w' - calls w) /\
  total_requests s' - total_requests s
  = (successful_requests s' - successful_requests s)
    + (failed_requests s' - failed_requests s) /\
  0 <= successful_requests s' - successful_requests s /\
  0 <= rate_limit_hits s' - rate_limit_hits s
    <= failed_requests s' - failed_requests s.

(** [SELECT * FROM coin_metadata WHERE coin_id = ?] *)
Definition metadata_of (coin_id : string) (db : database)
    : list (string * metadata) :=
  filter (fun e => String.eqb (fst e) coin_id) (coin_metadata db).

(** What belongs to the coins other than [coin]: their jobs, their price
    rows and their metadata. *)
Definition untouched_elsewhere (coin : string) (w w' : collector) : Prop :=
  forall other : string,
    other <> coin ->
    lookup other (progress w') = lookup other (progress w) /\
    rows_of other (db w') = rows_of other (db w) /\
    metadata_of other (db w') = metadata_of other (db w).

(** Pacing of the provider calls.  The state is the time slept since the
    last call and whether that call was a market-chart call; a call is in
    time after 100 ms of sleep, and after 2.1 s when the call before it was
    a market-chart call.  [None]: a call came too early. *)
Definition is_market_chart (e : endpoint) : bool :=
  match e with
  | market_chart _ => true
  | coin_info => false
  end.

Fixpoint pace (s : Z * bool) (history : list event) : option (Z * bool) :=
  match history with
  | [] => Some s
  | Slept us :: rest => pace (fst s + us, snd s) rest
  | Requested _ e :: rest =>
      if (if snd s then 2100000 else 100000) <=? fst s
      then pace (0, is_market_chart e) rest
      else None
  end.

Definition well_paced (history : list event) : bool :=
  match pace (0, false) history with
  | Some _ => true
  | None => false
  end.

(** A pacing state from which a further call, made after the 100 ms of
    [_make_api_request], is in time. *)
Definition ready (s : Z * bool) : Prop :=
  0 <= fst s /\ (snd s = true -> 2000000 <= fst s).

Definition paced (w w' : collector) : Prop :=
  forall s, ready s ->
    exists new s',
      events w' = events w ++ new /\ pace s new = Some s' /\ ready s'.

(** The same for a call that ends in an exception, after which the run
    makes no further call. *)
Definition paced_so_far (w w' : collector) : Prop :=
  forall s, ready s ->
    exists new s',
      events w' = events w ++ new /\ pace s new = Some s'.

(** The coin answers on which the metadata block of the run does not raise:
    no null ['symbol'], ['market_data'], ['description'], ['links'], no null
    ['en'] or ['homepage'] in them, and no empty ['homepage'] list. *)
Definition metadata_ok (i : coin_details) : bool :=
  negb (is_null (ci_symbol i))
  && negb (is_null (ci_market_data i))
  && match ci_description i with
     | Null | Has Null => false
     | _ => true
     end
  && match ci_links i with
     | Null | Has Null | Has (Has []) => false
     | _ => true
     end.

(** The replies that make a page raise: a chart whose ['prices'] is
    null. *)
Definition prices_null (r : reply) : bool :=
  match r with
  | Answer (MarketChart Null _ _) => true
  | _ => false
  end.

(** What a run may change of a registered job. *)
Definition job_advanced (p p' : CollectionProgress) : Prop :=
  coin_id p' = coin_id p /\
  total_days p' = total_days p /\
  start_date p' = start_date p /\
  end_date p' = end_date p /\
  current_date p' = current_date p /\
  collection_start p' = collection_start p /\
  collected_days p <= collected_days p' /\
  exists added, errors p' = errors p ++ added.

End CollectorRuns.

(** ** Further runs *)

Module RunScenarios.

Import Json DatabaseManager HistoricalCollector Scenarios.


(** The metadata answer carries an empty list of home pages. *)
Definition details_without_homepage : coin_details :=
  {| ci_name := Has "Bitcoin"%string;
     ci_symbol := Has "btc"%string;
     ci_market_data :=
       Has {| md_max_supply := Some (21000000 # 1);
              md_circulating_supply := Some (19600000 # 1) |};
     ci_description := Absent;
     ci_links := Has (Has []) |}.

Definition api_without_homepage (n : nat) : reply :=
  match n with
  | O => Answer (CoinInfo details_without_homepage)
  | S _ => chart_answer 736330 11
  end.

(** The job of the 10-day run once [start_bitcoin_collection] has
    registered it. *)
Definition started_ten_days_in : collector :=
  snd (start_collection "bitcoin" (fresh_collector ten_days_in)).

Definition started_ten_day_job : CollectionProgress :=
  {| coin_id := "bitcoin"; total_days := 10; collected_days := 0;
     start_date := mk_datetime 736330 0 0; end_date := ten_days_in;
     current_date := mk_datetime 736330 0 0; status := InProgress;
     errors := []; last_error := None;
     collection_start := Some ten_days_in; collection_end := None |}.

End RunScenarios.

(** ** crypto_historical_analyzer.py: the points handed to the AI *)

Module AiPoints.

Import DatabaseManager DatabaseQueries CryptoHistoricalAnalyzer.

(** One element of the result: the [date], [close] and [volume] of a row. *)
Record ai_point : Type := {
  p_date : date;
  p_close : option Q;
  p_volume : option Q
}.

(** [df[['date', 'close', 'volume']].to_dict('records')], row by row *)
Definition point_of (r : price_row) : ai_point :=
  {| p_date := row_date r;
     p_close := r_close (row_values r);
     p_volume := r_volume (row_values r) |}.

Section Frames.

Variable A : Type.

(** [df.tail(n)] *)
Definition tail (n : nat) (df : list A) : list A :=
  skipn (List.length df - n) df.

(** [df.iloc[:-n]] for [n > 0] *)
Definition drop_last (n : nat) (df : list A) : list A :=
  firstn (List.length df - n) df.

(** [df.iloc[::step]] for [step >= 1]: the rows at 0, step, 2 step, ...;
    [wait] rows are passed over before the next one is taken. *)
Fixpoint stride (step wait : nat) (df : list A) : list A :=
  match df with
  | [] => []
  | x :: rest =>
      match wait with
      | O => x :: stride step (step - 1) rest
      | S k => stride step k rest
      end
  end.

Definition every (step : nat) (df : list A) : list A := stride step 0 df.

(** [df.head(n)] for [n >= 0] *)
Definition head (n : Z) (df : list A) : list A := firstn (Z.to_nat n) df.

(** [points[-n:]] for an integer [n] of either sign: the last [n] elements
    for [n > 0], the whole list for [n = 0] (the slice [points[0:]]), the
    list without its first [-n] elements for [n < 0]. *)
Definition last_slice (n : Z) (points : list A) : list A :=
  if 0 <? n then skipn (List.length points - Z.to_nat n) points
  else skipn (Z.to_nat (- n)) points.

End Frames.

Arguments tail {A} n df.
Arguments drop_last {A} n df.
Arguments stride {A} step wait df.
Arguments every {A} step df.
Arguments head {A} n df.
Arguments last_slice {A} n points.

(** [self.bitcoin_manager.get_smart_sample_data(max_points=k)]: the sample
    of the local manager, or its exception. *)
Definition sampler : Type := Z -> outcome (list ai_point).

(** The first [try] block, on the frame [df] read from the database. *)
Definition eth_points (df : list price_row) (max_points : Z) : list ai_point :=
  match df with
  | [] => []
  | _ :: _ =>
      let recent := map point_of (tail 60 df) in
      match drop_last 60 df with
      | [] => recent
      | (_ :: _) as remain =>
          let remaining_slots :=
            Z.max 0 (max_points - Z.of_nat (List.length recent)) in
          if 0 <? remaining_slots then
            let step :=
              Z.max 1 (Z.of_nat (List.length remain) / remaining_slots) in
            recent
            ++ map point_of (head remaining_slots (every (Z.to_nat step) remain))
          else recent
      end
  end.

(** [points] before the final cut. *)
Definition gathered_points (a : analyzer) (bitcoin_manager : option sampler)
    (max_points : Z) : list ai_point :=
  let points :=
    match db_manager a with
    | Some db => eth_points (get_daily_data "ethereum" None None db) max_points
    | None => []
    end in
  match bitcoin_manager with
  | Some get_smart_sample_data =>
      match get_smart_sample_data (Z.min 100 (max_points / 2)) with
      | Returns btc_df => points ++ btc_df
      | Raises => points
      end
  | None => points
  end.

(** [CryptoHistoricalAnalyzer.get_ai_historical_points] *)
Definition get_ai_historical_points (a : analyzer)
    (bitcoin_manager : option sampler) (max_points : Z) : list ai_point :=
  let points := gathered_points a bitcoin_manager max_points in
  if max_points <? Z.of_nat (List.length points)
  then last_slice max_points points
  else points.

End AiPoints.

(** ** crypto_history_collector.py: moving averages, levels and trend *)

Module TrendIndicators.

Import Indicators.

(** The values of a window when none is missing. *)
Fixpoint all_present (s : series) : option (list Q) :=
  match s with
  | [] => Some []
  | Some x :: rest => option_map (cons x) (all_present rest)
  | None :: _ => None
  end.

(** The [period] observations ending at index [i], when there are that many
    and none of them is missing: [min_periods] of a rolling window defaults
    to its size. *)
Definition full_window (period : nat) (s : series) (i : nat)
    : option (list Q) :=
  if ((1 <=? period) && (period <=? S i))%nat
  then all_present (firstn period (skipn (S i - period) s))
  else None.

(** [s.rolling(window=period).<aggregate>()] *)
Definition rolling (aggregate : list Q -> Q) (period : nat) (s : series)
    : series :=
  map (fun i => option_map aggregate (full_window period s i))
      (seq 0 (List.length s)).

Definition mean (w : list Q) : Q :=
  (total w / inject_Z (Z.of_nat (List.length w)))%Q.

Definition smaller (a b : Q) : Q := if Qle_bool a b then a else b.
Definition larger (a b : Q) : Q := if Qle_bool a b then b else a.

Definition minimum (w : list Q) : Q :=
  match w with
  | [] => 0%Q
  | x :: rest => fold_left smaller rest x
  end.

Definition maximum (w : list Q) : Q :=
  match w with
  | [] => 0%Q
  | x :: rest => fold_left larger rest x
  end.

(** The columns of [_calculate_and_save_indicators] that are rolling
    aggregates of [price_usd]; the function computes them for a coin with at
    least 30 stored prices and returns at once otherwise. *)
Definition ma_7 (price_usd : series) : series := rolling mean 7 price_usd.
Definition ma_25 (price_usd : series) : series := rolling mean 25 price_usd.
Definition ma_99 (price_usd : series) : series := rolling mean 99 price_usd.
Definition support_level (price_usd : series) : series :=
  rolling minimum 20 price_usd.
Definition resistance_level (price_usd : series) : series :=
  rolling maximum 20 price_usd.

Inductive trend : Type :=
| strong_bullish
| bullish
| strong_bearish
| bearish
| neutral.

(** [a > b] on floats that are present *)
Definition gt (a b : Q) : bool := negb (Qle_bool a b).

(** [CryptoHistoryCollector._determine_trend] on the row's [price_usd],
    [ma_7] and [ma_25]; a comparison with a missing price is false. *)
Definition determine_trend (price ma7 ma25 : option Q) : trend :=
  match ma7, ma25 with
  | Some m7, Some m25 =>
      match price with
      | Some p =>
          if gt p m7 && gt m7 m25 then strong_bullish
          else if gt p m7 then bullish
          else if gt m7 p && gt m25 m7 then strong_bearish
          else if gt m7 p then bearish
          else neutral
      | None => neutral
      end
  | _, _ => neutral
  end.

(** [df['trend'] = df.apply(lambda row: self._determine_trend(row), axis=1)] *)
Definition trend_column (price_usd : series) : list trend :=
  map (fun row => determine_trend (fst row) (fst (snd row)) (snd (snd row)))
      (combine price_usd (combine (ma_7 price_usd) (ma_25 price_usd))).

(** Thirty closes rising by one a day. *)
Definition thirty_rising : list Q :=
  map (fun k => inject_Z (100 + Z.of_nat k)) (seq 0 30).

End TrendIndicators.

(** ** historical_data_manager.py: the current position *)

Module PositionStats.

Import Float64.

(** The manager's cache of the loaded frame; of the frame, its [close]
    column, in the order of the rows. *)
Record manager : Type := {
  data_cache : option (list float);
  last_load_time : option datetime
}.

(** [HistoricalDataManager.load_data].  [csv] is what reading the file comes
    to: the [close] column of its rows once sorted by date and rid of
    duplicate dates, or an exception.  The frame keeps the rows with
    [close > 0]; it is cached before the log line that formats the first and
    last date, which raises on an empty frame ([NaT] has no [strftime]); the
    exception is logged and raised again. *)
Definition load_data (m : manager) (current_time : datetime)
    (force_reload : bool) (csv : outcome (list float))
    : outcome (list float) * manager :=
  let reload :=
    match csv with
    | Raises => (Raises, m)
    | Returns closes =>
        let df := filter fpositive closes in
        let loaded := {| data_cache := Some df;
                         last_load_time := Some current_time |} in
        match df with
        | [] => (Raises, loaded)
        | _ :: _ => (Returns df, loaded)
        end
    end in
  match data_cache m, last_load_time m with
  | Some df, Some loaded_at =>
      if negb force_reload
         && (current_time - loaded_at <? 3600 * us_per_second)
      then (Returns df, m)
      else reload
  | _, _ => reload
  end.

(** [s.max()] and [s.min()] of a float column: not-a-number is skipped, and
    is the result for a column without values. *)
Definition fmax (a b : float) : float := if fle a b then b else a.
Definition fmin (a b : float) : float := if fle a b then a else b.

Definition is_nan (a : float) : bool :=
  match a with
  | nan => true
  | _ => false
  end.

Definition column_max (s : list float) : float :=
  match filter (fun a => negb (is_nan a)) s with
  | [] => nan
  | x :: rest => fold_left fmax rest x
  end.

Definition column_min (s : list float) : float :=
  match filter (fun a => negb (is_nan a)) s with
  | [] => nan
  | x :: rest => fold_left fmin rest x
  end.

(** The dict returned by [get_current_position_stats]. *)
Record position_stats : Type := {
  current_price : float;
  historical_max : float;
  historical_min : float;
  all_time_high : float;
  all_time_low : float;
  percent_from_ath : float;
  percent_from_atl : float;
  current_rank : Z;
  total_records : Z;
  percentile : float
}.

(** [((latest - level) / level) * 100] *)
Definition percent_from (latest level : float) : float :=
  fmul (fdiv (fsub latest level) level) (finite 100).

(** [len(df[df['close'] <= latest_price])] *)
Definition rank_of (latest : float) (closes : list float) : Z :=
  Z.of_nat (List.length (filter (fun c => fle c latest) closes)).

(** [HistoricalDataManager.get_current_position_stats]; [None] is the empty
    dict of an empty frame. *)
Definition get_current_position_stats (m : manager) (current_time : datetime)
    (csv : outcome (list float))
    : outcome (option position_stats) * manager :=
  match load_data m current_time false csv with
  | (Raises, m') => (Raises, m')
  | (Returns df, m') =>
      match rev df with
      | [] => (Returns None, m')
      | latest_price :: _ =>
          let rank := rank_of latest_price df in
          let total := Z.of_nat (List.length df) in
          match true_divide rank total with
          | Raises => (Raises, m')
          | Returns share =>
              (Returns (Some
                 {| current_price := latest_price;
                    historical_max := column_max df;
                    historical_min := column_min df;
                    all_time_high := column_max df;
                    all_time_low := column_min df;
                    percent_from_ath :=
                      percent_from latest_price (column_max df);
                    percent_from_atl :=
                      percent_from latest_price (column_min df);
                    current_rank := rank;
                    total_records := total;
                    percentile := fmul share (finite 100) |}), m')
          end
      end
  end.

(** A manager that has loaded nothing yet. *)
Definition new_manager : manager :=
  {| data_cache := None; last_load_time := None |}.

End PositionStats.

(** ** crypto_historical_analyzer.py: what the incremental update stores *)

Module IncrementalUpdate.

Import Json DatabaseManager HistoricalCollector CryptoHistoricalAnalyzer.




End IncrementalUpdate.

(** ** historical_collector.py: the estimate of the remaining time *)

Module ProgressEstimates.

Import Json HistoricalCollector.

(** [_divide_and_round(a, b)] of [timedelta / int]: the quotient rounded to
    the nearest integer, a half to the even one. *)
Definition divide_and_round (a b : Z) : Z :=
  let q := a / b in
  let r := 2 * (a mod b) in
  let greater_than_half := if 0 <? b then b <? r else r <? b in
  if greater_than_half || ((r =? b) && (q mod 2 =? 1)) then q + 1 else q.

Definition max_timedelta_days : Z := 999999999.

(** [timedelta(microseconds=us)]: an [OverflowError] beyond 999999999 days
    in either direction. *)
Definition make_timedelta (us : Z) : outcome timedelta :=
  let d := us / us_per_day in
  if (d <? - max_timedelta_days) || (max_timedelta_days <? d) then Raises
  else Returns us.

(** [CollectionProgress.estimated_time_remaining], read at time [now] *)
Definition estimated_time_remaining (now : datetime) (p : CollectionProgress)
    : outcome (option timedelta) :=
  if negb (job_status_eqb (status p) InProgress) then Returns None
  else
    match collection_start p with
    | None => Returns None
    | Some started =>
        let elapsed := now - started in
        if collected_days p =? 0 then Returns None
        else
          match make_timedelta (divide_and_round elapsed (collected_days p)) with
          | Raises => Raises
          | Returns avg_time_per_day =>
              let remaining_days := total_days p - collected_days p in
              match make_timedelta (avg_time_per_day * remaining_days) with
              | Raises => Raises
              | Returns remaining => Returns (Some remaining)
              end
          end
    end.

(** A job in progress that has collected 401 of 400 days in 40 s. *)
Definition overshot_job : CollectionProgress :=
  {| coin_id := "bitcoin"; total_days := 400; collected_days := 401;
     start_date := mk_datetime 736330 0 0; end_date := mk_datetime 736730 0 0;
     current_date := mk_datetime 736330 0 0; status := InProgress;
     errors := []; last_error := None;
     collection_start := Some (mk_datetime 736730 0 0);
     collection_end := None |}.

End ProgressEstimates.

(** * Properties *)

(** ** Dates and times *)

Lemma dt_date_minus_day (t : datetime) : dt_date (t - days 1) = dt_date t - 1.
Proof.
  unfold dt_date, days.
  replace (t - 1 * us_per_day) with (t + (-1) * us_per_day) by lia.
  rewrite Z.div_add by (unfold us_per_day, us_per_hour, us_per_minute, us_per_second; lia).
  lia.
Qed.

Lemma dt_date_mk (o h m : Z) :
  0 <= h < 24 -> 0 <= m < 60 -> dt_date (mk_datetime o h m) = o.
Proof.
  intros Hh Hm. unfold dt_date, mk_datetime.
  unfold us_per_day, us_per_hour, us_per_minute, us_per_second.
  symmetry. apply Z.div_unique with (r := h * (60 * (60 * 1000000)) + m * (60 * 1000000)); lia.
Qed.

Lemma dt_hour_mk (o h m : Z) :
  0 <= h < 24 -> 0 <= m < 60 -> dt_hour (mk_datetime o h m) = h.
Proof.
  intros Hh Hm. unfold dt_hour, mk_datetime.
  unfold us_per_day, us_per_hour, us_per_minute, us_per_second.
  replace (o * (24 * (60 * (60 * 1000000))) + h * (60 * (60 * 1000000)) + m * (60 * 1000000))
    with (h * (60 * (60 * 1000000)) + m * (60 * 1000000) + o * (24 * (60 * (60 * 1000000)))) by lia.
  rewrite Z.mod_add by lia.
  rewrite Z.mod_small by lia.
  symmetry. apply Z.div_unique with (r := m * (60 * 1000000)); lia.
Qed.

(** ** The schedule-aware cache *)

Section CacheValidity.

Import Json CacheManager.

Lemma first_reached_none (current_hour : Z) (hours : list Z) :
  (forall h, In h hours -> current_hour < h) ->
  first_reached current_hour hours = None.
Proof.
  induction hours as [|h rest IH]; intros Hall; simpl.
  - reflexivity.
  - destruct (Z.leb_spec h current_hour) as [Hle|Hlt].
    + specialize (Hall h (or_introl eq_refl)). lia.
    + apply IH. intros h' Hin. apply Hall. now right.
Qed.

Lemma last_planned_hour_none (current_hour : Z) (hours : list Z) :
  (forall h, In h hours -> current_hour < h) ->
  last_planned_hour current_hour hours = None.
Proof.
  intros Hall. unfold last_planned_hour. apply first_reached_none.
  intros h Hin. apply Hall. now apply in_rev.
Qed.

(** C1 (what the code does).  At a query time at which no scheduled hour has
    yet passed (every hour of the schedule is still ahead), the validity
    check of [_is_cache_valid] answers [False] for every cache file: the
    same-day test at the head of the function rejects a write of the previous
    day before the "yesterday evening" branch is reached, and a write of the
    query day fails that branch.  So the check is never [True] there, also
    not for an entry written yesterday at or after [max(H)]. *)
Theorem is_cache_valid_false_before_first_slot :
  forall (hours : list Z) (f : cache_file) (now : datetime),
    (forall h, In h hours -> dt_hour now < h) ->
    is_cache_valid hours f now = false.
Proof.
  intros hours f now Hahead.
  destruct f as [| | |cache]; try reflexivity.
  unfold is_cache_valid.
  destruct (last_update cache) as [| | |written|written]; try reflexivity;
    (destruct (Z.eqb_spec (dt_date written) (dt_date now)) as [Hsame|Hother];
       simpl; [|reflexivity];
     destruct (next_update_hour (dt_hour now) hours) as [next|] eqn:Hnext;
     [ rewrite (last_planned_hour_none _ _ Hahead), dt_date_minus_day;
       destruct (Z.eqb_spec (dt_date written) (dt_date now - 1)) as [Hy|Hy];
       [lia|reflexivity]
     | destruct hours as [|h rest]; [reflexivity|];
       simpl in Hnext; specialize (Hahead h (or_introl eq_refl));
       destruct (Z.ltb_spec (dt_hour now) h); [discriminate|lia] ]).
Qed.

(** The failing input of C1: schedule [9; 21], the entry written the day
    before at 21:30 (at or after [max(H) = 21]), the query at 08:00. *)
Lemma is_cache_valid_false_before_first_slot_witness :
  let now := mk_datetime 738955 8 0 in
  let written := mk_datetime 738954 21 30 in
  (dt_date written = dt_date now - 1 /\
   max_hours update_hours = Some 21 /\ 21 <= dt_hour written) /\
  is_cache_valid update_hours
    (Stored {| last_update := LuAt written;
               data := Some [("sp500"%string, JNumber 5100)];
               update_count := None |})
    now = false.
Proof.
  split.
  - vm_compute. repeat split; intro; discriminate.
  - apply (is_cache_valid_false_before_first_slot update_hours).
    intros h [H|[H|[]]]; subst h; vm_compute; reflexivity.
Defined.

(** With the same-day test passed and a slot reached, the check compares
    hours only, as the source does. *)
Lemma is_cache_valid_same_day (hours : list Z) (cache : cache_data)
    (written now : datetime) (next planned : Z) :
  last_update cache = LuAt written ->
  dt_date written = dt_date now ->
  next_update_hour (dt_hour now) hours = Some next ->
  last_planned_hour (dt_hour now) hours = Some planned ->
  is_cache_valid hours (Stored cache) now = (planned <=? dt_hour written).
Proof.
  intros Hlu Hday Hnext Hplanned. unfold is_cache_valid.
  rewrite Hlu, Hday, Z.eqb_refl. simpl. now rewrite Hnext, Hplanned.
Qed.

End CacheValidity.

(** ** Cache reads and collector failure *)

Section CacheReads.

Import Json CacheManager.

(** Whatever its sources did, [collect_all_metrics] comes back with a
    non-empty dict. *)
Lemma collect_all_metrics_truthy (c : DataCollector) (now : datetime) :
  truthy (collect_all_metrics c now) = true.
Proof. reflexivity. Qed.

(** So does [collect_all_crypto_data]: for [get_crypto_data] the collector
    wired in has never failed, and the branches that fall back to the
    last-known payload are not reached with it. *)
Lemma collect_all_crypto_data_never_failed (c : CryptoDataCollector)
    (now : datetime) :
  failed (Returns (collect_all_crypto_data c now)) = false.
Proof. reflexivity. Qed.

(** [get_market_data] never raises. *)
Lemma get_market_data_never_raises (hours : list Z) (force_update : bool)
    (c : DataCollector) (now : datetime) (f : cache_file) :
  fst (get_market_data hours force_update c now f) <> Raises.
Proof.
  unfold get_market_data.
  destruct (negb force_update && is_cache_valid hours f now);
    [destruct (usable (load_cache f))|]; simpl; discriminate.
Qed.

(** A read of the market cache that goes to the collector returns the
    collector's dict and replaces the file with it, whatever the sources
    did. *)
Lemma get_market_data_stores_collector_result (hours : list Z)
    (force_update : bool) (c : DataCollector) (now : datetime)
    (f : cache_file) :
  force_update = true \/ is_cache_valid hours f now = false ->
  get_market_data hours force_update c now f
  = (Returns (collect_all_metrics c now),
     save_cache (collect_all_metrics c now) now).
Proof.
  intros Hbypass. unfold get_market_data.
  destruct Hbypass as [Hforce|Hinvalid].
  - rewrite Hforce. reflexivity.
  - rewrite Hinvalid, andb_false_r. reflexivity.
Qed.

(** The fallback [get_crypto_data] is written for: were its collector to
    raise or to come back empty, a read whose validity check returns would
    answer with the last-known payload if there is one, and with the empty
    dict otherwise, leaving the file alone. *)
Lemma get_crypto_data_degrades (hours : list Z) (force_update : bool)
    (collector : outcome payload) (now : datetime) (f : cache_file) :
  failed collector = true ->
  force_update = true \/ is_crypto_cache_valid hours f now <> Raises ->
  get_crypto_data hours force_update collector now f
  = (Returns (stale_or_empty f), f).
Proof.
  intros Hfailed Hcheck. unfold get_crypto_data, stale_or_empty.
  destruct force_update.
  - destruct (usable (load_cache f)) as [cached|];
      destruct collector as [d|]; simpl in *;
      try (destruct (truthy d); [discriminate|]); reflexivity.
  - destruct Hcheck as [Habs|Hcheck]; [discriminate|].
    destruct (is_crypto_cache_valid hours f now) as [[|]|];
      [| |contradiction];
      destruct (usable (load_cache f)) as [cached|];
      destruct collector as [d|]; simpl in *;
      try (destruct (truthy d); [discriminate|]); reflexivity.
Qed.

(** The validity check of the crypto cache raises on a file that holds a
    JSON value other than an object, on a ['last_update'] that is not a
    string, and on an offset-aware ['last_update'] of the query day. *)
Lemma is_crypto_cache_valid_raises (hours : list Z) (f : cache_file)
    (now : datetime) :
  is_crypto_cache_valid hours f now = Raises <->
  f = NotAnObject \/
  exists cache,
    f = Stored cache /\
    (last_update cache = LuNotString \/
     exists written hour rest,
       last_update cache = LuAware written /\
       dt_date written = dt_date now /\
       hours = hour :: rest /\ 0 <= hour < 24).
Proof.
  unfold is_crypto_cache_valid. split.
  - destruct f as [| | |cache]; try discriminate; [now left|].
    intros Hraise. right. exists cache. split; [reflexivity|].
    destruct (last_update cache) as [| | |written|written];
      try discriminate; [now left| |].
    + destruct (negb (dt_date written =? dt_date now)); discriminate.
    + right.
      destruct (Z.eqb_spec (dt_date written) (dt_date now)) as [Hday|Hday];
        cbn [negb] in Hraise; [|discriminate].
      destruct hours as [|hour rest]; [discriminate|].
      destruct ((0 <=? hour) && (hour <? 24)) eqn:Hh; [|discriminate].
      apply andb_prop in Hh as [H0 H24].
      apply Z.leb_le in H0. apply Z.ltb_lt in H24.
      exists written, hour, rest. repeat split; try reflexivity; assumption.
  - intros [->|(cache & -> & Hlu)]; [reflexivity|].
    destruct Hlu as [->|(written & hour & rest & -> & Hday & -> & H0 & H24)];
      [reflexivity|].
    rewrite Hday, Z.eqb_refl. cbn [negb].
    apply Z.leb_le in H0. apply Z.ltb_lt in H24. now rewrite H0, H24.
Qed.

(** C2 (what the code does).  Every source method of the two collectors
    catches its own exceptions, and [collect_all_metrics] and
    [collect_all_crypto_data] wrap whatever came back in a fresh non-empty
    dict.  So with every source unreachable, a read that goes to the
    collector (it is forced, or the cache is not valid) is not told of the
    failure: [get_market_data] returns a dict whose [sources_available] is 0
    and replaces the cache file with it, and [get_crypto_data] does the same
    with a dict whose [data_sources] are all false, its fallback to the
    last-known payload not being reached; whatever payload the file held is
    neither returned nor kept.  Besides, a read of the crypto cache that is
    not forced raises on a cache file that holds a JSON value other than an
    object: its validity check stands outside the [try] block. *)
Theorem failed_collection_replaces_last_known_payload :
  forall (hours crypto_hours : list Z) (force_update : bool) (now : datetime)
         (f g : cache_file),
    force_update = true \/ is_cache_valid hours f now = false ->
    force_update = true \/ is_crypto_cache_valid crypto_hours g now = Returns false ->
    let fresh := collect_all_metrics sources_down now in
    let fresh_crypto := collect_all_crypto_data crypto_sources_down now in
    (get_market_data hours force_update sources_down now f
     = (Returns fresh, save_cache fresh now) /\
     sources_available fresh = Some (JNumber 0) /\
     load_cache (save_cache fresh now) = Some fresh) /\
    (get_crypto_data_wired crypto_hours force_update crypto_sources_down now g
     = (Returns fresh_crypto, save_crypto_cache fresh_crypto now g) /\
     member "data_sources" fresh_crypto
     = Some (JObject [ ("coingecko"%string, JBool false);
                       ("binance_derivatives"%string, JBool false);
                       ("fear_greed"%string, JBool false) ]) /\
     load_cache (save_crypto_cache fresh_crypto now g) = Some fresh_crypto) /\
    (forall collector,
       get_crypto_data crypto_hours false collector now NotAnObject
       = (Raises, NotAnObject)).
Proof.
  intros hours crypto_hours force_update now f g Hmarket Hcrypto fresh
         fresh_crypto.
  split; [|split].
  - split; [|split; reflexivity].
    now apply get_market_data_stores_collector_result.
  - split; [|split; reflexivity].
    unfold get_crypto_data_wired, get_crypto_data.
    destruct Hcrypto as [->|Hinvalid].
    + reflexivity.
    + destruct force_update; [reflexivity|]. now rewrite Hinvalid.
  - intros collector. reflexivity.
Qed.

(** The failing input of C2: a payload written two days ago is still on
    disk, the read is not forced, every source is unreachable.  Both reads
    return the dict of the failed collection, which is not the payload on
    disk, and the file holds that dict afterwards. *)
Lemma failed_collection_replaces_last_known_payload_witness :
  let now := mk_datetime 738955 10 0 in
  let last_known := [("sp500"%string, JNumber 5100)] in
  let stale := Stored {| last_update := LuAt (mk_datetime 738953 9 5);
                         data := Some last_known;
                         update_count := Some 7 |} in
  let fresh := collect_all_metrics sources_down now in
  let fresh_crypto := collect_all_crypto_data crypto_sources_down now in
  stale_or_empty stale = last_known /\
  get_market_data update_hours false sources_down now stale
  = (Returns fresh, save_cache fresh now) /\
  get_crypto_data_wired crypto_update_hours false crypto_sources_down now stale
  = (Returns fresh_crypto, save_crypto_cache fresh_crypto now stale) /\
  fresh <> last_known /\ fresh_crypto <> last_known.
Proof.
  intros now last_known stale fresh fresh_crypto.
  destruct (failed_collection_replaces_last_known_payload
              update_hours crypto_update_hours false now stale stale)
    as ((Hmarket & _) & (Hcrypto & _) & _).
  - right. vm_compute. reflexivity.
  - right. vm_compute. reflexivity.
  - split; [reflexivity|]. split; [exact Hmarket|]. split; [exact Hcrypto|].
    split; intro Heq; discriminate Heq.
Defined.

End CacheReads.

(** ** The time-series store *)

Section Store.

Import DatabaseManager.

Lemma filter_excluded {A : Type} (f g : A -> bool) (l : list A) :
  (forall x, g x = true -> f x = true) ->
  filter g (filter (fun x => negb (f x)) l) = [].
Proof.
  intros Himp. induction l as [|x l IH]; simpl; [reflexivity|].
  destruct (f x) eqn:Hf; simpl; [exact IH|].
  destruct (g x) eqn:Hg; [|exact IH].
  apply Himp in Hg. congruence.
Qed.

Lemma filter_untouched {A : Type} (f g : A -> bool) (l : list A) :
  (forall x, g x = true -> f x = false) ->
  filter g (filter (fun x => negb (f x)) l) = filter g l.
Proof.
  intros Himp. induction l as [|x l IH]; simpl; [reflexivity|].
  destruct (g x) eqn:Hg.
  - rewrite (Himp x Hg). simpl. rewrite Hg. now f_equal.
  - destruct (f x); simpl; [|rewrite Hg]; exact IH.
Qed.

Lemma same_key_true (coin coin' : string) (d d' : date) (r : price_row) :
  same_key coin d r = true -> same_key coin' d' r = true ->
  (coin', d') = (coin, d).
Proof.
  unfold same_key. intros H H'.
  apply andb_prop in H as [Hc Hd]. apply andb_prop in H' as [Hc' Hd'].
  apply String.eqb_eq in Hc, Hc'. apply Z.eqb_eq in Hd, Hd'. congruence.
Qed.

(** After an [INSERT OR REPLACE] the key holds the new row and nothing else. *)
Lemma rows_at_insert_or_replace (coin : string) (d : date)
    (record : daily_record) (now : datetime) (db : database) :
  rows_at coin d (insert_or_replace coin d record now db)
  = [ {| row_id := daily_prices_seq db + 1; row_coin_id := coin;
         row_date := d; row_values := record; row_created_at := now |} ].
Proof.
  unfold rows_at, insert_or_replace. simpl.
  rewrite filter_app, filter_excluded by auto.
  simpl. unfold same_key at 1. simpl.
  now rewrite String.eqb_refl, Z.eqb_refl.
Qed.

(** The other keys are not affected. *)
Lemma rows_at_insert_or_replace_other (coin coin' : string) (d d' : date)
    (record : daily_record) (now : datetime) (db : database) :
  (coin', d') <> (coin, d) ->
  rows_at coin' d' (insert_or_replace coin d record now db)
  = rows_at coin' d' db.
Proof.
  intros Hother. unfold rows_at, insert_or_replace. simpl.
  rewrite filter_app. simpl.
  destruct (same_key coin' d' _) eqn:Hnew.
  - exfalso. apply Hother. unfold same_key in Hnew. simpl in Hnew.
    apply andb_prop in Hnew as [Hc Hd].
    apply String.eqb_eq in Hc. apply Z.eqb_eq in Hd. congruence.
  - rewrite app_nil_r. apply filter_untouched.
    intros r Hr. destruct (same_key coin d r) eqn:Hk; [|reflexivity].
    exfalso. apply Hother. exact (same_key_true _ _ _ _ _ Hk Hr).
Qed.

Lemma filter_twice {A : Type} (f : A -> bool) (l : list A) :
  filter f (filter f l) = filter f l.
Proof.
  induction l as [|x l IH]; simpl; [reflexivity|].
  destruct (f x) eqn:Hf; simpl; [rewrite Hf; now f_equal|exact IH].
Qed.

(** A second [INSERT OR REPLACE] of the key removes the row of the first
    and appends its own. *)
Lemma insert_or_replace_twice (coin : string) (d : date)
    (first second : daily_record) (t1 t2 : datetime) (db : database) :
  daily_prices (insert_or_replace coin d second t2
                  (insert_or_replace coin d first t1 db))
  = filter (fun r => negb (same_key coin d r)) (daily_prices db)
    ++ [ {| row_id := daily_prices_seq db + 1 + 1; row_coin_id := coin;
            row_date := d; row_values := second; row_created_at := t2 |} ].
Proof.
  unfold insert_or_replace. simpl.
  rewrite filter_app, filter_twice. simpl.
  unfold same_key at 2. simpl.
  rewrite String.eqb_refl, Z.eqb_refl. simpl.
  now rewrite app_nil_r.
Qed.

Lemma save_single_record (coin : string) (d : date) (record : daily_record)
    (now : datetime) (db : database) :
  r_date record = Some d ->
  save_daily_data coin [record] now db
  = (1, insert_or_replace coin d record now db).
Proof. intros Hd. unfold save_daily_data. simpl. now rewrite Hd. Qed.

(** C7.  Two writes of the same [(coin, date)] key through
    [save_daily_data] leave exactly one row under that key; its field values
    are those of the second record, whole (a field the second record lacks is
    NULL, whatever the first one had); each write reports one row; and no
    other key is touched.  Writing the same record twice leaves the table
    with the content it had after the first write (the row only gets a new
    [id] and [created_at]). *)
Theorem save_daily_data_last_writer_wins :
  forall (coin : string) (d : date) (first second : daily_record)
         (t1 t2 : datetime) (db : database),
    r_date first = Some d ->
    r_date second = Some d ->
    let db1 := snd (save_daily_data coin [first] t1 db) in
    let db2 := snd (save_daily_data coin [second] t2 db1) in
    map row_values (rows_at coin d db1) = [first] /\
    map row_values (rows_at coin d db2) = [second] /\
    fst (save_daily_data coin [second] t2 db1) = 1 /\
    (forall coin' d', (coin', d') <> (coin, d) ->
       rows_at coin' d' db2 = rows_at coin' d' db) /\
    (first = second ->
       map stored (daily_prices db2) = map stored (daily_prices db1)).
Proof.
  intros coin d first second t1 t2 db Hfirst Hsecond db1 db2.
  subst db1 db2.
  rewrite (save_single_record coin d first t1 db Hfirst). cbn [fst snd].
  rewrite (save_single_record coin d second t2 _ Hsecond). cbn [fst snd].
  split; [now rewrite rows_at_insert_or_replace|].
  split; [now rewrite rows_at_insert_or_replace|].
  split; [reflexivity|]. split.
  - intros coin' d' Hother.
    now rewrite !rows_at_insert_or_replace_other by exact Hother.
  - intros ->. rewrite insert_or_replace_twice. unfold insert_or_replace.
    cbn [daily_prices]. rewrite !map_app. reflexivity.
Qed.

(** The same holds inside one batch: the later record of a key wins. *)
Lemma save_daily_data_batch_last_wins (coin : string) (d : date)
    (first second : daily_record) (now : datetime) (db : database) :
  r_date first = Some d ->
  r_date second = Some d ->
  map row_values (rows_at coin d (snd (save_daily_data coin [first; second] now db)))
  = [second].
Proof.
  intros Hfirst Hsecond. unfold save_daily_data. simpl.
  rewrite Hfirst, Hsecond. simpl. now rewrite rows_at_insert_or_replace.
Qed.

(** [MAX(date)] over the rows of a coin. *)
Lemma fold_max_date_spec (l : list price_row) (acc : option date) :
  match fold_left max_date l acc with
  | None => l = [] /\ acc = None
  | Some m =>
      (forall r, In r l -> row_date r <= m) /\
      (forall a, acc = Some a -> a <= m) /\
      ((exists r, In r l /\ row_date r = m) \/ acc = Some m)
  end.
Proof.
  revert acc. induction l as [|x l IH]; intros acc; simpl.
  - destruct acc as [a|]; [|now split].
    repeat split; [intros r []|intros b Hb; injection Hb; lia|now right].
  - specialize (IH (max_date acc x)).
    destruct (fold_left max_date l (max_date acc x)) as [m|].
    + destruct IH as (Hall & Hacc & Hwit). repeat split.
      * intros r [<-|Hin]; [|now apply Hall].
        destruct acc as [a|]; simpl in Hacc.
        -- specialize (Hacc _ eq_refl). lia.
        -- exact (Hacc _ eq_refl).
      * intros a ->. simpl in Hacc. specialize (Hacc _ eq_refl). lia.
      * destruct Hwit as [(r & Hin & Hr)|Hm].
        -- left. exists r. split; [now right|exact Hr].
        -- destruct acc as [a|]; simpl in Hm; injection Hm as Hm.
           ++ destruct (Z.max_spec a (row_date x)) as [[_ Heq]|[_ Heq]].
              ** left. exists x. split; [now left|lia].
              ** right. f_equal. lia.
           ++ left. exists x. split; [now left|exact Hm].
    + destruct IH as [_ Habs]. destruct acc; discriminate.
Qed.

(** [get_last_daily_date] is the latest date stored for the coin. *)
Lemma get_last_daily_date_is_latest (coin : string) (db : database) (d : date) :
  get_last_daily_date coin db = Some d ->
  (exists r, In r (rows_of coin db) /\ row_date r = d) /\
  (forall r, In r (rows_of coin db) -> row_date r <= d).
Proof.
  unfold get_last_daily_date. intros Hlast.
  pose proof (fold_max_date_spec (rows_of coin db) None) as Hspec.
  rewrite Hlast in Hspec. destruct Hspec as (Hall & _ & [Hwit|Habs]).
  - split; assumption.
  - discriminate.
Qed.

End Store.

Section StoreExamples.

Import DatabaseManager Scenarios.

(** C7 at a concrete key: the first write carries a market cap, the second
    none; the stored row has the second close and no market cap. *)
Lemma save_daily_data_last_writer_wins_witness :
  let first := sample_record 738886 (42000 # 1) (Some (820000000000 # 1)) in
  let second := sample_record 738886 (42500 # 1) None in
  let db1 := snd (save_daily_data "bitcoin" [first] 10 empty_database) in
  let db2 := snd (save_daily_data "bitcoin" [second] 20 db1) in
  map row_values (rows_at "bitcoin" 738886 db2) = [second] /\
  List.length (daily_prices db2) = 1%nat.
Proof.
  intros first second db1 db2. split.
  - exact (proj1 (proj2 (save_daily_data_last_writer_wins
             "bitcoin" 738886 first second 10 20 empty_database
             eq_refl eq_refl))).
  - reflexivity.
Defined.

End StoreExamples.

(** ** Incremental update of an already-backfilled series *)

Section Incremental.

Import DatabaseManager CryptoHistoricalAnalyzer Scenarios.


(** An analyzer that has a database manager has a provider client. *)
Lemma new_analyzer_has_client (created : option database) (db : database) :
  db_manager (new_analyzer created) = Some db ->
  cg_available (new_analyzer created) = true.
Proof. destruct created; [reflexivity|discriminate]. Qed.

(** An up-to-date series triggers no request at all. *)
Lemma requested_days_up_to_date (a : analyzer) (db : database)
    (today d : date) :
  db_manager a = Some db ->
  get_last_daily_date "ethereum" db = Some d ->
  today - d < 1 ->
  requested_days a today = [].
Proof.
  intros Hdb Hlast Hgap. unfold requested_days. rewrite Hdb, Hlast.
  unfold update_plan. destruct (Z.leb_spec 1 (today - d)); [lia|reflexivity].
Qed.



End Incremental.

(** ** Rounding to the nearest double *)

Section Rounding.

Import Float64.

Lemma two_to_pos (k : Z) : (0 < two_to k)%Q.
Proof. unfold two_to. apply Qpower_0_lt. reflexivity. Qed.

Lemma two_to_plus (a b : Z) : (two_to (a + b) == two_to a * two_to b)%Q.
Proof. unfold two_to. apply Qpower_plus. discriminate. Qed.

Lemma two_to_le (a b : Z) : a <= b -> (two_to a <= two_to b)%Q.
Proof.
  intros H. unfold two_to. apply Qpower_le_compat_l; [exact H|]. discriminate.
Qed.

Lemma two_to_lt (a b : Z) : a < b -> (two_to a < two_to b)%Q.
Proof.
  intros H. unfold two_to. apply Qpower_lt_compat_l; [exact H|]. reflexivity.
Qed.

Lemma two_to_le_inv (a b : Z) : (two_to a <= two_to b)%Q -> a <= b.
Proof.
  intros H. unfold two_to in H.
  eapply Qpower_le_compat_l_inv; [exact H|]. reflexivity.
Qed.

Lemma two_to_lt_inv (a b : Z) : (two_to a < two_to b)%Q -> a < b.
Proof.
  intros H. unfold two_to in H.
  eapply Qpower_lt_compat_l_inv; [exact H|]. reflexivity.
Qed.

Lemma two_to_nonneg (k : Z) : 0 <= k -> (two_to k == inject_Z (2 ^ k))%Q.
Proof. intros H. unfold two_to. symmetry. now apply (Zpower_Qpower 2 k). Qed.

(** An integer between the powers of two around it, in [Q]. *)
Lemma log2_bounds (n : positive) :
  (two_to (Z.log2 (Z.pos n)) <= inject_Z (Z.pos n))%Q /\
  (inject_Z (Z.pos n) < two_to (Z.log2 (Z.pos n) + 1))%Q.
Proof.
  pose proof (Z.log2_nonneg (Z.pos n)) as Hnn.
  destruct (Z.log2_spec (Z.pos n) ltac:(lia)) as [Hlo Hhi].
  rewrite !two_to_nonneg by lia. rewrite <- Zle_Qle, <- Zlt_Qlt.
  split; [exact Hlo|]. now rewrite <- Z.add_1_r in Hhi.
Qed.

Lemma floor_log2_spec (n d : positive) :
  (two_to (floor_log2 n d) <= Z.pos n # d)%Q /\
  (Z.pos n # d < two_to (floor_log2 n d + 1))%Q.
Proof.
  unfold floor_log2.
  destruct (log2_bounds n) as [Hn_lo Hn_hi].
  destruct (log2_bounds d) as [Hd_lo Hd_hi].
  set (ln := Z.log2 (Z.pos n)) in *. set (ld := Z.log2 (Z.pos d)) in *.
  assert (Hd : (0 < inject_Z (Z.pos d))%Q) by (rewrite <- (Zlt_Qlt 0); lia).
  pose proof (Qmake_Qdiv (Z.pos n) d) as Hq.
  set (q := Z.pos n # d) in *.
  destruct (Qle_bool (two_to (ln - ld)) q) eqn:Hcmp.
  - apply Qle_bool_iff in Hcmp. split; [exact Hcmp|].
    rewrite Hq. apply Qlt_shift_div_r; [exact Hd|].
    apply Qlt_le_trans with (two_to (ln - ld + 1) * two_to ld)%Q.
    + rewrite <- two_to_plus. now replace (ln - ld + 1 + ld) with (ln + 1) by lia.
    + apply Qmult_le_l; [apply two_to_pos|exact Hd_lo].
  - assert (Hlt : (q < two_to (ln - ld))%Q).
    { apply Qnot_le_lt. intros Hle. apply Qle_bool_iff in Hle. congruence. }
    split.
    + rewrite Hq. apply Qle_shift_div_l; [exact Hd|].
      apply Qle_trans with (two_to (ln - ld - 1) * two_to (ld + 1))%Q.
      * apply Qmult_le_l; [apply two_to_pos|]. now apply Qlt_le_weak.
      * rewrite <- two_to_plus.
        now replace (ln - ld - 1 + (ld + 1)) with ln by lia.
    + now replace (ln - ld - 1 + 1) with (ln - ld) by lia.
Qed.

Lemma nearest_even_spec (x : Q) :
  (Qabs (inject_Z (nearest_even x) - x) <= 1 # 2)%Q.
Proof.
  unfold nearest_even.
  pose proof (Qfloor_le x) as Hlo. pose proof (Qlt_floor x) as Hhi.
  rewrite inject_Z_plus in Hhi. change (inject_Z 1) with 1%Q in Hhi.
  apply Qabs_Qle_condition.
  destruct (x - inject_Z (Qfloor x) ?= 1 # 2)%Q eqn:Hcmp.
  - apply Qeq_alt in Hcmp.
    destruct (Z.even (Qfloor x)); rewrite ?inject_Z_plus;
      change (inject_Z 1) with 1%Q;
      set (below := inject_Z (Qfloor x)) in *; split; lra.
  - apply Qlt_alt in Hcmp.
    set (below := inject_Z (Qfloor x)) in *. split; lra.
  - apply Qgt_alt in Hcmp. rewrite inject_Z_plus.
    change (inject_Z 1) with 1%Q.
    set (below := inject_Z (Qfloor x)) in *. split; lra.
Qed.

(** The binade of a positive rational. *)
Lemma exponent_spec (x : Q) :
  (0 < x)%Q ->
  exists k,
    exponent x = last_place k /\
    (two_to k <= x)%Q /\ (x < two_to (k + 1))%Q.
Proof.
  intros Hpos. unfold exponent. destruct x as [num den]. cbn [Qnum Qden].
  destruct num as [|n|n];
    [exfalso; revert Hpos; unfold Qlt; cbn; lia| |
     exfalso; revert Hpos; unfold Qlt; cbn; lia].
  exists (floor_log2 n den). split; [reflexivity|]. apply floor_log2_spec.
Qed.

Lemma nearest_error (x : Q) :
  (Qabs (nearest x - x) <= two_to (exponent x - 1))%Q.
Proof.
  unfold nearest. set (e := exponent x).
  pose proof (nearest_even_spec (x / two_to e)) as Hnear.
  set (m := nearest_even (x / two_to e)) in *.
  pose proof (two_to_pos e) as He.
  setoid_replace (inject_Z m * two_to e - x)%Q
    with ((inject_Z m - x / two_to e) * two_to e)%Q
    by (field; intro Hz; rewrite Hz in He; discriminate).
  rewrite Qabs_Qmult, (Qabs_pos (two_to e)) by now apply Qlt_le_weak.
  setoid_replace (two_to (e - 1)) with ((1 # 2) * two_to e)%Q.
  - apply Qmult_le_compat_r; [exact Hnear|now apply Qlt_le_weak].
  - replace e with ((e - 1) + 1) at 2 by lia. rewrite two_to_plus.
    change (two_to 1) with 2%Q. field.
Qed.

(** Within the normal range, rounding moves a positive real by at most
    [2^-53] of itself. *)
Lemma round_positive_error (x : Q) :
  (two_to (-1022) <= x)%Q -> (x < two_to 1023)%Q ->
  exists v,
    round_positive x = finite v /\
    (Qabs (v - x) <= x * two_to (-53))%Q.
Proof.
  intros Hlo Hhi.
  assert (Hpos : (0 < x)%Q)
    by (apply Qlt_le_trans with (two_to (-1022)); [apply two_to_pos|exact Hlo]).
  destruct (exponent_spec x Hpos) as (k & He & Hk_lo & Hk_hi).
  assert (Hk : -1022 <= k <= 1022).
  { split.
    - assert (-1022 < k + 1); [|lia].
      apply two_to_lt_inv. eapply Qle_lt_trans; [exact Hlo|exact Hk_hi].
    - assert (k < 1023); [|lia].
      apply two_to_lt_inv. eapply Qle_lt_trans; [exact Hk_lo|exact Hhi]. }
  pose proof (nearest_error x) as Herr.
  unfold last_place in He. rewrite Z.max_l in He by lia. rewrite He in Herr.
  assert (Hulp : (two_to (k - 52 - 1) <= x * two_to (-53))%Q).
  { replace (k - 52 - 1) with (k + (-53)) by lia.
    rewrite two_to_plus. apply Qmult_le_compat_r; [exact Hk_lo|].
    apply Qlt_le_weak, two_to_pos. }
  unfold round_positive.
  assert (Hfinite : Qle_bool (two_to 1024) (nearest x) = false).
  { destruct (Qle_bool (two_to 1024) (nearest x)) eqn:Hb; [|reflexivity].
    exfalso. apply Qle_bool_iff in Hb.
    apply Qabs_Qle_condition in Herr as [_ Hup].
    assert (Hsmall : (two_to (k - 52 - 1) <= two_to 1023)%Q)
      by (apply two_to_le; lia).
    assert (Hdouble : (two_to 1024 == 2 * two_to 1023)%Q) by reflexivity.
    lra. }
  rewrite Hfinite. eexists. split; [reflexivity|].
  rewrite Qred_correct. eapply Qle_trans; [exact Herr|exact Hulp].
Qed.

Lemma round_zero (x : Q) : (x == 0)%Q -> round x = finite 0.
Proof. intros H. unfold round. apply Qeq_alt in H. now rewrite H. Qed.

(** Within the normal range, rounding moves a real by at most [2^-53] of
    its magnitude. *)
Lemma round_error (x : Q) :
  (two_to (-1022) <= Qabs x)%Q -> (Qabs x < two_to 1023)%Q ->
  exists v,
    round x = finite v /\
    (Qabs (v - x) <= Qabs x * two_to (-53))%Q.
Proof.
  intros Hlo Hhi. pose proof (two_to_pos (-1022)) as Hmin.
  unfold round. destruct (x ?= 0)%Q eqn:Hsign.
  - apply Qeq_alt in Hsign. rewrite Hsign in Hlo. cbn in Hlo. lra.
  - apply Qlt_alt in Hsign.
    assert (Habs : (Qabs x == - x)%Q) by (apply Qabs_neg; lra).
    rewrite Habs in Hlo, Hhi.
    destruct (round_positive_error (- x) Hlo Hhi) as (v & Hv & Herr).
    rewrite Hv. cbn [negate]. eexists. split; [reflexivity|].
    rewrite Qred_correct, Habs.
    setoid_replace (- v - x)%Q with (- (v - - x))%Q by ring.
    now rewrite Qabs_opp.
  - apply Qgt_alt in Hsign.
    assert (Habs : (Qabs x == x)%Q) by (apply Qabs_pos; lra).
    rewrite Habs in Hlo, Hhi.
    destruct (round_positive_error x Hlo Hhi) as (v & Hv & Herr).
    exists v. split; [exact Hv|]. now rewrite Habs.
Qed.

(** The quotient of two integers below [2^1000] in magnitude lies in the
    normal range. *)
Lemma quotient_in_range (a b : Z) :
  a <> 0 -> b <> 0 -> Z.abs a < 2 ^ 1000 -> Z.abs b < 2 ^ 1000 ->
  (two_to (-1000) <= Qabs (inject_Z a / inject_Z b))%Q /\
  (Qabs (inject_Z a / inject_Z b) <= two_to 1000)%Q.
Proof.
  intros Ha Hb Ha' Hb'.
  assert (Heq : (Qabs (inject_Z a / inject_Z b)
                 == inject_Z (Z.abs a) / inject_Z (Z.abs b))%Q).
  { unfold Qdiv. rewrite Qabs_Qmult, Qabs_Qinv. reflexivity. }
  rewrite Heq.
  assert (H1a : (1 <= inject_Z (Z.abs a))%Q) by (rewrite <- (Zle_Qle 1); lia).
  assert (H1b : (1 <= inject_Z (Z.abs b))%Q) by (rewrite <- (Zle_Qle 1); lia).
  assert (Hta : (inject_Z (Z.abs a) <= two_to 1000)%Q).
  { rewrite two_to_nonneg by lia. rewrite <- Zle_Qle. lia. }
  assert (Htb : (inject_Z (Z.abs b) <= two_to 1000)%Q).
  { rewrite two_to_nonneg by lia. rewrite <- Zle_Qle. lia. }
  assert (Hunit : (two_to (-1000) * two_to 1000 == 1)%Q).
  { rewrite <- two_to_plus. reflexivity. }
  pose proof (two_to_pos (-1000)) as Hp. pose proof (two_to_pos 1000) as Hq.
  split.
  - apply Qle_shift_div_l; [lra|].
    apply Qle_trans with (two_to (-1000) * two_to 1000)%Q; [|lra].
    apply Qmult_le_l; assumption.
  - apply Qle_shift_div_r; [lra|].
    apply Qle_trans with (two_to 1000 * 1)%Q; [lra|].
    apply Qmult_le_l; assumption.
Qed.

Lemma nearest_even_le (z z' : Q) :
  (z <= z')%Q -> nearest_even z <= nearest_even z'.
Proof.
  intros Hle. unfold nearest_even.
  pose proof (Qfloor_resp_le z z' Hle) as Hfloor.
  pose proof (Qfloor_le z) as Hz. pose proof (Qlt_floor z) as Hz'.
  pose proof (Qfloor_le z') as Hy. pose proof (Qlt_floor z') as Hy'.
  destruct (Z.eq_dec (Qfloor z) (Qfloor z')) as [Heq|Hne].
  - rewrite <- Heq in *.
    destruct (Qcompare_spec (z - inject_Z (Qfloor z)) (1 # 2)) as [H1|H1|H1];
      destruct (Qcompare_spec (z' - inject_Z (Qfloor z)) (1 # 2)) as [H2|H2|H2];
      try lia; try (destruct (Z.even (Qfloor z)); lia);
      exfalso; set (below := inject_Z (Qfloor z)) in *; lra.
  - assert (Hlt : Qfloor z + 1 <= Qfloor z') by lia.
    destruct (z - inject_Z (Qfloor z) ?= 1 # 2)%Q;
      destruct (z' - inject_Z (Qfloor z') ?= 1 # 2)%Q;
      try destruct (Z.even (Qfloor z)); try destruct (Z.even (Qfloor z'));
      lia.
Qed.

Lemma nearest_even_Z (n : Z) : nearest_even (inject_Z n) = n.
Proof.
  unfold nearest_even. rewrite Qfloor_Z.
  assert (H : (inject_Z n - inject_Z n ?= 1 # 2)%Q = Lt).
  { apply Qlt_alt. setoid_replace (inject_Z n - inject_Z n)%Q with 0%Q by ring.
    reflexivity. }
  now rewrite H.
Qed.

Lemma last_place_mono (k k' : Z) : k <= k' -> last_place k <= last_place k'.
Proof. unfold last_place. lia. Qed.

Lemma scaled_le (x : Q) (n e : Z) :
  (x <= inject_Z n * two_to e)%Q -> (x / two_to e <= inject_Z n)%Q.
Proof. intros H. apply Qle_shift_div_r; [apply two_to_pos|exact H]. Qed.

Lemma scaled_ge (x : Q) (n e : Z) :
  (inject_Z n * two_to e <= x)%Q -> (inject_Z n <= x / two_to e)%Q.
Proof. intros H. apply Qle_shift_div_l; [apply two_to_pos|exact H]. Qed.

(** Rounding a positive real to its grid is monotone. *)
Lemma nearest_mono (x y : Q) :
  (0 < x)%Q -> (x <= y)%Q -> (nearest x <= nearest y)%Q.
Proof.
  intros Hx Hxy.
  assert (Hy : (0 < y)%Q) by lra.
  destruct (exponent_spec x Hx) as (kx & Hex & Hx_lo & Hx_hi).
  destruct (exponent_spec y Hy) as (ky & Hey & Hy_lo & Hy_hi).
  assert (Hk : kx <= ky).
  { assert (kx < ky + 1); [|lia]. apply two_to_lt_inv. lra. }
  pose proof (last_place_mono kx ky Hk) as He.
  unfold nearest. rewrite Hex, Hey.
  set (ex := last_place kx) in *. set (ey := last_place ky) in *.
  pose proof (two_to_pos ex) as Hpx. pose proof (two_to_pos ey) as Hpy.
  destruct (Z.eq_dec ex ey) as [Heq|Hne].
  - rewrite <- Heq. apply Qmult_le_compat_r; [|lra].
    rewrite <- Zle_Qle. apply nearest_even_le.
    apply Qmult_le_compat_r; [exact Hxy|].
    apply Qlt_le_weak, Qinv_lt_0_compat, Hpx.
  - assert (Hlt : ex + 1 <= ey) by lia.
    assert (Hey' : ey = ky - 52) by (unfold ey, ex, last_place in *; lia).
    assert (Hex' : kx + 1 <= ex + 53) by (unfold ex, last_place; lia).
    apply Qle_trans with (two_to (ex + 53)).
    + assert (Hm : nearest_even (x / two_to ex) <= 2 ^ 53).
      { rewrite <- (nearest_even_Z (2 ^ 53)). apply nearest_even_le.
        apply scaled_le. rewrite <- two_to_nonneg by lia.
        rewrite <- two_to_plus. apply Qle_trans with (two_to (kx + 1)); [lra|].
        apply two_to_le. lia. }
      apply Qle_trans with (inject_Z (2 ^ 53) * two_to ex)%Q.
      * apply Qmult_le_compat_r; [now rewrite <- Zle_Qle|lra].
      * rewrite <- two_to_nonneg by lia. rewrite <- two_to_plus.
        apply two_to_le. lia.
    + apply Qle_trans with (two_to ky); [apply two_to_le; lia|].
      assert (Hm : 2 ^ 52 <= nearest_even (y / two_to ey)).
      { rewrite <- (nearest_even_Z (2 ^ 52)) at 1. apply nearest_even_le.
        apply scaled_ge. rewrite <- two_to_nonneg by lia.
        rewrite <- two_to_plus. apply Qle_trans with (two_to ky); [|lra].
        apply two_to_le. lia. }
      apply Qle_trans with (inject_Z (2 ^ 52) * two_to ey)%Q.
      * rewrite <- two_to_nonneg by lia. rewrite <- two_to_plus.
        apply two_to_le. lia.
      * apply Qmult_le_compat_r; [now rewrite <- Zle_Qle|lra].
Qed.

Lemma nearest_nonneg (x : Q) : (0 < x)%Q -> (0 <= nearest x)%Q.
Proof.
  intros Hx. unfold nearest.
  pose proof (two_to_pos (exponent x)) as He.
  apply Qmult_le_0_compat; [|lra].
  rewrite <- (Zle_Qle 0). rewrite <- (nearest_even_Z 0).
  apply nearest_even_le. apply Qle_shift_div_l; [exact He|].
  rewrite Qmult_0_l. lra.
Qed.

Lemma round_positive_mono (x y : Q) :
  (0 < x)%Q -> (x <= y)%Q -> below (round_positive x) (round_positive y).
Proof.
  intros Hx Hxy. pose proof (nearest_mono x y Hx Hxy) as Hmono.
  unfold round_positive.
  destruct (Qle_bool (two_to 1024) (nearest y)) eqn:Hy.
  - destruct (Qle_bool (two_to 1024) (nearest x)); exact I.
  - destruct (Qle_bool (two_to 1024) (nearest x)) eqn:Hx'.
    + apply Qle_bool_iff in Hx'.
      assert (Habs : Qle_bool (two_to 1024) (nearest y) = true)
        by (apply Qle_bool_iff; lra).
      congruence.
    + cbn [below]. now rewrite !Qred_correct.
Qed.

Lemma round_positive_sign (x : Q) :
  (0 < x)%Q -> below (finite 0) (round_positive x).
Proof.
  intros Hx. unfold round_positive.
  destruct (Qle_bool (two_to 1024) (nearest x)); [exact I|].
  cbn [below]. rewrite Qred_correct. now apply nearest_nonneg.
Qed.

Lemma below_negate (a b : float) : below a b -> below (negate b) (negate a).
Proof.
  destruct a as [|[|]|u], b as [|[|]|v]; cbn [below negate negb]; try tauto.
  intros H. rewrite !Qred_correct. lra.
Qed.

Lemma below_trans (a b c : float) : below a b -> below b c -> below a c.
Proof.
  destruct a as [|[|]|u], b as [|[|]|v], c as [|[|]|w]; cbn [below];
    try tauto.
  intros; lra.
Qed.

(** Rounding is monotone. *)
Lemma round_mono (x y : Q) : (x <= y)%Q -> below (round x) (round y).
Proof.
  intros Hxy. unfold round.
  destruct (Qcompare_spec x 0) as [Hx|Hx|Hx];
    destruct (Qcompare_spec y 0) as [Hy|Hy|Hy]; try (exfalso; lra).
  - cbn [below]. lra.
  - apply round_positive_sign. exact Hy.
  - apply (below_negate (finite 0) (round_positive (- x))).
    apply round_positive_sign. lra.
  - apply below_negate. apply round_positive_mono; lra.
  - eapply below_trans.
    + apply (below_negate (finite 0) (round_positive (- x))).
      apply round_positive_sign. lra.
    + apply round_positive_sign. exact Hy.
  - apply round_positive_mono; assumption.
Qed.

Lemma round_between (a x b : Q) :
  is_double a -> is_double b -> (a <= x)%Q -> (x <= b)%Q ->
  exists v, round x = finite v /\ (a <= v)%Q /\ (v <= b)%Q.
Proof.
  intros Ha Hb Hax Hxb.
  pose proof (round_mono a x Hax) as Hlo.
  pose proof (round_mono x b Hxb) as Hhi.
  rewrite Ha in Hlo. rewrite Hb in Hhi.
  destruct (round x) as [|[|]|v]; cbn [below] in Hlo, Hhi; try contradiction.
  rewrite Qred_correct in Hlo, Hhi. now exists v.
Qed.

Lemma round_above (a x : Q) :
  is_double a -> (a <= x)%Q ->
  (exists v, round x = finite v /\ (a <= v)%Q) \/ round x = infinity false.
Proof.
  intros Ha Hax. pose proof (round_mono a x Hax) as Hlo. rewrite Ha in Hlo.
  destruct (round x) as [|[|]|v]; cbn [below] in Hlo; try contradiction.
  - now right.
  - left. rewrite Qred_correct in Hlo. now exists v.
Qed.

Lemma is_double_opp (q : Q) : is_double q -> is_double (- q).
Proof.
  unfold is_double, round. intros H.
  assert (Hc : (- q ?= 0)%Q = CompOpp (q ?= 0)%Q).
  { destruct q as [n d]. unfold Qcompare. cbn. destruct n; reflexivity. }
  assert (Hq : (- - q)%Q = q).
  { destruct q as [n d]. unfold Qopp. cbn. now rewrite Z.opp_involutive. }
  rewrite Hc, Hq.
  destruct (q ?= 0)%Q eqn:Hs; cbn [CompOpp].
  - apply Qeq_alt in Hs. f_equal. symmetry.
    apply (Qred_complete (- q) 0). rewrite Hs. reflexivity.
  - unfold round_positive in *. set (v := nearest (- q)) in *.
    destruct (Qle_bool (two_to 1024) v); [discriminate|].
    change (finite (Qred (- Qred v)) = finite (Qred q)) in H.
    assert (H' : Qred (- Qred v) = Qred q) by congruence.
    f_equal. apply Qred_complete. apply Qred_eq_iff in H'.
    rewrite Qred_correct in H'. rewrite <- H'. ring.
  - rewrite H. cbn [negate]. f_equal. apply Qred_complete.
    now rewrite Qred_correct.
Qed.

Lemma nearest_even_comp (x y : Q) :
  (x == y)%Q -> nearest_even x = nearest_even y.
Proof.
  intros H.
  assert (nearest_even x <= nearest_even y)
    by (apply nearest_even_le; rewrite H; apply Qle_refl).
  assert (nearest_even y <= nearest_even x)
    by (apply nearest_even_le; rewrite H; apply Qle_refl).
  lia.
Qed.

(** The integers below [2^53] are doubles. *)
Lemma is_double_int (n : Z) : 0 <= n < 2 ^ 53 -> is_double (inject_Z n).
Proof.
  intros [H0 H53]. unfold is_double.
  destruct n as [|m|m]; [reflexivity| |lia].
  unfold round. change (inject_Z (Z.pos m) ?= 0)%Q with Gt.
  unfold round_positive.
  assert (Hn : (nearest (inject_Z (Z.pos m)) == inject_Z (Z.pos m))%Q).
  { unfold nearest, exponent. cbn [Qnum Qden inject_Z].
    destruct (floor_log2_spec m 1) as [Hlo Hhi].
    set (k := floor_log2 m 1) in *.
    assert (Hk53 : k < 53).
    { apply two_to_lt_inv. apply Qle_lt_trans with (Z.pos m # 1); [exact Hlo|].
      rewrite (two_to_nonneg 53) by lia.
      change (Z.pos m # 1) with (inject_Z (Z.pos m)).
      rewrite <- Zlt_Qlt. exact H53. }
    assert (Hk0 : 0 <= k).
    { assert (0 < k + 1); [|lia]. apply two_to_lt_inv.
      apply Qle_lt_trans with (Z.pos m # 1); [|exact Hhi].
      change (two_to 0) with 1%Q. change (Z.pos m # 1) with (inject_Z (Z.pos m)).
      change 1%Q with (inject_Z 1). rewrite <- Zle_Qle. lia. }
    unfold last_place. rewrite Z.max_l by lia.
    assert (Hscale : (two_to (k - 52) * inject_Z (2 ^ (52 - k)) == 1)%Q).
    { rewrite <- (two_to_nonneg (52 - k)) by lia.
      rewrite <- two_to_plus. replace (k - 52 + (52 - k)) with 0 by lia.
      reflexivity. }
    pose proof (two_to_pos (k - 52)) as Hpos.
    assert (Hq : (inject_Z (Z.pos m) / two_to (k - 52)
                  == inject_Z (Z.pos m * 2 ^ (52 - k)))%Q).
    { rewrite inject_Z_mult.
      field_simplify_eq; [|lra].
      rewrite <- Qmult_assoc, (Qmult_comm (inject_Z _)), Hscale. ring. }
    rewrite (nearest_even_comp _ _ Hq), nearest_even_Z.
    rewrite inject_Z_mult.
    rewrite <- Qmult_assoc, (Qmult_comm (inject_Z (2 ^ _))), Hscale. ring. }
  assert (Hsmall : Qle_bool (two_to 1024) (nearest (inject_Z (Z.pos m))) = false).
  { destruct (Qle_bool _ _) eqn:E; [|reflexivity]. exfalso.
    apply Qle_bool_iff in E. rewrite Hn in E.
    rewrite (two_to_nonneg 1024) in E by lia. rewrite <- Zle_Qle in E.
    assert (2 ^ 53 < 2 ^ 1024) by (apply Z.pow_lt_mono_r; lia). lia. }
  rewrite Hsmall. f_equal. apply Qred_complete. exact Hn.
Qed.

End Rounding.

(** ** Progress of a collection job *)

Section Progress.

Import Json Float64 HistoricalCollector.

(** The percentage of the counters [c] and [t], below [2^1000] in
    magnitude: the quotient and the product are each rounded once. *)
Lemma percentage_rounded (c t : Z) :
  t <> 0 -> Z.abs c < 2 ^ 1000 -> Z.abs t < 2 ^ 1000 ->
  let exact := (inject_Z c / inject_Z t * 100)%Q in
  exists v,
    match true_divide c t with
    | Raises => Raises
    | Returns quotient => Returns (fmul quotient (finite 100))
    end = Returns (finite v) /\
    (Qabs (v - exact) <= Qabs exact * (two_to (-52) + two_to (-106)))%Q.
Proof.
  intros Ht Hc' Ht' exact. unfold true_divide.
  destruct (Z.eqb_spec t 0) as [|_]; [contradiction|].
  destruct (Z.eq_dec c 0) as [->|Hc].
  - assert (Hzero : (inject_Z 0 / inject_Z t == 0)%Q)
      by (unfold Qdiv; apply Qmult_0_l).
    rewrite (round_zero _ Hzero). cbn [fmul].
    rewrite (round_zero (0 * 100)) by reflexivity.
    exists 0%Q. split; [reflexivity|].
    subst exact. rewrite Hzero. cbn. discriminate.
  - destruct (quotient_in_range c t Hc Ht Hc' Ht') as [Hlo Hhi].
    set (x := (inject_Z c / inject_Z t)%Q) in *.
    assert (Hlo' : (two_to (-1022) <= Qabs x)%Q).
    { eapply Qle_trans; [|exact Hlo]. apply two_to_le. lia. }
    assert (Hhi' : (Qabs x < two_to 1023)%Q).
    { eapply Qle_lt_trans; [exact Hhi|]. apply two_to_lt. lia. }
    destruct (round_error x Hlo' Hhi') as (y & Hy & Hey).
    rewrite Hy. cbn [fmul].
    change (two_to (-53)) with (1 # 9007199254740992)%Q in Hey.
    pose proof (two_to_pos (-1000)) as Hp.
    assert (Hy_lo : (Qabs x * (9007199254740991 # 9007199254740992) <= Qabs y)%Q).
    { pose proof (Qabs_triangle_reverse x (x - y)) as Hrev.
      setoid_replace (x - (x - y))%Q with y in Hrev by ring.
      setoid_replace (x - y)%Q with (- (y - x))%Q in Hrev by ring.
      rewrite Qabs_opp in Hrev. lra. }
    assert (Hy_hi : (Qabs y <= Qabs x * (9007199254740993 # 9007199254740992))%Q).
    { pose proof (Qabs_triangle x (y - x)) as Htri.
      setoid_replace (x + (y - x))%Q with y in Htri by ring. lra. }
    assert (Hprod : (Qabs (y * 100) == 100 * Qabs y)%Q).
    { rewrite Qabs_Qmult. change (Qabs 100) with 100%Q. ring. }
    assert (Hlo2 : (two_to (-1022) <= Qabs (y * 100))%Q).
    { rewrite Hprod. apply Qle_trans with (two_to (-1000)).
      - apply two_to_le. lia.
      - lra. }
    assert (Hhi2 : (Qabs (y * 100) < two_to 1023)%Q).
    { rewrite Hprod. apply Qle_lt_trans with (128 * two_to 1000)%Q; [lra|].
      change 128%Q with (two_to 7). rewrite <- two_to_plus.
      apply two_to_lt. lia. }
    destruct (round_error (y * 100) Hlo2 Hhi2) as (v & Hv & Hev).
    exists v. split; [now rewrite Hv|].
    change (two_to (-53)) with (1 # 9007199254740992)%Q in Hev.
    change (two_to (-52) + two_to (-106))%Q
      with ((1 # 4503599627370496)
            + (1 # 81129638414606681695789005144064))%Q.
    assert (Hexact : (Qabs exact == 100 * Qabs x)%Q).
    { subst exact. rewrite Qabs_Qmult. change (Qabs 100) with 100%Q. ring. }
    rewrite Hexact. rewrite Hprod in Hev.
    pose proof (Qabs_triangle (v - y * 100) (y * 100 - exact)) as Htri.
    setoid_replace (v - y * 100 + (y * 100 - exact))%Q with (v - exact)%Q
      in Htri by ring.
    assert (Hscaled : (Qabs (y * 100 - exact) == 100 * Qabs (y - x))%Q).
    { subst exact. setoid_replace (y * 100 - x * 100)%Q with ((y - x) * 100)%Q by ring.
      rewrite Qabs_Qmult. change (Qabs 100) with 100%Q. ring. }
    rewrite Hscaled in Htri.
    set (X := Qabs x) in *. set (Y := Qabs y) in *.
    set (E1 := Qabs (y - x)) in *. set (E2 := Qabs (v - y * 100)) in *.
    set (E := Qabs (v - exact)) in *.
    lra.
Qed.

(** C8 (amended).  [progress_percentage] is 0.0, with no division, when
    [total_days] is zero.  When [total_days] is not zero and both counters
    are below [2^1000] in magnitude, it returns a float and does not raise;
    the float is [collected_days / total_days * 100] up to the two roundings
    of the double arithmetic: it differs from the exact value by at most
    [2^-52 + 2^-106] of it. *)
Theorem progress_percentage_rounded :
  forall p : CollectionProgress,
    (total_days p = 0 -> progress_percentage p = Returns (finite 0)) /\
    (total_days p <> 0 ->
     Z.abs (collected_days p) < 2 ^ 1000 ->
     Z.abs (total_days p) < 2 ^ 1000 ->
     let exact :=
       (inject_Z (collected_days p) / inject_Z (total_days p) * 100)%Q in
     exists v,
       progress_percentage p = Returns (finite v) /\
       (Qabs (v - exact) <= Qabs exact * (two_to (-52) + two_to (-106)))%Q).
Proof.
  intros p. unfold progress_percentage. split.
  - intros Hz. now rewrite Hz.
  - intros Hnz Hc Ht.
    destruct (Z.eqb_spec (total_days p) 0) as [Hz|_]; [contradiction|].
    now apply percentage_rounded.
Qed.

End Progress.

Section ProgressExamples.

Import Json Float64 HistoricalCollector Scenarios.

(** C8 on a job of 3 days with 1 collected: the float is
    33.33333333333333, within the bound of 100/3; and on a job without
    days, 0.0. *)
Lemma progress_percentage_rounded_witness :
  (exists v,
     progress_percentage (job_with 1 3) = Returns (finite v) /\
     (v == 2345624805922133 # 70368744177664)%Q /\
     (Qabs (v - (100 # 3)) <= (100 # 3) * (two_to (-52) + two_to (-106)))%Q) /\
  progress_percentage (job_with 7 0) = Returns (finite 0).
Proof.
  split.
  - destruct (proj2 (progress_percentage_rounded (job_with 1 3)))
      as (v & Hv & Hbound).
    + cbn. discriminate.
    + vm_compute. reflexivity.
    + vm_compute. reflexivity.
    + exists v. split; [exact Hv|].
      vm_compute in Hv. injection Hv as <-. split; [reflexivity|].
      vm_compute. discriminate.
  - apply (proj1 (progress_percentage_rounded (job_with 7 0))). reflexivity.
Defined.

(** The counterexample to C8 as it stands: with 11 of 10 days collected the
    code returns 110.00000000000001, which is not [11 / 10 * 100]; and with
    counters beyond the range of a float the division raises
    [OverflowError]. *)
Theorem progress_percentage_counterexample :
  (exists v,
     progress_percentage (job_with 11 10) = Returns (finite v) /\
     (v == 110 + two_to (-46))%Q /\
     ~ (v == inject_Z 11 / inject_Z 10 * 100)%Q) /\
  progress_percentage (job_with (2 ^ 1100) 1) = Raises.
Proof.
  split.
  - eexists. split; [vm_compute; reflexivity|].
    split; [reflexivity|]. vm_compute. discriminate.
  - vm_compute. reflexivity.
Qed.

End ProgressExamples.


(** ** The completion threshold *)

Section Threshold.

Import Json Float64 HistoricalCollector.

(** The threshold test, in integers. *)
Lemma reached_threshold_iff (p : CollectionProgress) :
  reached_threshold p = true <-> 95 * total_days p <= 100 * collected_days p.
Proof.
  unfold reached_threshold. rewrite Qle_bool_iff.
  unfold Qle, Qmult, inject_Z. cbn [Qnum Qden].
  change (Z.pos (1 * 100)) with 100. lia.
Qed.

(** The same test, as the source writes it: [collected >= total * 0.95]. *)
Lemma reached_threshold_rational (p : CollectionProgress) :
  reached_threshold p = true
  <-> (inject_Z (total_days p) * (95 # 100) <= inject_Z (collected_days p))%Q.
Proof. unfold reached_threshold. apply Qle_bool_iff. Qed.

(** The literal [0.95] is this double, a little below 95/100. *)
Lemma ninety_five_percent :
  round (95 # 100) = finite (4278419646001971 # 4503599627370496).
Proof. vm_compute. reflexivity. Qed.

Lemma two_to_minus_53 : (two_to (-53) == 1 # 9007199254740992)%Q.
Proof. reflexivity. Qed.

(** For a job of fewer than [2^40] days the float product decides as the
    exact one: [total_days * 0.95] is rounded twice, and lands within 1/20
    of the exact [19 * total_days / 20], on its side of every integer. *)
Lemma threshold_as_computed_exact (p : CollectionProgress) :
  0 <= total_days p < 2 ^ 40 ->
  threshold_as_computed p = Returns (reached_threshold p).
Proof.
  intros [H0 H40]. unfold threshold_as_computed, of_int.
  assert (H53 : 2 ^ 40 < 2 ^ 53) by (apply Z.pow_lt_mono_r; lia).
  rewrite (is_double_int (total_days p)) by lia.
  f_equal. unfold int_ge. rewrite ninety_five_percent. cbn [fmul].
  set (t := total_days p) in *. set (c := collected_days p).
  set (d := (4278419646001971 # 4503599627370496)%Q).
  set (x := (Qred (inject_Z t) * d)%Q).
  assert (Hx : (x == inject_Z t * d)%Q) by (unfold x; now rewrite Qred_correct).
  pose proof (reached_threshold_iff p) as Hiff. fold t c in Hiff.
  destruct (Z.eq_dec t 0) as [Hz|Hnz].
  - rewrite round_zero by (rewrite Hx, Hz; reflexivity).
    cbn [fle]. unfold reached_threshold. fold t c. rewrite Hz.
    apply eq_true_iff_eq. rewrite !Qle_bool_iff.
    change (inject_Z 0) with 0%Q. split; intros Hle; lra.
  - assert (Ht1 : (1 <= inject_Z t)%Q)
      by (change 1%Q with (inject_Z 1); rewrite <- Zle_Qle; lia).
    assert (Ht40 : (inject_Z t < 1099511627776)%Q)
      by (change 1099511627776%Q with (inject_Z (2 ^ 40));
          rewrite <- Zlt_Qlt; lia).
    assert (Hxpos : (0 < x)%Q) by (unfold d in Hx; lra).
    assert (Habs : (Qabs x == x)%Q) by (apply Qabs_pos; lra).
    destruct (round_error x) as (v & Hround & Hv).
    { rewrite Habs. apply Qle_trans with (1 # 2)%Q.
      - apply Qle_trans with (two_to (-1)); [apply two_to_le; lia|].
        apply Qle_refl.
      - unfold d in Hx. lra. }
    { rewrite Habs. apply Qlt_le_trans with (two_to 40).
      - rewrite (two_to_nonneg 40) by lia.
        change (inject_Z (2 ^ 40)) with 1099511627776%Q. unfold d in Hx. lra.
      - apply two_to_le. lia. }
    rewrite Habs, two_to_minus_53 in Hv.
    apply Qabs_Qle_condition in Hv. destruct Hv as [Hv1 Hv2].
    rewrite Hround. cbn [fle].
    assert (Hexact : (19 * t) mod 20 = 0 ->
                     (v <= inject_Z (19 * t / 20))%Q).
    { intros Hdiv.
      assert (Heq : 19 * t = 20 * (19 * t / 20))
        by (apply Z.div_exact; lia).
      pose proof (round_mono x (inject_Z (19 * t / 20))) as Hm.
      rewrite Hround in Hm.
      rewrite (is_double_int (19 * t / 20)) in Hm by lia.
      cbn [below] in Hm. rewrite Qred_correct in Hm. apply Hm.
      assert (Hq : (inject_Z (19 * t) == inject_Z (20 * (19 * t / 20)))%Q)
        by now rewrite <- Heq.
      rewrite !inject_Z_mult in Hq.
      change (inject_Z 19) with 19%Q in Hq. change (inject_Z 20) with 20%Q in Hq.
      set (n := inject_Z (19 * t / 20)) in *. unfold d in Hx. lra. }
    apply eq_true_iff_eq. rewrite Hiff, Qle_bool_iff.
    split.
    + intros Hle.
      destruct (Z_le_gt_dec (95 * t) (100 * c)) as [Hok|Hgt]; [exact Hok|].
      exfalso.
      assert (Hz : 20 * c + 1 <= 19 * t) by lia.
      rewrite Zle_Qle in Hz.
      rewrite inject_Z_plus, !inject_Z_mult in Hz.
      change (inject_Z 19) with 19%Q in Hz. change (inject_Z 20) with 20%Q in Hz.
      change (inject_Z 1) with 1%Q in Hz.
      unfold d in Hx. lra.
    + intros Hle.
      destruct (Z.eq_dec ((19 * t) mod 20) 0) as [Hdiv|Hrem].
      * apply Qle_trans with (inject_Z (19 * t / 20)); [now apply Hexact|].
        rewrite <- Zle_Qle.
        assert (Heq : 19 * t = 20 * (19 * t / 20))
          by (apply Z.div_exact; lia).
        lia.
      * assert (Hz : 19 * t + 1 <= 20 * c).
        { assert (19 * t <> 20 * c); [|lia].
          intros Heq. apply Hrem. rewrite Heq.
          rewrite Z.mul_comm. apply Z.mod_mul. lia. }
        rewrite Zle_Qle in Hz.
        rewrite inject_Z_plus, !inject_Z_mult in Hz.
        change (inject_Z 19) with 19%Q in Hz.
        change (inject_Z 20) with 20%Q in Hz.
        change (inject_Z 1) with 1%Q in Hz.
        unfold d in Hx. lra.
Qed.

End Threshold.

(** ** The historical collector *)

Section Collection.

Import Json DatabaseManager HistoricalCollector Observations.

Lemma lookup_store_same (k : string) (v : CollectionProgress)
    (d : list (string * CollectionProgress)) :
  lookup k (store k v d) = Some v.
Proof.
  induction d as [|[k' v'] d IH]; simpl.
  - now rewrite String.eqb_refl.
  - destruct (String.eqb k' k) eqn:E; simpl.
    + now rewrite String.eqb_refl.
    + now rewrite E.
Qed.

Lemma lookup_store_other (k k' : string) (v : CollectionProgress)
    (d : list (string * CollectionProgress)) :
  k' <> k -> lookup k' (store k v d) = lookup k' d.
Proof.
  intros Hne. induction d as [|[k0 v0] d IH]; simpl.
  - destruct (String.eqb_spec k k'); [congruence|reflexivity].
  - destruct (String.eqb_spec k0 k) as [->|Hk0]; simpl.
    + destruct (String.eqb_spec k k'); [congruence|reflexivity].
    + destruct (String.eqb_spec k0 k'); [reflexivity|exact IH].
Qed.

Lemma chart_requests_app (h1 h2 : list event) :
  chart_requests (h1 ++ h2) = chart_requests h1 ++ chart_requests h2.
Proof.
  induction h1 as [|e h1 IH]; simpl; [reflexivity|].
  destruct e as [us|coin [days|]]; simpl; rewrite ?IH; reflexivity.
Qed.


(** Symbolic execution of the monadic code. *)
Ltac run :=
  unfold collect_page, make_api_request, store_metadata, finish_collection,
    the_progress, update_progress, save_progress, sleep, modify, get, ret,
    raise, bind; cbn.

Variable api : nat -> reply.


(** A page whose request is answered with data. *)
Lemma collect_page_with_data (coin : string) (start : datetime)
    (needed n tc : Z) (w : collector) (p : CollectionProgress)
    (prices : list point) (market_caps volumes : field (list point))
    (daily_data : list daily_record) :
  lookup coin (progress w) = Some p ->
  api (calls w) = Answer (MarketChart (Has prices) market_caps volumes) ->
  process_market_chart_data prices market_caps volumes start = daily_data ->
  daily_data <> [] ->
  exists w',
    collect_page api coin start needed n tc w
    = (Returns (tc + fst (save_daily_data coin daily_data (clock w + 100000) (db w))), w') /\
    lookup coin (progress w')
    = Some (add_collected_days (Z.of_nat (List.length daily_data)) p) /\
    stats w' = count_success (count_request (stats w)) /\
    calls w' = S (calls w) /\
    events w'
    = events w ++ [Slept 100000;
                   Requested coin (market_chart (Z.min 365 (needed - tc)));
                   Slept 2000000] /\
    db w' = snd (save_daily_data coin daily_data (clock w + 100000) (db w)) /\
    progress_file w' = progress w'.
Proof.
  intros Hp Hapi Hdata Hne.
  destruct daily_data as [|r rest]; [contradiction|].
  eexists. split.
  - run. rewrite Hapi. cbn. rewrite Hdata.
    run. rewrite Hp. cbn. reflexivity.
  - cbn. rewrite lookup_store_same. repeat split.
    now rewrite <- !app_assoc.
Qed.


Lemma bind_returns {A B : Type} (m : M A) (k : A -> M B) (w w' : collector)
    (a : A) :
  m w = (Returns a, w') -> bind m k w = k a w'.
Proof. intros H. unfold bind. now rewrite H. Qed.

Lemma bind_raises {A B : Type} (m : M A) (k : A -> M B) (w w' : collector) :
  m w = (Raises, w') -> bind m k w = (Raises, w').
Proof. intros H. unfold bind. now rewrite H. Qed.

Lemma bind_assoc {A B C : Type} (m : M A) (f : A -> M B) (g : B -> M C)
    (w : collector) :
  bind (bind m f) g w = bind m (fun x => bind (f x) g) w.
Proof.
  unfold bind. destruct (m w) as [[a|] w1]; [|reflexivity].
  destruct (f a w1) as [[b|] w2]; reflexivity.
Qed.

Lemma bind_ret {A B : Type} (a : A) (k : A -> M B) (w : collector) :
  bind (ret a) k w = k a w.
Proof. reflexivity. Qed.

Lemma the_progress_returns (coin : string) (w : collector)
    (p : CollectionProgress) :
  lookup coin (progress w) = Some p -> the_progress coin w = (Returns p, w).
Proof. intros H. unfold the_progress, bind, get. now rewrite H. Qed.


(** The terminal check, in full. *)
Lemma finish_collection_spec (coin : string) (total_collected : Z)
    (w : collector) (p : CollectionProgress) :
  lookup coin (progress w) = Some p ->
  exists w',
    finish_collection coin total_collected w
    = (if reached_threshold p then
         match collection_start p with
         | Some _ => Returns true
         | None => Raises
         end
       else Returns false, w') /\
    lookup coin (progress w')
    = Some (if reached_threshold p
            then set_collection_end (clock w) (set_status Completed p)
            else set_last_error
                   (CollectedOnly (collected_days p) (total_days p))
                   (set_status Error p)) /\
    progress_file w' = progress w' /\
    stats w' = stats w /\
    calls w' = calls w /\
    events w' = events w /\
    daily_prices (db w') = daily_prices (db w).
Proof.
  intros Hp. unfold finish_collection.
  rewrite (bind_returns _ _ _ _ _ (the_progress_returns _ _ _ Hp)).
  destruct (reached_threshold p).
  - destruct (collection_start p) as [started|]; eexists; split;
      try (run; rewrite Hp; cbn; rewrite lookup_store_same; reflexivity);
      cbn; rewrite lookup_store_same; repeat split.
  - eexists. split.
    + run. rewrite Hp. cbn. rewrite lookup_store_same. reflexivity.
    + cbn. rewrite lookup_store_same. repeat split.
Qed.


Lemma not_completed (p : CollectionProgress) :
  status p <> Completed -> job_status_eqb (status p) Completed = false.
Proof. destruct (status p); simpl; congruence. Qed.

(** The head of [collect_data] for a job that is registered and not yet
    completed: what remains is the metadata request, the pages and the
    terminal check. *)
Lemma collect_data_registered (coin : string) (c : coin_constants)
    (w : collector) (p : CollectionProgress) :
  lookup coin (progress w) = Some p ->
  status p <> Completed ->
  collect_data api coin c w
  = bind (bind (make_api_request api coin coin_info) (store_metadata coin c))
      (fun _ =>
         bind (page_loop api coin (start_date p)
                 (td_days (end_date p - start_date p))
                 (Z.to_nat ((td_days (end_date p - start_date p)
                             + max_days_per_request - 1)
                            / max_days_per_request)) 0 0)
              (finish_collection coin)) w.
Proof.
  intros Hp Hstatus. unfold collect_data.
  unfold bind at 1. unfold get at 1. rewrite Hp.
  unfold bind at 1. unfold ret at 1.
  rewrite (bind_returns _ _ _ _ _ (the_progress_returns _ _ _ Hp)).
  rewrite (not_completed _ Hstatus).
  unfold bind. destruct (make_api_request api coin coin_info w) as [[info|] w1];
    [|reflexivity].
  destruct (store_metadata coin c info w1) as [[[]|] w2]; reflexivity.
Qed.


End Collection.

(** ** Runs of the collector *)

Section Runs.

Import Json DatabaseManager HistoricalCollector Observations Scenarios.

(** C10.  When the progress registered for the coin is already
    [completed], either entry point returns [True] and the collector is, as
    a whole, what it was: the progress dict and the progress file, the API
    counters, the database, the clock and the history of sleeps and provider
    calls are all unchanged. *)
Theorem completed_job_is_left_alone :
  forall (api : nat -> reply) (coin : string) (c : coin_constants)
         (w : collector) (p : CollectionProgress),
    lookup coin (progress w) = Some p ->
    status p = Completed ->
    collect_data api coin c w = (Returns true, w) /\
    (coin = "bitcoin"%string -> collect_bitcoin_data api w = (Returns true, w)) /\
    (coin = "ethereum"%string -> collect_ethereum_data api w = (Returns true, w)).
Proof.
  intros api coin c w p Hp Hstatus.
  assert (Hrun : forall c', collect_data api coin c' w = (Returns true, w)).
  { intros c'. unfold collect_data.
    unfold bind at 1. unfold get at 1. rewrite Hp.
    rewrite bind_ret.
    rewrite (bind_returns _ _ _ _ _ (the_progress_returns _ _ _ Hp)).
    rewrite Hstatus. reflexivity. }
  split; [apply Hrun|]. split; intros ->; apply Hrun.
Qed.

(** C10 on a collector whose bitcoin job is completed: the entry point
    changes nothing, whatever the provider would answer. *)
Lemma completed_job_is_left_alone_witness :
  collect_bitcoin_data api_rate_limited finished_collector
  = (Returns true, finished_collector).
Proof.
  exact (proj1 (proj2 (completed_job_is_left_alone api_rate_limited "bitcoin"
                         bitcoin_constants finished_collector finished_job
                         eq_refl eq_refl)) eq_refl).
Defined.

(** C4 (the failing run).  A bitcoin job registered by
    [initialize_collection] alone is [pending] with no [collection_start].
    [collect_bitcoin_data] then fetches its single page (11 records for 10
    days), passes the 95 % test, sets and saves [completed] with a
    [collection_end], and raises on the subtraction
    [collection_end - collection_start] instead of returning [True].  The
    same run on a job the entry point started itself returns [True]. *)
Theorem completed_job_raises_without_collection_start :
  let before := job_after "bitcoin" (Returns tt, initialized_only) in
  let run := collect_bitcoin_data api_answers_all initialized_only in
  let normal := collect_bitcoin_data api_answers_all
                  (fresh_collector ten_days_in) in
  option_map status before = Some Pending /\
  option_map collection_start before = Some None /\
  fst run = Raises /\
  option_map reached_threshold (job_after "bitcoin" run) = Some true /\
  option_map status (job_after "bitcoin" run) = Some Completed /\
  option_map status (lookup "bitcoin" (progress_file (snd run)))
  = Some Completed /\
  option_map collection_end (job_after "bitcoin" run)
  = Some (Some (ten_days_in + 2200000)) /\
  fst normal = Returns true /\
  option_map status (job_after "bitcoin" normal) = Some Completed.
Proof.
  vm_compute. repeat split; reflexivity.
Qed.



(** C9.  A page answered with data adds the number of its processed
    records to [collected_days], whatever the database already holds; so in
    the 400-day run, whose second page (34 days asked) brings 35 records of
    dates the first page had stored, [collected_days] ends at 401 for 400
    [total_days] while 366 rows are stored, and [progress_percentage] is
    above 100. *)
Theorem collected_days_counts_every_record :
  (forall (api : nat -> reply) (coin : string) (start : datetime)
          (needed n tc : Z) (w : collector) (p : CollectionProgress)
          (prices : list point) (caps volumes : field (list point)),
     lookup coin (progress w) = Some p ->
     api (calls w) = Answer (MarketChart (Has prices) caps volumes) ->
     process_market_chart_data prices caps volumes start <> [] ->
     exists tc' w',
       collect_page api coin start needed n tc w = (Returns tc', w') /\
       option_map collected_days (lookup coin (progress w'))
       = Some (collected_days p
               + Z.of_nat (List.length
                   (process_market_chart_data prices caps volumes start)))) /\
  (let run := collect_bitcoin_data api_overlapping (fresh_collector day_400) in
   fst run = Returns true /\
   chart_requests (events (snd run)) = [365; 34] /\
   List.length (rows_of "bitcoin" (db (snd run))) = 366%nat /\
   exists p, job_after "bitcoin" run = Some p /\
             total_days p = 400 /\
             collected_days p = 401 /\
             total_days p < collected_days p /\
             exists v, progress_percentage p = Returns (Float64.finite v) /\
                       (100 < v)%Q).
Proof.
  split.
  - intros api coin start needed n tc w p prices caps volumes Hp Hapi Hdata.
    destruct (collect_page_with_data api coin start needed n tc w p
                prices caps volumes _ Hp Hapi eq_refl Hdata)
      as (w' & Hrun & Hp' & _).
    eexists _, w'. split; [exact Hrun|]. now rewrite Hp'.
  - cbv zeta. split; [vm_compute; reflexivity|].
    split; [vm_compute; reflexivity|].
    split; [vm_compute; reflexivity|].
    eexists. split; [vm_compute; reflexivity|].
    split; [reflexivity|]. split; [reflexivity|]. split; [reflexivity|].
    eexists. split; [vm_compute; reflexivity|]. reflexivity.
Qed.

End Runs.

(** ** The relative strength index *)

Section RSI.

Import Indicators.

Open Scope Q_scope.

Lemma is_positive_spec (q : Q) : is_positive q = true <-> 0 < q.
Proof.
  unfold is_positive. rewrite negb_true_iff.
  destruct (Qle_bool q 0) eqn:E.
  - apply Qle_bool_iff in E. split; [discriminate|]. intros H. lra.
  - split; [intros _|reflexivity].
    apply Qnot_le_lt. intros H. apply Qle_bool_iff in H. congruence.
Qed.

Lemma is_negative_spec (q : Q) : is_negative q = true <-> q < 0.
Proof.
  unfold is_negative. rewrite negb_true_iff.
  destruct (Qle_bool 0 q) eqn:E.
  - apply Qle_bool_iff in E. split; [discriminate|]. intros H. lra.
  - split; [intros _|reflexivity].
    apply Qnot_le_lt. intros H. apply Qle_bool_iff in H. congruence.
Qed.

Lemma gain_of_nonneg (d : option Q) : 0 <= gain_of d.
Proof.
  destruct d as [x|]; simpl; [|lra].
  destruct (is_positive x) eqn:E; [|lra].
  apply is_positive_spec in E. lra.
Qed.

Lemma loss_of_nonneg (d : option Q) : 0 <= loss_of d.
Proof.
  destruct d as [x|]; simpl; [|lra].
  destruct (is_negative x) eqn:E; [|lra].
  apply is_negative_spec in E. lra.
Qed.

Lemma total_nonneg (l : list Q) :
  (forall x, In x l -> 0 <= x) -> 0 <= total l.
Proof.
  induction l as [|x l IH]; intros Hall; simpl; [lra|].
  assert (0 <= x) by (apply Hall; now left).
  assert (0 <= total l) by (apply IH; intros y Hy; apply Hall; now right).
  lra.
Qed.

Lemma in_firstn {A : Type} (n : nat) (l : list A) (x : A) :
  In x (firstn n l) -> In x l.
Proof.
  intros Hin. rewrite <- (firstn_skipn n l). apply in_or_app. now left.
Qed.

Lemma in_skipn {A : Type} (n : nat) (l : list A) (x : A) :
  In x (skipn n l) -> In x l.
Proof.
  intros Hin. rewrite <- (firstn_skipn n l). apply in_or_app. now right.
Qed.

Lemma window_incl (period : nat) (l : list Q) (i : nat) (x : Q) :
  In x (window period l i) -> In x l.
Proof.
  unfold window. intros Hin.
  apply in_firstn in Hin. now apply in_skipn in Hin.
Qed.

Lemma mean_nonneg (period : nat) (l : list Q) (i : nat) :
  (forall x, In x l -> 0 <= x) ->
  (1 <= period)%nat ->
  0 <= total (window period l i) / inject_Z (Z.of_nat period).
Proof.
  intros Hall Hperiod.
  apply Qle_shift_div_l.
  - unfold Qlt, inject_Z. simpl. lia.
  - rewrite Qmult_0_l. apply total_nonneg.
    intros x Hx. apply Hall. now apply window_incl in Hx.
Qed.

(** The entry of a rolling mean at an index of the series. *)
Lemma rolling_mean_nth (period : nat) (l : list Q) (i : nat) :
  (i < List.length l)%nat ->
  nth_error (rolling_mean period l) i
  = Some (if ((1 <=? period) && (period <=? S i))%nat
          then Some (total (window period l i) / inject_Z (Z.of_nat period))
          else None).
Proof.
  intros Hi. unfold rolling_mean.
  rewrite nth_error_map, nth_error_seq.
  apply Nat.ltb_lt in Hi. rewrite Hi. reflexivity.
Qed.

Lemma rolling_mean_length (period : nat) (l : list Q) :
  List.length (rolling_mean period l) = List.length l.
Proof. unfold rolling_mean. now rewrite length_map, length_seq. Qed.

Lemma rolling_mean_nonneg (period : nat) (l : list Q) (i : nat) (m : Q) :
  (forall x, In x l -> 0 <= x) ->
  nth_error (rolling_mean period l) i = Some (Some m) ->
  0 <= m.
Proof.
  intros Hall Hnth.
  assert (Hi : (i < List.length l)%nat).
  { rewrite <- (rolling_mean_length period l). apply nth_error_Some. congruence. }
  rewrite (rolling_mean_nth period l i Hi) in Hnth.
  destruct (1 <=? period)%nat eqn:Hp; simpl in Hnth; [|discriminate].
  destruct (period <=? S i)%nat; [|discriminate].
  injection Hnth as <-. apply mean_nonneg; [exact Hall|].
  now apply Nat.leb_le.
Qed.

Lemma average_gain_nonneg (prices : series) (period i : nat) (g : Q) :
  nth_error (average_gain prices period) i = Some (Some g) -> 0 <= g.
Proof.
  apply rolling_mean_nonneg. intros x Hx.
  apply in_map_iff in Hx as (d & <- & _). apply gain_of_nonneg.
Qed.

Lemma average_loss_nonneg (prices : series) (period i : nat) (l : Q) :
  nth_error (average_loss prices period) i = Some (Some l) -> 0 <= l.
Proof.
  apply rolling_mean_nonneg. intros x Hx.
  apply in_map_iff in Hx as (d & <- & _). apply loss_of_nonneg.
Qed.


Lemma Qeq_bool_false (x y : Q) : Qeq_bool x y = false -> ~ x == y.
Proof. intros H E. apply Qeq_bool_iff in E. congruence. Qed.

(** The RSI of two averages that are not NaN and not negative. *)
Lemma rsi_of_cases (g l : Q) :
  0 <= g -> 0 <= l ->
  (l == 0 -> g == 0 -> rsi_of (Some g) (Some l) = NaN) /\
  (l == 0 -> 0 < g -> has_value (rsi_of (Some g) (Some l)) 100) /\
  (0 < l ->
   exists q, rsi_of (Some g) (Some l) = Fin q /\
             q == 100 - 100 / (1 + g / l) /\ 0 <= q /\ q < 100).
Proof.
  intros Hg Hl. unfold rsi_of, of_option. repeat split.
  - intros Hl0 Hg0. unfold xdiv at 2.
    apply Qeq_bool_iff in Hl0, Hg0. now rewrite Hl0, Hg0.
  - intros Hl0 Hg0. unfold xdiv at 2.
    apply Qeq_bool_iff in Hl0. rewrite Hl0.
    destruct (Qeq_bool g 0) eqn:Eg.
    + apply Qeq_bool_iff in Eg. lra.
    + destruct (is_negative g) eqn:En.
      * apply is_negative_spec in En. lra.
      * simpl. lra.
  - intros Hpos.
    assert (Hratio : 0 <= g / l).
    { apply Qle_shift_div_l; [exact Hpos|]. lra. }
    unfold xdiv at 2.
    destruct (Qeq_bool l 0) eqn:El.
    { apply Qeq_bool_iff in El. lra. }
    cbn [xadd]. unfold xdiv.
    destruct (Qeq_bool (1 + g / l) 0) eqn:Ed.
    { apply Qeq_bool_iff in Ed. lra. }
    cbn [xsub xneg xadd]. eexists. split; [reflexivity|].
    assert (Hden : 0 < 1 + g / l) by lra.
    assert (Hlow : 0 < 100 / (1 + g / l)).
    { apply Qlt_shift_div_l; [exact Hden|]. lra. }
    assert (Hhigh : 100 / (1 + g / l) <= 100).
    { apply Qle_shift_div_r; [exact Hden|]. lra. }
    split; [lra|split; lra].
Qed.

Lemma rsi_of_nan_left (l : option Q) : rsi_of None l = NaN.
Proof. reflexivity. Qed.

Lemma rsi_of_nan_right (g : option Q) : rsi_of g None = NaN.
Proof. destruct g; reflexivity. Qed.

(** The RSI at an index comes from the two averages at that index. *)
Lemma calculate_rsi_nth (prices : series) (period i : nat) (v : xfloat) :
  nth_error (calculate_rsi prices period) i = Some v ->
  exists g l,
    nth_error (average_gain prices period) i = Some g /\
    nth_error (average_loss prices period) i = Some l /\
    v = rsi_of g l.
Proof.
  unfold calculate_rsi. rewrite nth_error_map.
  generalize (average_gain prices period) (average_loss prices period).
  intros gains. revert i. induction gains as [|g gains IH];
    intros i losses Hnth.
  - destruct i; discriminate.
  - destruct losses as [|l losses]; [destruct i; discriminate|].
    destruct i as [|i]; simpl in *.
    + injection Hnth as <-. now exists g, l.
    + now apply IH.
Qed.

Lemma diff_from_length (previous : option Q) (prices : series) :
  List.length (diff_from previous prices) = List.length prices.
Proof.
  revert previous. induction prices as [|x rest IH]; intros previous; simpl;
    [reflexivity|]. now rewrite IH.
Qed.

(** From index [period - 1] on both averages, and so the RSI, are computed. *)
Lemma rsi_defined_from_period (prices : series) (period i : nat) :
  (1 <= period)%nat -> (period <= S i)%nat -> (i < List.length prices)%nat ->
  exists g l,
    nth_error (average_gain prices period) i = Some (Some g) /\
    nth_error (average_loss prices period) i = Some (Some l) /\
    nth_error (calculate_rsi prices period) i = Some (rsi_of (Some g) (Some l)).
Proof.
  intros Hp Hi Hlen.
  assert (Hlen' : forall f : option Q -> Q,
            (i < List.length (map f (diff prices)))%nat).
  { intros f. unfold diff. now rewrite length_map, diff_from_length. }
  apply Nat.leb_le in Hp, Hi.
  eexists _, _. unfold average_gain, average_loss.
  rewrite !rolling_mean_nth by apply Hlen'.
  rewrite Hp, Hi. simpl. split; [reflexivity|]. split; [reflexivity|].
  unfold calculate_rsi, average_gain, average_loss.
  rewrite nth_error_map.
  assert (Hcombine : forall (A B : Type) (la : list A) (lb : list B) n a b,
            nth_error la n = Some a -> nth_error lb n = Some b ->
            nth_error (combine la lb) n = Some (a, b)).
  { intros A B la. induction la as [|a0 la IH]; intros lb n a b Ha Hb.
    - destruct n; discriminate.
    - destruct lb as [|b0 lb]; [destruct n; discriminate|].
      destruct n as [|n]; simpl in *; [congruence|]. now apply IH. }
  erewrite Hcombine.
  - reflexivity.
  - rewrite rolling_mean_nth by apply Hlen'. now rewrite Hp, Hi.
  - rewrite rolling_mean_nth by apply Hlen'. now rewrite Hp, Hi.
Qed.

(** C6 (as the code has it).  Every value of [_calculate_rsi] is NaN or a
    number of [0, 100]; where the average loss is 0 and the average gain is
    positive it is exactly 100; where both averages are 0 (no price change
    over the window) it is NaN: the source has no case for a zero loss, the
    division decides. *)
Theorem rsi_range_and_saturation :
  forall (prices : series) (period i : nat) (v : xfloat),
    nth_error (calculate_rsi prices period) i = Some v ->
    (v = NaN \/ exists q, v = Fin q /\ 0 <= q <= 100) /\
    (forall g l,
       nth_error (average_gain prices period) i = Some (Some g) ->
       nth_error (average_loss prices period) i = Some (Some l) ->
       l == 0 ->
       (0 < g -> has_value v 100) /\ (g == 0 -> v = NaN)).
Proof.
  intros prices period i v Hv.
  destruct (calculate_rsi_nth prices period i v Hv) as (g & l & Hg & Hl & ->).
  split.
  - destruct g as [g|]; [|left; apply rsi_of_nan_left].
    destruct l as [l|]; [|left; apply rsi_of_nan_right].
    pose proof (average_gain_nonneg _ _ _ _ Hg) as Hg0.
    pose proof (average_loss_nonneg _ _ _ _ Hl) as Hl0.
    destruct (rsi_of_cases g l Hg0 Hl0) as (Hnan & Hsat & Hnum).
    destruct (Qlt_le_dec 0 l) as [Hpos|Hzero].
    + destruct (Hnum Hpos) as (q & -> & _ & Hlow & Hhigh).
      right. exists q. split; [reflexivity|]. split; lra.
    + assert (Hl_eq : l == 0) by lra.
      destruct (Qlt_le_dec 0 g) as [Hgpos|Hgzero].
      * specialize (Hsat Hl_eq Hgpos).
        destruct (rsi_of (Some g) (Some l)) as [| |q]; try contradiction.
        right. exists q. split; [reflexivity|]. simpl in Hsat. split; lra.
      * left. apply Hnan; [exact Hl_eq|lra].
  - intros g' l' Hg' Hl' Hzero.
    rewrite Hg in Hg'. rewrite Hl in Hl'.
    injection Hg' as ->. injection Hl' as ->.
    pose proof (average_gain_nonneg _ _ _ _ Hg) as Hg0.
    pose proof (average_loss_nonneg _ _ _ _ Hl) as Hl0.
    destruct (rsi_of_cases g' l' Hg0 Hl0) as (Hnan & Hsat & _).
    split; [now apply Hsat|now apply Hnan].
Qed.

End RSI.

Section RSIExamples.

Import Indicators Scenarios.

Open Scope Q_scope.

(** C6 on fifteen rising closes: at the last day the average loss is 0, the
    average gain is 1 and the RSI is 100. *)
Lemma rsi_range_and_saturation_witness :
  nth_error (average_loss rising_prices 14) 14 = Some (Some (0 # 14)) /\
  exists v, nth_error (calculate_rsi rising_prices 14) 14 = Some v /\
            has_value v 100.
Proof.
  split; [vm_compute; reflexivity|].
  exists (Fin 100).
  assert (Hv : nth_error (calculate_rsi rising_prices 14) 14 = Some (Fin 100))
    by (vm_compute; reflexivity).
  split; [exact Hv|].
  refine (proj1 (proj2 (rsi_range_and_saturation rising_prices 14 14 (Fin 100) Hv)
                   (14 # 14) (0 # 14) _ _ _) _);
    vm_compute; reflexivity.
Defined.

(** C6 (the claim fails).  On fifteen equal closes the 14-period average
    loss of the last day is 0 and the RSI there is NaN, not 100. *)
Lemma rsi_flat_series_counterexample :
  nth_error (average_loss flat_prices 14) 14 = Some (Some (0 # 14)) /\
  (0 # 14 == 0) /\
  nth_error (calculate_rsi flat_prices 14) 14 = Some NaN /\
  ~ has_value NaN 100.
Proof.
  split; [vm_compute; reflexivity|].
  split; [reflexivity|].
  split; [vm_compute; reflexivity|].
  intros H. exact H.
Qed.

End RSIExamples.

(** ** The schedule of the market cache *)

Section Schedule.

Import Json CacheManager CacheSchedule.

Lemma us_per_day_hours : us_per_day = 24 * us_per_hour /\ 0 < us_per_hour.
Proof. split; vm_compute; reflexivity. Qed.

Lemma day_bounds (t : datetime) :
  dt_date t * us_per_day <= t < (dt_date t + 1) * us_per_day.
Proof.
  unfold dt_date. destruct us_per_day_hours as [Hd Hh].
  assert (Hpos : 0 < us_per_day) by lia.
  pose proof (Z.mul_div_le t us_per_day Hpos).
  pose proof (Z.mul_succ_div_gt t us_per_day Hpos). lia.
Qed.

Lemma dt_date_plus_day (t : datetime) : dt_date (t + days 1) = dt_date t + 1.
Proof.
  unfold dt_date, days. destruct us_per_day_hours as [Hd Hh].
  rewrite Z.div_add by lia. reflexivity.
Qed.

Lemma next_update_hour_none (current_hour : Z) (hours : list Z) :
  next_update_hour current_hour hours = None <->
  (forall h, In h hours -> h <= current_hour).
Proof.
  induction hours as [|h rest IH]; simpl.
  - split; [intros _ h []|reflexivity].
  - destruct (Z.ltb_spec current_hour h) as [Hlt|Hge].
    + split; [discriminate|]. intros Hall.
      specialize (Hall h (or_introl eq_refl)). lia.
    + rewrite IH. split.
      * intros Hall h' [<-|Hin]; [exact Hge|now apply Hall].
      * intros Hall h' Hin. apply Hall. now right.
Qed.

Lemma fold_max_bounds (rest : list Z) (h : Z) :
  (In (fold_left Z.max rest h) (h :: rest)) /\
  (forall x, In x (h :: rest) -> x <= fold_left Z.max rest h).
Proof.
  revert h. induction rest as [|y rest IH]; intros h; simpl.
  - split; [now left|]. intros x [<-|[]]. lia.
  - destruct (IH (Z.max h y)) as [Hin Hall]. split.
    + destruct Hin as [Heq|Hin]; [|now right; right].
      rewrite <- Heq.
      destruct (Z.max_spec h y) as [[_ ->]|[_ ->]]; [right; now left|now left].
    + pose proof (Hall (Z.max h y) (or_introl eq_refl)) as Htop.
      intros x [Hx|[Hx|Hx]]; [lia|lia|].
      apply Hall. now right.
Qed.

Lemma max_hours_spec (hours : list Z) (m : Z) :
  max_hours hours = Some m ->
  In m hours /\ (forall h, In h hours -> h <= m).
Proof.
  destruct hours as [|h rest]; simpl; [discriminate|].
  intros [= <-]. apply fold_max_bounds.
Qed.

Lemma first_reached_app (current_hour : Z) (l1 l2 : list Z) :
  first_reached current_hour (l1 ++ l2)
  = match first_reached current_hour l1 with
    | Some h => Some h
    | None => first_reached current_hour l2
    end.
Proof.
  induction l1 as [|h l1 IH]; simpl; [reflexivity|].
  destruct (h <=? current_hour); [reflexivity|exact IH].
Qed.

(** On an ascending schedule the last planned hour is the latest hour
    reached. *)
Lemma last_planned_hour_spec (current_hour : Z) (hours : list Z) :
  StronglySorted Z.le hours ->
  match last_planned_hour current_hour hours with
  | Some p =>
      In p hours /\ p <= current_hour /\
      (forall h, In h hours -> h <= current_hour -> h <= p)
  | None => forall h, In h hours -> current_hour < h
  end.
Proof.
  unfold last_planned_hour.
  induction hours as [|h rest IH]; intros Hsorted; simpl.
  - intros h [].
  - apply StronglySorted_inv in Hsorted as [Hrest Hhead].
    rewrite Forall_forall in Hhead.
    rewrite first_reached_app. specialize (IH Hrest).
    destruct (first_reached current_hour (rev rest)) as [p|].
    + destruct IH as (Hin & Hle & Hmax). repeat split.
      * now right.
      * exact Hle.
      * intros h' [<-|Hin'] Hreach; [now apply Hhead|now apply Hmax].
    + simpl. destruct (Z.leb_spec h current_hour) as [Hle|Hgt].
      * repeat split; [now left|exact Hle|].
        intros h' [<-|Hin'] Hreach; [lia|].
        specialize (IH h' Hin'). lia.
      * intros h' [<-|Hin']; [exact Hgt|now apply IH].
Qed.

(** [_is_cache_valid] on a decodable file, in terms of the slots reached. *)
Lemma is_cache_valid_stored_iff (hours : list Z) (cache : cache_data)
    (now : datetime) :
  StronglySorted Z.le hours ->
  (is_cache_valid hours (Stored cache) now = true <->
   exists written,
     wall_clock (last_update cache) = Some written /\
     dt_date written = dt_date now /\
     (exists h, In h hours /\ h <= dt_hour now) /\
     (forall h, In h hours -> h <= dt_hour now -> h <= dt_hour written)).
Proof.
  intros Hsorted.
  assert (Hclock : forall written,
            wall_clock (last_update cache) = Some written ->
            is_cache_valid hours (Stored cache) now
            = is_cache_valid hours
                (Stored {| last_update := LuAt written; data := data cache;
                           update_count := update_count cache |}) now).
  { intros written Hw. unfold is_cache_valid. cbn [last_update].
    destruct (last_update cache); try discriminate;
      injection Hw as ->; reflexivity. }
  destruct (wall_clock (last_update cache)) as [written|] eqn:Hw.
  2:{ split; [|intros (w & Habs & _); discriminate].
      unfold is_cache_valid.
      destruct (last_update cache); discriminate. }
  rewrite (Hclock written eq_refl). clear Hclock.
  unfold is_cache_valid. cbn [last_update].
  destruct (Z.eqb_spec (dt_date written) (dt_date now)) as [Hday|Hday]; simpl.
  2:{ split; [discriminate|]. intros (w & [= <-] & Hd & _). contradiction. }
    pose proof (next_update_hour_none (dt_hour now) hours) as Hnext.
    pose proof (last_planned_hour_spec (dt_hour now) hours Hsorted) as Hplan.
    destruct (next_update_hour (dt_hour now) hours) as [next|].
    + destruct (last_planned_hour (dt_hour now) hours) as [p|].
      * destruct Hplan as (Hin & Hle & Hmax). rewrite Z.leb_le. split.
        -- intros Hp. exists written. repeat split; try assumption.
           ++ now exists p.
           ++ intros h Hh Hreach. specialize (Hmax h Hh Hreach). lia.
        -- intros (w & [= <-] & _ & _ & Hall). now apply Hall.
      * rewrite dt_date_minus_day.
        destruct (Z.eqb_spec (dt_date written) (dt_date now - 1)); [lia|].
        split; [discriminate|].
        intros (w & _ & _ & (h & Hh & Hreach) & _).
        specialize (Hplan h Hh). lia.
    + assert (Hall : forall h, In h hours -> h <= dt_hour now)
        by now apply Hnext.
      destruct (max_hours hours) as [m|] eqn:Hmax.
      * apply max_hours_spec in Hmax as [Hin Hbound]. rewrite Z.leb_le. split.
        -- intros Hm. exists written. repeat split; try assumption.
           ++ exists m. split; [exact Hin|now apply Hall].
           ++ intros h Hh _. specialize (Hbound h Hh). lia.
        -- intros (w & [= <-] & _ & _ & Hcover).
           apply Hcover; [exact Hin|now apply Hall].
      * destruct hours; [|discriminate].
        split; [discriminate|]. intros (w & _ & _ & (h & [] & _) & _).
Qed.

(** X1.  On an ascending schedule, [_is_cache_valid] answers [True] exactly
    when the cache file is a JSON object that carries a timestamp whose
    wall-clock date is the query day, at least one scheduled hour has been
    reached, and no scheduled hour reached by now is later than the hour of
    the write. *)
Theorem cache_valid_iff_latest_slot_covered :
  forall (hours : list Z) (f : cache_file) (now : datetime),
    StronglySorted Z.le hours ->
    (is_cache_valid hours f now = true <->
     exists cache written,
       f = Stored cache /\
       wall_clock (last_update cache) = Some written /\
       dt_date written = dt_date now /\
       (exists h, In h hours /\ h <= dt_hour now) /\
       (forall h, In h hours -> h <= dt_hour now -> h <= dt_hour written)).
Proof.
  intros hours f now Hsorted. destruct f as [| | |cache].
  - split; [discriminate|]. intros (c & w & Habs & _). discriminate.
  - split; [discriminate|]. intros (c & w & Habs & _). discriminate.
  - split; [discriminate|]. intros (c & w & Habs & _). discriminate.
  - rewrite (is_cache_valid_stored_iff hours cache now Hsorted). split.
    + intros (written & Hrest). now exists cache, written.
    + intros (c & written & Hc & Hrest). injection Hc as <-.
      now exists written.
Qed.

(** X1 on the schedule 9 and 21: a write at 09:05 is valid at 20:59. *)
Lemma cache_valid_iff_latest_slot_covered_witness :
  is_cache_valid update_hours
    (save_cache [("sp500"%string, JNumber 5100)] (mk_datetime 738955 9 5))
    (mk_datetime 738955 20 59) = true.
Proof.
  apply (cache_valid_iff_latest_slot_covered update_hours
           (save_cache [("sp500"%string, JNumber 5100)] (mk_datetime 738955 9 5))
           (mk_datetime 738955 20 59)).
  - repeat constructor; lia.
  - eexists _, (mk_datetime 738955 9 5). split; [reflexivity|].
    split; [reflexivity|].
    split; [vm_compute; reflexivity|]. split.
    + exists 9. split; [now left|]. vm_compute. discriminate.
    + intros h [<-|[<-|[]]]; vm_compute; intros H; try discriminate.
      now contradiction H.
Defined.

(** X2.  A read that is not forced, after a refresh that stored a non-empty
    payload at [written]: on an ascending schedule it is served from the
    cache, without the collector, exactly when it falls on the day of the
    write, a scheduled hour has been reached and none reached by now is later
    than the hour of the write; otherwise it does what a forced read does. *)
Theorem market_read_hits_cache_until_next_slot :
  forall (hours : list Z) (d : payload) (written now : datetime)
         (collector : DataCollector),
    StronglySorted Z.le hours ->
    truthy d = true ->
    let covered :=
      dt_date written = dt_date now /\
      (exists h, In h hours /\ h <= dt_hour now) /\
      (forall h, In h hours -> h <= dt_hour now -> h <= dt_hour written) in
    (covered ->
       get_market_data hours false collector now (save_cache d written)
       = (Returns d, save_cache d written)) /\
    (~ covered ->
       get_market_data hours false collector now (save_cache d written)
       = get_market_data hours true collector now (save_cache d written)).
Proof.
  intros hours d written now collector Hsorted Htruthy covered.
  pose proof (is_cache_valid_stored_iff hours
                {| last_update := LuAt written; data := Some d;
                   update_count := None |} now Hsorted) as Hiff.
  unfold get_market_data, save_cache in *. simpl negb. rewrite !andb_true_l.
  split.
  - intros (Hday & Hsome & Hall).
    assert (Hvalid : is_cache_valid hours
              (Stored {| last_update := LuAt written; data := Some d;
                         update_count := None |}) now = true).
    { apply Hiff. exists written. repeat split; assumption. }
    rewrite Hvalid. simpl. now rewrite Htruthy.
  - intros Hnot.
    destruct (is_cache_valid hours _ now) eqn:Hvalid; [|reflexivity].
    exfalso. apply Hnot.
    destruct (proj1 Hiff eq_refl) as (w & [= <-] & Hday & Hsome & Hall).
    repeat split; assumption.
Qed.

(** X2 on the schedule 9 and 21: written at 09:05, a read at 20:59 is a
    cache hit whatever the sources would do; a read at 21:00 goes to the
    collector. *)
Lemma market_read_hits_cache_until_next_slot_witness :
  let d := [("sp500"%string, JNumber 5100)] in
  let written := mk_datetime 738955 9 5 in
  get_market_data update_hours false sources_down (mk_datetime 738955 20 59)
    (save_cache d written) = (Returns d, save_cache d written) /\
  get_market_data update_hours false sources_down (mk_datetime 738955 21 0)
    (save_cache d written)
  = get_market_data update_hours true sources_down (mk_datetime 738955 21 0)
      (save_cache d written).
Proof.
  intros d written. split.
  - refine (proj1 (market_read_hits_cache_until_next_slot update_hours d
             written (mk_datetime 738955 20 59) sources_down _ _) _).
    + repeat constructor; lia.
    + reflexivity.
    + split; [vm_compute; reflexivity|]. split.
      * exists 9. split; [now left|]. vm_compute. discriminate.
      * intros h [<-|[<-|[]]]; vm_compute; intros H; try discriminate.
        now contradiction H.
  - vm_compute. reflexivity.
Defined.

(** *** The next update time *)

Lemma valid_hour_spec (h : Z) : valid_hour h = true <-> 0 <= h < 24.
Proof. unfold valid_hour. rewrite andb_true_iff, Z.leb_le, Z.ltb_lt. tauto. Qed.

Lemma replace_hour_scheduled (t : datetime) (h : Z) :
  replace_hour t h = scheduled_at (dt_date t) h.
Proof. reflexivity. Qed.

(** A scheduled instant of a valid hour lies within its day. *)
Lemma scheduled_at_within_day (d : date) (h : Z) :
  0 <= h < 24 ->
  d * us_per_day <= scheduled_at d h < (d + 1) * us_per_day.
Proof.
  intros Hh. unfold scheduled_at. destruct us_per_day_hours as [Hd Hpos].
  rewrite Hd. nia.
Qed.

Lemma scheduled_at_mono (d : date) (h h' : Z) :
  h <= h' -> scheduled_at d h <= scheduled_at d h'.
Proof.
  intros Hle. unfold scheduled_at. destruct us_per_day_hours as [_ Hpos]. nia.
Qed.

(** The loop finds the earliest later time of today, if there is one. *)
Lemma first_later_today_spec (now : datetime) (hours : list Z) :
  StronglySorted Z.le hours ->
  Forall (fun h => 0 <= h < 24) hours ->
  match first_later_today now hours with
  | Raises => False
  | Returns (Some t) =>
      exists h, In h hours /\ t = scheduled_at (dt_date now) h /\ now < t /\
                (forall h', In h' hours ->
                            now < scheduled_at (dt_date now) h' -> h <= h')
  | Returns None =>
      forall h, In h hours -> scheduled_at (dt_date now) h <= now
  end.
Proof.
  induction hours as [|h rest IH]; intros Hsorted Hvalid; simpl.
  - intros h [].
  - apply StronglySorted_inv in Hsorted as [Hrest Hhead].
    rewrite Forall_forall in Hhead.
    inversion Hvalid as [|? ? Hh Hvrest]; subst.
    rewrite (proj2 (valid_hour_spec h) Hh).
    rewrite replace_hour_scheduled.
    destruct (Z.ltb_spec now (scheduled_at (dt_date now) h)) as [Hlt|Hge].
    + exists h. repeat split; [now left|exact Hlt|].
      intros h' [<-|Hin] _; [lia|now apply Hhead].
    + specialize (IH Hrest Hvrest).
      destruct (first_later_today now rest) as [[t|]|]; [| |exact IH].
      * destruct IH as (h0 & Hin & Ht & Hlt & Hmin).
        exists h0. repeat split; [now right|exact Ht|exact Hlt|].
        intros h' [<-|Hin'] Hlater; [lia|now apply Hmin].
      * intros h' [<-|Hin']; [exact Hge|now apply IH].
Qed.

(** X3.  For a non-empty ascending schedule of hours 0..23 and a query time
    [now] within the calendar (years 1..9999): unless [now] lies on the last
    day of the calendar with every scheduled time of that day reached,
    [_get_next_update_time] does not raise, the time it returns is a
    scheduled instant strictly after now, and it is the earliest one: no
    scheduled instant lies strictly between now and it.  On the last day of
    the calendar, once every scheduled time of the day is reached,
    [now + timedelta(days=1)] overflows and the method raises. *)
Theorem next_update_time_is_earliest_scheduled :
  forall (hours : list Z) (now : datetime),
    hours <> [] ->
    StronglySorted Z.le hours ->
    Forall (fun h => 0 <= h < 24) hours ->
    min_ordinal <= dt_date now <= max_ordinal ->
    let day_over :=
      forall h, In h hours -> scheduled_at (dt_date now) h <= now in
    (dt_date now < max_ordinal \/ ~ day_over ->
     exists t,
       get_next_update_time hours now = Returns t /\
       now < t /\
       (exists d h, In h hours /\ t = scheduled_at d h) /\
       (forall d h, In h hours -> now < scheduled_at d h -> t <= scheduled_at d h)) /\
    (dt_date now = max_ordinal /\ day_over ->
     get_next_update_time hours now = Raises).
Proof.
  intros hours now Hne Hsorted Hvalid Hcal day_over.
  pose proof (first_later_today_spec now hours Hsorted Hvalid) as Hloop.
  pose proof (day_bounds now) as Hnow.
  assert (Hrange : forall h, In h hours -> 0 <= h < 24)
    by now apply Forall_forall.
  unfold get_next_update_time, plus_timedelta. rewrite dt_date_plus_day.
  destruct (first_later_today now hours) as [[t|]|]; [| |contradiction].
  - destruct Hloop as (h & Hin & Ht & Hlt & Hmin). split.
    + intros _.
      exists t. split; [reflexivity|]. split; [exact Hlt|]. split.
      * now exists (dt_date now), h.
      * intros d h' Hin' Hlater.
        pose proof (scheduled_at_within_day d h' (Hrange h' Hin')) as Hd.
        pose proof (scheduled_at_within_day (dt_date now) h (Hrange h Hin))
          as Ht'.
        destruct us_per_day_hours as [_ Hpos].
        destruct (Z.lt_trichotomy d (dt_date now)) as [Hbefore|[->|Hafter]].
        -- exfalso.
           assert ((d + 1) * us_per_day <= dt_date now * us_per_day) by nia.
           lia.
        -- subst t. apply scheduled_at_mono. now apply Hmin.
        -- assert ((dt_date now + 1) * us_per_day <= d * us_per_day) by nia.
           lia.
    + intros [_ Hover]. exfalso. specialize (Hover h Hin). subst t. lia.
  - split.
    + intros [Hbefore|Hnot]; [|contradiction].
      assert (Hin_range :
                ((min_ordinal <=? dt_date now + 1)
                 && (dt_date now + 1 <=? max_ordinal)) = true).
      { apply andb_true_intro. split; apply Z.leb_le; lia. }
      rewrite Hin_range.
      destruct hours as [|h0 rest]; [contradiction|].
      apply StronglySorted_inv in Hsorted as [_ Hhead].
      rewrite Forall_forall in Hhead.
      assert (Hh0 : 0 <= h0 < 24) by (apply Hrange; now left).
      rewrite (proj2 (valid_hour_spec h0) Hh0).
      rewrite replace_hour_scheduled, dt_date_plus_day.
      pose proof (scheduled_at_within_day (dt_date now + 1) h0 Hh0) as Ht.
      eexists. split; [reflexivity|]. split; [lia|]. split.
      * exists (dt_date now + 1), h0. split; [now left|reflexivity].
      * intros d h' Hin' Hlater.
        pose proof (scheduled_at_within_day d h' (Hrange h' Hin')) as Hd.
        destruct (Z.lt_trichotomy d (dt_date now)) as [Hb|[->|Hafter]].
        -- exfalso.
           assert ((d + 1) * us_per_day <= dt_date now * us_per_day) by nia.
           lia.
        -- exfalso. specialize (Hloop h' Hin'). lia.
        -- destruct (Z.eq_dec d (dt_date now + 1)) as [->|Hlater'].
           ++ apply scheduled_at_mono.
              destruct Hin' as [<-|Hin']; [lia|now apply Hhead].
           ++ assert ((dt_date now + 2) * us_per_day <= d * us_per_day) by nia.
              lia.
    + intros [Hlast _].
      assert (Hout : (dt_date now + 1 <=? max_ordinal) = false)
        by (apply Z.leb_gt; lia).
      now rewrite Hout, andb_false_r.
Qed.

(** X3 on the schedule 9 and 21 at 21:30: the next update is tomorrow 09:00;
    at 21:30 on 9999-12-31 there is none. *)
Lemma next_update_time_is_earliest_scheduled_witness :
  (exists t,
     get_next_update_time update_hours (mk_datetime 738955 21 30) = Returns t /\
     t = mk_datetime 738956 9 0) /\
  get_next_update_time update_hours (mk_datetime max_ordinal 21 30) = Raises.
Proof.
  split.
  - destruct (proj1 (next_update_time_is_earliest_scheduled update_hours
                       (mk_datetime 738955 21 30)
                       ltac:(discriminate)
                       ltac:(repeat constructor; lia)
                       ltac:(repeat constructor; lia)
                       ltac:(vm_compute; split; discriminate)))
      as (t & Hrun & _).
    + left. vm_compute. reflexivity.
    + exists t. split; [exact Hrun|].
      vm_compute in Hrun. injection Hrun as <-. reflexivity.
  - apply (next_update_time_is_earliest_scheduled update_hours
             (mk_datetime max_ordinal 21 30)
             ltac:(discriminate)
             ltac:(repeat constructor; lia)
             ltac:(repeat constructor; lia)
             ltac:(vm_compute; split; discriminate)).
    split; [vm_compute; reflexivity|].
    intros h [<-|[<-|[]]]; vm_compute; discriminate.
Defined.

(** *** The crypto cache *)

Lemma in_some_slot_iff (written now : datetime) (hours : list Z) :
  Forall (fun h => 0 <= h < 24) hours ->
  (in_some_slot written now hours = true <->
   exists h, In h hours /\
             scheduled_at (dt_date now) h <= written
             <= scheduled_at (dt_date now) h + minutes 30).
Proof.
  induction hours as [|h rest IH]; intros Hvalid; cbn [in_some_slot].
  - split; [discriminate|]. intros (h & [] & _).
  - inversion Hvalid as [|? ? Hh Hrest]; subst.
    assert (Hok : (0 <=? h) && (h <? 24) = true) by now apply valid_hour_spec.
    rewrite Hok, replace_hour_scheduled.
    destruct ((scheduled_at (dt_date now) h <=? written)
              && (written <=? scheduled_at (dt_date now) h + minutes 30))
      eqn:Hwin.
    + split; [intros _|reflexivity]. exists h. split; [now left|].
      apply andb_prop in Hwin as [H1 H2].
      apply Z.leb_le in H1, H2. lia.
    + rewrite (IH Hrest). split.
      * intros (h' & Hin & Hw). exists h'. split; [now right|exact Hw].
      * intros (h' & [<-|Hin] & Hw); [|now exists h'].
        exfalso. apply andb_false_iff in Hwin as [H|H];
          apply Z.leb_gt in H; lia.
Qed.

(** X4.  After a refresh of the crypto cache stored a non-empty payload at
    [written], a later read that is not forced is served from the cache
    exactly when it falls on the day of the write and the write itself lies
    within the 30 minutes after a scheduled hour; the time of day of the read
    plays no part.  A payload written outside those windows serves no later
    read: each one does what a forced read does. *)
Theorem crypto_read_served_by_write_in_window :
  forall (hours : list Z) (d : payload) (written now : datetime)
         (collector : outcome payload) (f : cache_file),
    Forall (fun h => 0 <= h < 24) hours ->
    truthy d = true ->
    let stored := save_crypto_cache d written f in
    let served :=
      dt_date written = dt_date now /\
      exists h, In h hours /\
                scheduled_at (dt_date written) h <= written
                <= scheduled_at (dt_date written) h + minutes 30 in
    (served ->
       get_crypto_data hours false collector now stored = (Returns d, stored)) /\
    (~ served ->
       get_crypto_data hours false collector now stored
       = get_crypto_data hours true collector now stored).
Proof.
  intros hours d written now collector f Hvalid Htruthy stored served.
  subst stored. unfold get_crypto_data, save_crypto_cache.
  unfold is_crypto_cache_valid.
  cbn [last_update load_cache data usable].
  pose proof (in_some_slot_iff written now hours Hvalid) as Hiff.
  split.
  - intros (Hday & Hwin). rewrite Hday, Z.eqb_refl. cbn [negb].
    rewrite Hday in Hwin. rewrite (proj2 Hiff Hwin). now rewrite Htruthy.
  - intros Hnot.
    destruct (Z.eqb_spec (dt_date written) (dt_date now)) as [Hday|Hday];
      cbn [negb]; [|reflexivity].
    destruct (in_some_slot written now hours) eqn:Hslot; [|reflexivity].
    exfalso. apply Hnot. split; [exact Hday|].
    rewrite Hday. now apply Hiff.
Qed.

(** X4 on the schedule 8 and 20: a payload written at 08:10 still serves a
    read at 23:00, after the 20:00 slot; one written at 10:00 does not serve
    a read one minute later. *)
Lemma crypto_read_served_by_write_in_window_witness :
  let d := [("btc"%string, JNumber 67000)] in
  get_crypto_data crypto_update_hours false Raises (mk_datetime 738955 23 0)
    (save_crypto_cache d (mk_datetime 738955 8 10) NoFile)
  = (Returns d, save_crypto_cache d (mk_datetime 738955 8 10) NoFile) /\
  get_crypto_data crypto_update_hours false (Returns [("btc"%string, JNumber 1)])
    (mk_datetime 738955 10 1)
    (save_crypto_cache d (mk_datetime 738955 10 0) NoFile)
  = get_crypto_data crypto_update_hours true (Returns [("btc"%string, JNumber 1)])
      (mk_datetime 738955 10 1)
      (save_crypto_cache d (mk_datetime 738955 10 0) NoFile).
Proof.
  intros d. split.
  - refine (proj1 (crypto_read_served_by_write_in_window crypto_update_hours d
             (mk_datetime 738955 8 10) (mk_datetime 738955 23 0) Raises NoFile
             _ _) _).
    + repeat constructor; lia.
    + reflexivity.
    + split; [vm_compute; reflexivity|].
      exists 8. split; [now left|]. vm_compute. split; discriminate.
  - vm_compute. reflexivity.
Defined.

(** A forced read of the crypto cache adds one to the update count when its
    collector came back with data, and leaves the file alone otherwise. *)
Lemma forced_crypto_read_count (hours : list Z) (collector : outcome payload)
    (now : datetime) (f : cache_file) :
  let f' := snd (get_crypto_data hours true collector now f) in
  (failed collector = true -> f' = f) /\
  (failed collector = false -> count_of f' = count_of f + 1).
Proof.
  cbv zeta. unfold get_crypto_data.
  destruct collector as [d|]; simpl.
  - destruct (truthy d); simpl.
    + split; [discriminate|]. intros _.
      destruct f as [| | |c]; simpl; try reflexivity.
      destruct (update_count c); reflexivity.
    + split; [intros _|discriminate].
      destruct (usable (load_cache f)); reflexivity.
  - split; [intros _|discriminate].
    destruct (usable (load_cache f)); reflexivity.
Qed.

(** X5.  Over any series of forced reads of the crypto cache, whatever the
    file was at the start (missing, undecodable or stored), the update count
    of the file grows by exactly the number of reads whose collector came
    back with data; the reads that failed do not touch it. *)
Theorem update_count_counts_refreshes :
  forall (hours : list Z) (reads : list (outcome payload * datetime))
         (f : cache_file),
    count_of (forced_crypto_reads hours reads f)
    = count_of f + Z.of_nat (refreshes reads).
Proof.
  intros hours reads. unfold refreshes.
  induction reads as [|[collector now] rest IH]; intros f; simpl.
  - lia.
  - rewrite IH.
    destruct (forced_crypto_read_count hours collector now f) as [Hfail Hok].
    destruct (failed collector) eqn:Hf; simpl.
    + rewrite (Hfail eq_refl). reflexivity.
    + rewrite (Hok eq_refl). lia.
Qed.

End Schedule.

(** ** The table of daily prices *)

Section Table.

Import DatabaseManager DatabaseQueries.

Lemma NoDup_map_filter {Row Key : Type} (key : Row -> Key)
    (keep : Row -> bool) (rows : list Row) :
  NoDup (map key rows) -> NoDup (map key (filter keep rows)).
Proof.
  intros Hkeys. induction rows as [|row rows IH]; simpl; [constructor|].
  simpl in Hkeys. apply NoDup_cons_iff in Hkeys as [Hfresh Hrest].
  destruct (keep row); simpl; [|now apply IH].
  apply NoDup_cons; [|now apply IH].
  rewrite in_map_iff. intros (other & Hsame & Hin).
  apply filter_In in Hin as [Hin _].
  apply Hfresh. rewrite in_map_iff. now exists other.
Qed.

Lemma NoDup_snoc {A : Type} (l : list A) (a : A) :
  NoDup l -> ~ In a l -> NoDup (l ++ [a]).
Proof.
  intros Hnd Hnotin. apply NoDup_app.
  - exact Hnd.
  - repeat constructor. intros [].
  - intros x Hx [<-|[]]. contradiction.
Qed.

Lemma same_key_iff (coin : string) (d : date) (r : price_row) :
  same_key coin d r = true <-> key_of r = (coin, d).
Proof.
  unfold same_key, key_of. rewrite andb_true_iff, String.eqb_eq, Z.eqb_eq.
  split; [intros [-> ->]; reflexivity|intros [= -> ->]; now split].
Qed.

(** One [INSERT OR REPLACE] keeps the table well formed. *)
Lemma insert_or_replace_table_ok (coin : string) (d : date)
    (record : daily_record) (now : datetime) (db : database) :
  table_ok db -> table_ok (insert_or_replace coin d record now db).
Proof.
  intros (Hkeys & Hids & Hseq). unfold table_ok, insert_or_replace. simpl.
  rewrite Forall_forall in Hseq.
  rewrite !map_app. simpl. repeat split.
  - apply NoDup_snoc; [now apply NoDup_map_filter|].
    unfold key_of at 2. simpl.
    intros Hin. apply in_map_iff in Hin as (r & Hkey & Hin).
    apply filter_In in Hin as [_ Hneg].
    apply (proj2 (same_key_iff coin d r)) in Hkey.
    rewrite Hkey in Hneg. discriminate.
  - apply NoDup_snoc; [now apply NoDup_map_filter|].
    intros Hin. apply in_map_iff in Hin as (r & Hid & Hin).
    apply filter_In in Hin as [Hin _]. specialize (Hseq r Hin). lia.
  - apply Forall_forall. intros r Hin.
    apply in_app_or in Hin as [Hin|[<-|[]]]; simpl; [|lia].
    apply filter_In in Hin as [Hin _]. specialize (Hseq r Hin). lia.
Qed.

Lemma save_records_table_ok (coin : string) (data : list daily_record)
    (now : datetime) (count : Z) (db : database) :
  table_ok db -> table_ok (snd (save_records coin data now count db)).
Proof.
  revert count db. induction data as [|r rest IH]; intros count db Hok; simpl.
  - exact Hok.
  - destruct (r_date r) as [d|]; apply IH; [|exact Hok].
    now apply insert_or_replace_table_ok.
Qed.

(** X6.  [save_daily_data] keeps the table well formed, whatever the batch:
    if no two rows share [(coin_id, date)], no two rows share an id and no id
    is beyond the autoincrement sequence, the same holds afterwards.  The
    empty table is well formed, so every table reached by saves is. *)
Theorem save_daily_data_keeps_keys_unique :
  forall (coin : string) (data : list daily_record) (now : datetime)
         (db : database),
    table_ok db -> table_ok (snd (save_daily_data coin data now db)).
Proof.
  intros coin data now db. apply save_records_table_ok.
Qed.

Lemma empty_database_table_ok : table_ok empty_database.
Proof. repeat split; constructor. Qed.

(** X6 on a batch that writes one date twice into the empty table. *)
Lemma save_daily_data_keeps_keys_unique_witness :
  table_ok (snd (save_daily_data "bitcoin"
                   [Scenarios.sample_record 738886 (42000 # 1) None;
                    Scenarios.sample_record 738887 (42100 # 1) None;
                    Scenarios.sample_record 738886 (42500 # 1) None]
                   10 empty_database)).
Proof.
  apply (save_daily_data_keeps_keys_unique "bitcoin" _ 10 empty_database).
  exact empty_database_table_ok.
Defined.

(** The rows under one key after the loop of [save_daily_data]. *)
Lemma rows_at_after_save_records (coin : string) (data : list daily_record)
    (now : datetime) (d : date) :
  forall (db : database) (count : Z),
    match last_for d data with
    | Some r =>
        map row_values (rows_at coin d (snd (save_records coin data now count db)))
        = [r]
    | None =>
        rows_at coin d (snd (save_records coin data now count db))
        = rows_at coin d db
    end.
Proof.
  induction data as [|r rest IH]; intros db count; simpl.
  - reflexivity.
  - destruct (r_date r) as [d'|] eqn:Hdate.
    + specialize (IH (insert_or_replace coin d' r now db) (count + 1)).
      destruct (last_for d rest) as [later|]; [exact IH|].
      rewrite IH. destruct (Z.eqb_spec d' d) as [->|Hne].
      * now rewrite rows_at_insert_or_replace.
      * apply rows_at_insert_or_replace_other. congruence.
    + specialize (IH db count).
      destruct (last_for d rest) as [later|]; exact IH.
Qed.

(** X7.  After [save_daily_data] has run over a batch, the rows stored under
    [(coin, d)] are: the single row of the last record of the batch that
    carries date [d], with that record's values, when there is one; what was
    stored before, when the batch has no record of that date. *)
Theorem save_daily_data_batch_last_record_wins :
  forall (coin : string) (data : list daily_record) (now : datetime)
         (db : database) (d : date),
    match last_for d data with
    | Some r =>
        map row_values (rows_at coin d (snd (save_daily_data coin data now db)))
        = [r]
    | None =>
        rows_at coin d (snd (save_daily_data coin data now db))
        = rows_at coin d db
    end.
Proof.
  intros coin data now db d. unfold save_daily_data.
  apply rows_at_after_save_records.
Qed.

Lemma save_records_count (coin : string) (data : list daily_record)
    (now : datetime) (count : Z) (db : database) :
  let result := save_records coin data now count db in
  fst result = count + Z.of_nat (List.length (dated data)) /\
  daily_prices_seq (snd result)
  = daily_prices_seq db + Z.of_nat (List.length (dated data)) /\
  (List.length (daily_prices (snd result))
   <= List.length (daily_prices db) + List.length (dated data))%nat.
Proof.
  revert count db. induction data as [|r rest IH]; intros count db; simpl.
  - repeat split; lia.
  - destruct (r_date r) as [d|]; [|apply IH].
    destruct (IH (count + 1) (insert_or_replace coin d r now db))
      as (Hcount & Hseq & Hlen).
    cbn [List.length]. repeat split.
    + rewrite Hcount. lia.
    + rewrite Hseq. simpl. lia.
    + etransitivity; [exact Hlen|].
      unfold insert_or_replace. cbn [daily_prices].
      rewrite length_app. simpl.
      pose proof (filter_length_le (fun r0 => negb (same_key coin d r0))
                    (daily_prices db)). lia.
Qed.

(** X8.  [save_daily_data] returns the number of records of the batch that
    carry a date (a record without one is skipped), whether or not they
    replaced stored rows; the autoincrement sequence advances by that number,
    and the table grows by at most that many rows. *)
Theorem save_daily_data_counts_dated_records :
  forall (coin : string) (data : list daily_record) (now : datetime)
         (db : database),
    fst (save_daily_data coin data now db)
    = Z.of_nat (List.length (dated data)) /\
    daily_prices_seq (snd (save_daily_data coin data now db))
    = daily_prices_seq db + Z.of_nat (List.length (dated data)) /\
    (List.length (daily_prices (snd (save_daily_data coin data now db)))
     <= List.length (daily_prices db) + List.length (dated data))%nat.
Proof.
  intros coin data now db. unfold save_daily_data.
  destruct (save_records_count coin data now 0 db) as (H1 & H2 & H3).
  repeat split; [rewrite H1; lia|exact H2|exact H3].
Qed.


(** *** The last stored date *)

Lemma get_last_daily_date_none (coin : string) (db : database) :
  get_last_daily_date coin db = None <-> rows_of coin db = [].
Proof.
  unfold get_last_daily_date.
  pose proof (fold_max_date_spec (rows_of coin db) None) as Hspec.
  destruct (fold_left max_date (rows_of coin db) None) as [m|].
  - split; [discriminate|]. intros Hnil. rewrite Hnil in Hspec.
    destruct Hspec as (_ & _ & [(r & [] & _)|Habs]). discriminate.
  - destruct Hspec as [Hnil _]. now split.
Qed.

(** The latest date is determined by the rows of the coin. *)
Lemma get_last_daily_date_unique (coin : string) (db : database) (m : date) :
  (exists r, In r (rows_of coin db) /\ row_date r = m) ->
  (forall r, In r (rows_of coin db) -> row_date r <= m) ->
  get_last_daily_date coin db = Some m.
Proof.
  intros (r & Hin & Hr) Hall.
  destruct (get_last_daily_date coin db) as [m'|] eqn:Hlast.
  - apply get_last_daily_date_is_latest in Hlast as [(r' & Hin' & Hr') Hall'].
    f_equal. specialize (Hall r' Hin'). specialize (Hall' r Hin). lia.
  - apply get_last_daily_date_none in Hlast. rewrite Hlast in Hin.
    destruct Hin.
Qed.

Lemma rows_of_insert_or_replace (coin coin' : string) (d : date)
    (record : daily_record) (now : datetime) (db : database) (r : price_row) :
  In r (rows_of coin' (insert_or_replace coin d record now db)) <->
  (In r (rows_of coin' db) /\ same_key coin d r = false) \/
  (coin' = coin /\
   r = {| row_id := daily_prices_seq db + 1; row_coin_id := coin;
          row_date := d; row_values := record; row_created_at := now |}).
Proof.
  unfold rows_of, insert_or_replace. cbn [daily_prices].
  rewrite filter_In, in_app_iff, filter_In. simpl.
  rewrite negb_true_iff. split.
  - intros [[[Hin Hkey]|[<-|[]]] Hcoin].
    + left. rewrite filter_In. tauto.
    + right. simpl in Hcoin. apply String.eqb_eq in Hcoin. now split.
  - intros [[Hin Hkey]|[-> ->]].
    + apply filter_In in Hin as [Hin Hcoin]. tauto.
    + simpl. rewrite String.eqb_refl. tauto.
Qed.

(** After one [INSERT OR REPLACE] the last date of the coin is the later of
    the old one and the date written; the other coins keep theirs. *)
Lemma get_last_daily_date_insert (coin : string) (d : date)
    (record : daily_record) (now : datetime) (db : database) :
  get_last_daily_date coin (insert_or_replace coin d record now db)
  = Some (match get_last_daily_date coin db with
          | Some m => Z.max m d
          | None => d
          end) /\
  (forall other, other <> coin ->
     get_last_daily_date other (insert_or_replace coin d record now db)
     = get_last_daily_date other db).
Proof.
  split.
  - apply get_last_daily_date_unique.
    + destruct (get_last_daily_date coin db) as [m|] eqn:Hlast.
      * apply get_last_daily_date_is_latest in Hlast as [(r & Hin & Hr) _].
        destruct (Z.max_spec m d) as [[Hlt ->]|[Hge ->]].
        -- eexists. split; [apply rows_of_insert_or_replace; right;
                            split; reflexivity|reflexivity].
        -- destruct (same_key coin d r) eqn:Hkey.
           ++ apply andb_prop in Hkey as [_ Hd]. apply Z.eqb_eq in Hd.
              eexists. split; [apply rows_of_insert_or_replace; right;
                               split; reflexivity|]. simpl. lia.
           ++ exists r. split; [|exact Hr].
              apply rows_of_insert_or_replace. left. now split.
      * eexists. split; [apply rows_of_insert_or_replace; right;
                         split; reflexivity|reflexivity].
    + intros r Hin. apply rows_of_insert_or_replace in Hin as [[Hin _]|[_ ->]].
      * destruct (get_last_daily_date coin db) as [m|] eqn:Hlast.
        -- apply get_last_daily_date_is_latest in Hlast as [_ Hall].
           specialize (Hall r Hin). lia.
        -- apply get_last_daily_date_none in Hlast. rewrite Hlast in Hin.
           destruct Hin.
      * simpl. destruct (get_last_daily_date coin db); lia.
  - intros other Hother. unfold get_last_daily_date. f_equal.
    unfold rows_of, insert_or_replace. cbn [daily_prices].
    rewrite filter_app. simpl.
    destruct (String.eqb_spec coin other) as [Heq|_]; [congruence|].
    rewrite app_nil_r. apply filter_untouched.
    intros r Hr. apply String.eqb_eq in Hr. unfold same_key.
    destruct (String.eqb_spec (row_coin_id r) coin); [congruence|reflexivity].
Qed.

Lemma last_date_after_bounds (data : list daily_record) (last : option date) :
  (forall m, last = Some m ->
     exists m', last_date_after last data = Some m' /\ m <= m') /\
  (forall r d, In r data -> r_date r = Some d ->
     exists m', last_date_after last data = Some m' /\ d <= m') /\
  (forall m', last_date_after last data = Some m' ->
     last = Some m' \/ exists r, In r data /\ r_date r = Some m').
Proof.
  revert last. induction data as [|r rest IH]; intros last; simpl.
  - repeat split.
    + intros m ->. exists m. split; [reflexivity|lia].
    + intros r d [].
    + intros m' ->. now left.
  - destruct (r_date r) as [d|] eqn:Hdate.
    + destruct (IH (Some (match last with Some m => Z.max m d | None => d end)))
        as (Hold & Hnew & Hfrom).
      repeat split.
      * intros m ->. destruct (Hold _ eq_refl) as (m' & Hm' & Hle).
        exists m'. split; [exact Hm'|lia].
      * intros r' d' [<-|Hin] Hd'.
        -- rewrite Hdate in Hd'. injection Hd' as <-.
           destruct (Hold _ eq_refl) as (m' & Hm' & Hle).
           exists m'. split; [exact Hm'|destruct last; lia].
        -- destruct (Hnew r' d' Hin Hd') as (m' & Hm' & Hle). now exists m'.
      * intros m' Hm'. destruct (Hfrom m' Hm') as [Heq|(r' & Hin & Hd')].
        -- injection Heq as Heq. destruct last as [m|].
           ++ destruct (Z.max_spec m d) as [[_ Hmax]|[_ Hmax]];
                rewrite Hmax in Heq.
              ** right. exists r. split; [now left|congruence].
              ** left. congruence.
           ++ right. exists r. split; [now left|congruence].
        -- right. exists r'. split; [now right|exact Hd'].
    + destruct (IH last) as (Hold & Hnew & Hfrom). repeat split.
      * exact Hold.
      * intros r' d' [<-|Hin] Hd'; [congruence|now apply (Hnew r' d')].
      * intros m' Hm'. destruct (Hfrom m' Hm') as [Heq|(r' & Hin & Hd')];
          [now left|]. right. exists r'. split; [now right|exact Hd'].
Qed.

Lemma save_records_last_date (coin : string) (data : list daily_record)
    (now : datetime) (count : Z) (db : database) :
  get_last_daily_date coin (snd (save_records coin data now count db))
  = last_date_after (get_last_daily_date coin db) data /\
  (forall other, other <> coin ->
     get_last_daily_date other (snd (save_records coin data now count db))
     = get_last_daily_date other db).
Proof.
  revert count db. induction data as [|r rest IH]; intros count db; simpl.
  - now split.
  - destruct (r_date r) as [d|]; [|apply IH].
    destruct (IH (count + 1) (insert_or_replace coin d r now db)) as [Hc Ho].
    destruct (get_last_daily_date_insert coin d r now db) as [Hic Hio].
    split.
    + now rewrite Hc, Hic.
    + intros other Hother. now rewrite Ho, Hio.
Qed.

(** X9.  [get_last_daily_date] after [save_daily_data]: the last date of the
    coin never moves back, it is at least every date the batch carries, it is
    either the old last date or a date of the batch, and the last dates of
    the other coins are unchanged. *)
Theorem last_daily_date_after_save :
  forall (coin : string) (data : list daily_record) (now : datetime)
         (db : database),
    let db' := snd (save_daily_data coin data now db) in
    (forall m, get_last_daily_date coin db = Some m ->
       exists m', get_last_daily_date coin db' = Some m' /\ m <= m') /\
    (forall r d, In r data -> r_date r = Some d ->
       exists m', get_last_daily_date coin db' = Some m' /\ d <= m') /\
    (forall m', get_last_daily_date coin db' = Some m' ->
       get_last_daily_date coin db = Some m' \/
       exists r, In r data /\ r_date r = Some m') /\
    (forall other, other <> coin ->
       get_last_daily_date other db' = get_last_daily_date other db).
Proof.
  intros coin data now db db'. subst db'. unfold save_daily_data.
  destruct (save_records_last_date coin data now 0 db) as [Hc Ho].
  rewrite Hc.
  destruct (last_date_after_bounds data (get_last_daily_date coin db))
    as (Hold & Hnew & Hfrom).
  repeat split; assumption.
Qed.


(** *** Queries *)

Lemma insert_by_date_perm (r : price_row) (l : list price_row) :
  Permutation (insert_by_date r l) (r :: l).
Proof.
  induction l as [|x l IH]; simpl; [reflexivity|].
  destruct (row_date r <=? row_date x); [reflexivity|].
  rewrite IH. apply perm_swap.
Qed.

Lemma order_by_date_perm (l : list price_row) :
  Permutation (order_by_date l) l.
Proof.
  induction l as [|x l IH]; simpl; [reflexivity|].
  rewrite insert_by_date_perm. now constructor.
Qed.

Lemma insert_by_date_sorted (r : price_row) (l : list price_row) :
  Sorted by_date l -> Sorted by_date (insert_by_date r l).
Proof.
  induction l as [|x l IH]; intros Hs; simpl.
  - repeat constructor.
  - destruct (Z.leb_spec (row_date r) (row_date x)) as [Hle|Hgt].
    + constructor; [exact Hs|]. constructor. exact Hle.
    + apply Sorted_inv in Hs as [Hs Hhd]. constructor; [now apply IH|].
      destruct l as [|y l]; simpl.
      * constructor. unfold by_date. lia.
      * destruct (Z.leb_spec (row_date r) (row_date y)).
        -- constructor. unfold by_date. lia.
        -- constructor. now apply HdRel_inv in Hhd.
Qed.

Lemma order_by_date_sorted (l : list price_row) :
  Sorted by_date (order_by_date l).
Proof.
  induction l as [|x l IH]; simpl; [constructor|].
  now apply insert_by_date_sorted.
Qed.

(** X10.  [get_daily_data] returns the stored rows of the coin whose date
    lies within the bounds given, each as often as it is stored and no other
    row, in ascending order of date. *)
Theorem get_daily_data_sorted_selection :
  forall (coin : string) (start_date end_date : option date) (db : database),
    Sorted by_date (get_daily_data coin start_date end_date db) /\
    Permutation (get_daily_data coin start_date end_date db)
      (filter (fun r => String.eqb (row_coin_id r) coin
                        && in_range start_date end_date r)
              (daily_prices db)) /\
    (forall r, In r (get_daily_data coin start_date end_date db) <->
       In r (daily_prices db) /\ row_coin_id r = coin /\
       (forall s, start_date = Some s -> s <= row_date r) /\
       (forall e, end_date = Some e -> row_date r <= e)).
Proof.
  intros coin start_date end_date db. unfold get_daily_data.
  assert (Hfilter : filter (in_range start_date end_date) (rows_of coin db)
                    = filter (fun r => String.eqb (row_coin_id r) coin
                                       && in_range start_date end_date r)
                        (daily_prices db)).
  { unfold rows_of. induction (daily_prices db) as [|x l IH]; simpl;
      [reflexivity|].
    destruct (String.eqb (row_coin_id x) coin); simpl; [|exact IH].
    destruct (in_range start_date end_date x); now rewrite IH. }
  split; [apply order_by_date_sorted|].
  split; [rewrite <- Hfilter; apply order_by_date_perm|].
  intros r.
  assert (Hmem : In r (order_by_date
                         (filter (in_range start_date end_date) (rows_of coin db)))
                 <-> In r (filter (in_range start_date end_date) (rows_of coin db))).
  { split; apply Permutation_in;
      [apply order_by_date_perm|symmetry; apply order_by_date_perm]. }
  rewrite Hmem, Hfilter, filter_In, andb_true_iff, String.eqb_eq.
  unfold in_range. rewrite andb_true_iff. split.
  - intros (Hin & Hcoin & Hs & He). repeat split; try assumption.
    + intros s ->. now apply Z.leb_le.
    + intros e ->. now apply Z.leb_le.
  - intros (Hin & Hcoin & Hs & He). repeat split; try assumption.
    + destruct start_date as [s|]; [|reflexivity].
      apply Z.leb_le. now apply Hs.
    + destruct end_date as [e|]; [|reflexivity].
      apply Z.leb_le. now apply He.
Qed.


Lemma in_range_single (coin : string) (d : date) (db : database) :
  filter (in_range (Some d) (Some d)) (rows_of coin db) = rows_at coin d db.
Proof.
  unfold rows_of, rows_at. induction (daily_prices db) as [|x l IH]; simpl;
    [reflexivity|].
  unfold same_key at 1.
  destruct (String.eqb (row_coin_id x) coin); simpl; [|exact IH].
  unfold in_range at 1.
  destruct (Z.leb_spec d (row_date x)), (Z.leb_spec (row_date x) d),
    (Z.eqb_spec (row_date x) d); simpl; try lia; now rewrite IH.
Qed.

(** X11.  What [save_daily_data] stored for a date is what [get_daily_data]
    reads back for that date: after a batch whose last record of date [d] is
    [r], the query for the range [d .. d] returns exactly one row, with the
    values of [r]. *)
Theorem saved_record_is_read_back :
  forall (coin : string) (data : list daily_record) (now : datetime)
         (db : database) (d : date) (r : daily_record),
    last_for d data = Some r ->
    map row_values
      (get_daily_data coin (Some d) (Some d)
         (snd (save_daily_data coin data now db)))
    = [r].
Proof.
  intros coin data now db d r Hlast. unfold get_daily_data.
  rewrite in_range_single.
  pose proof (rows_at_after_save_records coin data now d db 0) as Hrows.
  fold (save_daily_data coin data now db) in Hrows.
  rewrite Hlast in Hrows.
  destruct (rows_at coin d (snd (save_daily_data coin data now db)))
    as [|x [|y rest]]; try discriminate.
  exact Hrows.
Qed.

(** X11 on a batch that writes 2024-01-01 twice: the second close is read
    back. *)
Lemma saved_record_is_read_back_witness :
  map row_values
    (get_daily_data "bitcoin" (Some 738886) (Some 738886)
       (snd (save_daily_data "bitcoin"
               [Scenarios.sample_record 738886 (42000 # 1) (Some (8 # 1));
                Scenarios.sample_record 738887 (42100 # 1) None;
                Scenarios.sample_record 738886 (42500 # 1) None]
               10 empty_database)))
  = [Scenarios.sample_record 738886 (42500 # 1) None].
Proof.
  apply (saved_record_is_read_back "bitcoin" _ 10 empty_database 738886).
  reflexivity.
Defined.

Lemma same_coin_dates_distinct (coin : string) (l : list price_row) :
  (forall r, In r l -> row_coin_id r = coin) ->
  NoDup (map key_of l) -> NoDup (map row_date l).
Proof.
  induction l as [|x l IH]; simpl; intros Hcoin Hnd; [constructor|].
  inversion Hnd as [|? ? Hnotin Hrest]; subst.
  constructor.
  - intros Hin. apply Hnotin. apply in_map_iff in Hin as (y & Hy & Hin).
    apply in_map_iff. exists y. split; [|exact Hin].
    unfold key_of. rewrite Hy.
    rewrite (Hcoin y (or_intror Hin)), (Hcoin x (or_introl eq_refl)).
    reflexivity.
  - apply IH; [|exact Hrest]. intros r Hr. apply Hcoin. now right.
Qed.

Lemma sorted_distinct_strict (l : list price_row) :
  StronglySorted by_date l -> NoDup (map row_date l) ->
  StronglySorted (fun a b => row_date a < row_date b) l.
Proof.
  induction l as [|x l IH]; simpl; intros Hs Hnd; [constructor|].
  apply StronglySorted_inv in Hs as [Hs Hall].
  inversion Hnd as [|? ? Hnotin Hrest]; subst.
  constructor; [now apply IH|].
  rewrite Forall_forall in *. intros y Hy.
  specialize (Hall y Hy). unfold by_date in Hall.
  assert (row_date x <> row_date y).
  { intros Heq. apply Hnotin. rewrite Heq. now apply in_map. }
  lia.
Qed.

(** X12.  On a well-formed table [get_daily_data] returns at most one row
    per date: the dates of its result are strictly ascending. *)
Theorem get_daily_data_one_row_per_date :
  forall (coin : string) (start_date end_date : option date) (db : database),
    table_ok db ->
    StronglySorted (fun a b => row_date a < row_date b)
      (get_daily_data coin start_date end_date db).
Proof.
  intros coin start_date end_date db (Hkeys & _ & _).
  unfold get_daily_data.
  set (rows := filter (in_range start_date end_date) (rows_of coin db)).
  pose proof (order_by_date_perm rows) as Hperm.
  apply sorted_distinct_strict.
  - apply Sorted_StronglySorted; [|apply order_by_date_sorted].
    intros a b c. unfold by_date. lia.
  - apply (same_coin_dates_distinct coin).
    + intros r Hr. apply (Permutation_in _ Hperm) in Hr.
      unfold rows, rows_of in Hr.
      apply filter_In in Hr as [Hr _]. apply filter_In in Hr as [_ Hr].
      now apply String.eqb_eq.
    + apply (Permutation_NoDup (l := map key_of rows)).
      * apply Permutation_map. now symmetry.
      * unfold rows, rows_of. now apply NoDup_map_filter, NoDup_map_filter.
Qed.

(** X12 on the table of X6's batch. *)
Lemma get_daily_data_one_row_per_date_witness :
  StronglySorted (fun a b => row_date a < row_date b)
    (get_daily_data "bitcoin" None None
       (snd (save_daily_data "bitcoin"
               [Scenarios.sample_record 738887 (42100 # 1) None;
                Scenarios.sample_record 738886 (42000 # 1) None;
                Scenarios.sample_record 738887 (42500 # 1) None]
               10 empty_database))).
Proof.
  apply (get_daily_data_one_row_per_date "bitcoin" None None).
  apply save_records_table_ok. exact empty_database_table_ok.
Defined.

Lemma mentions_iff (names : list string) (c : string) :
  mentions names c = true <-> In c names.
Proof.
  unfold mentions. rewrite existsb_exists. split.
  - intros (x & Hin & Hx). apply String.eqb_eq in Hx. now subst.
  - intros Hin. exists c. split; [exact Hin|apply String.eqb_refl].
Qed.

(** X13.  Whatever column names [get_daily_data_compact] is called with
    (empty, unknown, or text that is no column name), the columns it selects
    are never empty and each is one of the seven allowed names; they are the
    allowed ones among those asked for, in the order asked, or the default
    [date, close, volume] when none of those asked for is allowed.  The
    result has the rows of [get_daily_data], each with one cell per selected
    column. *)
Theorem compact_query_selects_allowed_columns :
  forall (coin : string) (start_date end_date : option date)
         (columns : list string) (db : database),
    let result := get_daily_data_compact coin start_date end_date columns db in
    fst result <> [] /\
    (forall c, In c (fst result) -> In c allowed) /\
    (fst result = filter (mentions allowed) columns \/
     ((forall c, In c columns -> ~ In c allowed) /\
      fst result = ["date"; "close"; "volume"]%string)) /\
    List.length (snd result)
    = List.length (get_daily_data coin start_date end_date db) /\
    (forall row, In row (snd result) ->
       List.length row = List.length (fst result)).
Proof.
  intros coin start_date end_date columns db result. subst result.
  unfold get_daily_data_compact. cbn [fst snd]. unfold select_columns.
  destruct (filter (mentions allowed) columns) as [|c cols] eqn:Hsel.
  - repeat split.
    + discriminate.
    + intros c [<-|[<-|[<-|[]]]]; unfold allowed; simpl; tauto.
    + right. split; [|reflexivity]. intros c Hin Hallowed.
      assert (Habs : In c (filter (mentions allowed) columns)).
      { apply filter_In. split; [exact Hin|now apply mentions_iff]. }
      rewrite Hsel in Habs. destruct Habs.
    + now rewrite length_map.
    + intros row Hrow. apply in_map_iff in Hrow as (r & <- & _).
      now rewrite length_map.
  - repeat split.
    + discriminate.
    + intros c' Hin. rewrite <- Hsel in Hin.
      apply filter_In in Hin as [_ Hm]. now apply mentions_iff.
    + now left.
    + now rewrite length_map.
    + intros row Hrow. apply in_map_iff in Hrow as (r & <- & _).
      now rewrite length_map.
Qed.

End Table.

(** ** Runs of the historical collector *)

Section CollectorRun.

Import Json DatabaseManager DatabaseQueries HistoricalCollector Observations CollectorRuns.

Variable api : nat -> reply.

(** *** Composition *)

Section Composition.

Variables R E : collector -> collector -> Prop.
Hypothesis R_refl : forall w, R w w.
Hypothesis E_refl : forall w, E w w.
Hypothesis R_trans : forall a b c, R a b -> R b c -> R a c.
Hypothesis E_after : forall a b c, R a b -> E b c -> E a c.

Lemma preserves_ret {A : Type} (a : A) : preserves R E (ret a).
Proof. intros w. apply R_refl. Qed.

Lemma preserves_raise {A : Type} : preserves R E (@raise A).
Proof. intros w. apply E_refl. Qed.

Lemma preserves_get : preserves R E get.
Proof. intros w. apply R_refl. Qed.

Lemma preserves_bind {A B : Type} (m : M A) (k : A -> M B) :
  preserves R E m -> (forall a, preserves R E (k a)) ->
  preserves R E (bind m k).
Proof.
  intros Hm Hk w. unfold bind. specialize (Hm w).
  destruct (m w) as [[a|] w1]; cbn [fst snd] in *; [|exact Hm].
  specialize (Hk a w1).
  destruct (fst (k a w1)); [eapply R_trans|eapply E_after]; eassumption.
Qed.

Lemma preserves_the_progress (coin : string) :
  preserves R E (the_progress coin).
Proof.
  unfold the_progress. apply preserves_bind; [apply preserves_get|].
  intros w. destruct (lookup coin (progress w));
    [apply preserves_ret|apply preserves_raise].
Qed.

Variable coin : string.
Variable c : coin_constants.

Hypothesis R_request_info : preserves R E (make_api_request api coin coin_info).
Hypothesis R_store_metadata :
  forall info, preserves R E (store_metadata coin c info).
Hypothesis R_collect_page :
  forall start needed n tc,
    preserves R E (collect_page api coin start needed n tc).
Hypothesis R_finish_collection :
  forall tc, preserves R E (finish_collection coin tc).
Hypothesis R_start_collection : preserves R E (start_collection coin).

Lemma preserves_page_loop (start : datetime) (needed : Z) (remaining : nat) :
  forall n tc, preserves R E (page_loop api coin start needed remaining n tc).
Proof.
  induction remaining as [|k IH]; intros n tc; cbn [page_loop].
  - apply preserves_ret.
  - apply preserves_bind; [apply R_collect_page|]. intros total. apply IH.
Qed.

Lemma preserves_collect_data : preserves R E (collect_data api coin c).
Proof.
  unfold collect_data.
  apply preserves_bind; [apply preserves_get|]. intros w0.
  apply preserves_bind.
  { destruct (lookup coin (progress w0));
      [apply preserves_ret|apply R_start_collection]. }
  intros _. apply preserves_bind; [apply preserves_the_progress|]. intros p.
  destruct (job_status_eqb (status p) Completed); [apply preserves_ret|].
  apply preserves_bind; [apply R_request_info|]. intros info.
  apply preserves_bind; [apply R_store_metadata|]. intros _.
  apply preserves_bind; [apply preserves_page_loop|]. intros total.
  apply R_finish_collection.
Qed.

End Composition.

(** A relation kept whether the call returns or raises. *)
Lemma preserves_always {A : Type} (R : collector -> collector -> Prop)
    (m : M A) :
  (forall w, R w (snd (m w))) -> preserves R R m.
Proof. intros H w. destruct (fst (m w)); apply H. Qed.

Lemma preserved_always {A : Type} (R : collector -> collector -> Prop)
    (m : M A) (w : collector) :
  preserves R R m -> R w (snd (m w)).
Proof. intros H. specialize (H w). now destruct (fst (m w)). Qed.

(** *** Effects of the steps *)

Ltac exec :=
  unfold collect_page, make_api_request, store_metadata, finish_collection,
    start_collection, initialize_collection, the_progress, update_progress,
    save_progress, sleep, modify, get, ret, raise, bind; cbn.

Ltac fields := unfold with_stats, with_db, with_progress, record_request; cbn.

Ltac job H :=
  cbn; rewrite H; cbn; rewrite ?lookup_store_same; cbn;
  rewrite ?lookup_store_same.

Ltac conj := repeat match goal with |- _ /\ _ => split end.

Lemma accounted_refl (w : collector) : accounted w w.
Proof. unfold accounted. cbv zeta. lia. Qed.

Lemma accounted_trans (a b c : collector) :
  accounted a b -> accounted b c -> accounted a c.
Proof. unfold accounted. cbv zeta. lia. Qed.

Lemma accounted_quiet (w w' : collector) :
  stats w' = stats w -> calls w' = calls w -> accounted w w'.
Proof. intros Hs Hc. unfold accounted. rewrite Hs, Hc. cbv zeta. lia. Qed.

Lemma untouched_refl (coin : string) (w : collector) :
  untouched_elsewhere coin w w.
Proof. intros other _. auto. Qed.

Lemma untouched_trans (coin : string) (a b c : collector) :
  untouched_elsewhere coin a b -> untouched_elsewhere coin b c ->
  untouched_elsewhere coin a c.
Proof.
  intros Hab Hbc other Hne.
  destruct (Hab other Hne) as (H1 & H2 & H3).
  destruct (Hbc other Hne) as (H4 & H5 & H6).
  repeat split; congruence.
Qed.

Lemma untouched_quiet (coin : string) (w w' : collector) :
  progress w' = progress w -> db w' = db w -> untouched_elsewhere coin w w'.
Proof. intros Hp Hd other _. rewrite Hp, Hd. auto. Qed.

Lemma lookup_updated_other (coin other : string)
    (f : CollectionProgress -> CollectionProgress)
    (d : list (string * CollectionProgress)) :
  other <> coin ->
  lookup other (match lookup coin d with
                | Some p => store coin (f p) d
                | None => d
                end) = lookup other d.
Proof.
  intros Hne. destruct (lookup coin d); [|reflexivity].
  now apply lookup_store_other.
Qed.

Lemma lookup_updated_same (coin : string)
    (f : CollectionProgress -> CollectionProgress)
    (d : list (string * CollectionProgress)) (p : CollectionProgress) :
  lookup coin d = Some p ->
  lookup coin (match lookup coin d with
               | Some p => store coin (f p) d
               | None => d
               end) = Some (f p).
Proof. intros H. rewrite H. apply lookup_store_same. Qed.

Lemma filter_filter_other {A : Type} (p q : A -> bool) (l : list A) :
  (forall x, p x = true -> q x = true) ->
  filter p (filter q l) = filter p l.
Proof.
  intros Hpq. induction l as [|x l IH]; simpl; [reflexivity|].
  destruct (q x) eqn:Hq; simpl.
  - now rewrite IH.
  - destruct (p x) eqn:Hp; [|exact IH].
    apply Hpq in Hp. congruence.
Qed.

Lemma rows_of_insert_other (coin other : string) (d : date)
    (record : daily_record) (now : datetime) (db : database) :
  other <> coin ->
  rows_of other (insert_or_replace coin d record now db) = rows_of other db.
Proof.
  intros Hne. unfold rows_of, insert_or_replace. cbn [daily_prices].
  rewrite filter_app. cbn [filter row_coin_id].
  destruct (String.eqb_spec coin other) as [->|_]; [congruence|].
  rewrite app_nil_r. apply filter_filter_other.
  intros x Hx. unfold same_key.
  apply String.eqb_eq in Hx. rewrite Hx.
  destruct (String.eqb_spec other coin); [congruence|reflexivity].
Qed.

Lemma save_records_elsewhere (coin other : string) (data : list daily_record)
    (now : datetime) (count : Z) (db : database) :
  other <> coin ->
  rows_of other (snd (save_records coin data now count db)) = rows_of other db.
Proof.
  intros Hne. revert count db.
  induction data as [|r rest IH]; intros count db; simpl; [reflexivity|].
  destruct (r_date r) as [d|]; rewrite IH; [|reflexivity].
  now apply rows_of_insert_other.
Qed.

Lemma save_records_metadata (coin : string) (data : list daily_record)
    (now : datetime) (count : Z) (db : database) :
  coin_metadata (snd (save_records coin data now count db)) = coin_metadata db /\
  collection_stats (snd (save_records coin data now count db))
  = collection_stats db.
Proof.
  revert count db.
  induction data as [|r rest IH]; intros count db; simpl; [auto|].
  destruct (r_date r) as [d|]; [|apply IH].
  destruct (IH (count + 1) (insert_or_replace coin d r now db)) as [H1 H2].
  now rewrite H1, H2.
Qed.

Lemma metadata_of_saved_other (coin other : string) (m : metadata)
    (db : database) :
  other <> coin ->
  metadata_of other (save_coin_metadata coin m db) = metadata_of other db.
Proof.
  intros Hne. unfold metadata_of, save_coin_metadata. cbn [coin_metadata].
  rewrite filter_app. cbn [filter fst].
  destruct (String.eqb_spec coin other) as [->|_]; [congruence|].
  rewrite app_nil_r. apply filter_filter_other.
  intros x Hx. apply String.eqb_eq in Hx. rewrite Hx.
  destruct (String.eqb_spec other coin); [congruence|reflexivity].
Qed.

(** [_make_api_request] always returns; it makes one provider call. *)
Lemma make_api_request_effect (coin : string) (e : endpoint) (w : collector) :
  exists r w' cool,
    make_api_request api coin e w = (Returns r, w') /\
    progress w' = progress w /\
    progress_file w' = progress_file w /\
    db w' = db w /\
    calls w' = S (calls w) /\
    events w' = events w ++ Slept 100000 :: Requested coin e :: cool /\
    (cool = [] \/ cool = [Slept 60000000]) /\
    accounted w w' /\
    r = match api (calls w) with
        | Answer a => Some a
        | Failure _ => None
        end.
Proof.
  exec. destruct (api (calls w)) as [a|msg]; cbn.
  - eexists _, _, []. conj; fields; try reflexivity.
    + now rewrite <- app_assoc.
    + now left.
    + unfold accounted; cbn -[Nat.sub Z.of_nat]; lia.
  - destruct (Str.contains "rate limit" (Str.lower msg)); cbn.
    + eexists _, _, [Slept 60000000].
      conj; fields; try reflexivity.
      * now rewrite <- !app_assoc.
      * now right.
      * unfold accounted; cbn -[Nat.sub Z.of_nat]; lia.
    + eexists _, _, []. conj; fields; try reflexivity.
      * now rewrite <- app_assoc.
      * now left.
      * unfold accounted; cbn -[Nat.sub Z.of_nat]; lia.
Qed.

Lemma process_prices_dated (start : date) (prices : list point) :
  forall (i : nat) (caps volumes : list point) (acc : list daily_record),
    dated acc = acc ->
    dated (process_prices start prices i caps volumes acc)
    = process_prices start prices i caps volumes acc.
Proof.
  induction prices as [|[d price] rest IH]; intros i caps volumes acc Hacc;
    cbn [process_prices]; [exact Hacc|].
  destruct (d <? start); apply IH; [exact Hacc|].
  unfold dated in *. rewrite filter_app, Hacc. reflexivity.
Qed.

Lemma process_market_chart_data_dated (prices : list point)
    (caps volumes : field (list point)) (start : datetime) :
  dated (process_market_chart_data prices caps volumes start)
  = process_market_chart_data prices caps volumes start.
Proof.
  unfold process_market_chart_data.
  destruct (is_null caps || is_null volumes); [reflexivity|].
  now apply process_prices_dated.
Qed.

Lemma saved_count_of_page (coin : string) (prices : list point)
    (caps volumes : field (list point)) (start now : datetime)
    (db : database) :
  fst (save_daily_data coin
         (process_market_chart_data prices caps volumes start) now db)
  = Z.of_nat (List.length (process_market_chart_data prices caps volumes start)).
Proof.
  unfold save_daily_data.
  destruct (save_records_count coin
              (process_market_chart_data prices caps volumes start) now 0 db)
    as (Hcount & _).
  rewrite Hcount, process_market_chart_data_dated. lia.
Qed.

Lemma job_advanced_refl (p : CollectionProgress) : job_advanced p p.
Proof.
  unfold job_advanced. conj; try reflexivity; try lia.
  exists []. now rewrite app_nil_r.
Qed.

Lemma job_advanced_trans (p q r : CollectionProgress) :
  job_advanced p q -> job_advanced q r -> job_advanced p r.
Proof.
  intros (H1 & H2 & H3 & H4 & H5 & H6 & H7 & a & Ha)
         (G1 & G2 & G3 & G4 & G5 & G6 & G7 & b & Hb).
  unfold job_advanced. conj; try congruence; try lia.
  exists (a ++ b). now rewrite Hb, Ha, app_assoc.
Qed.

(** A page whose answer carries a null ['prices']: the page raises after
    its provider call, before the 2 s pause. *)
Lemma collect_page_raises (coin : string) (start : datetime)
    (needed n tc : Z) (w : collector) :
  prices_null (api (calls w)) = true ->
  exists w',
    collect_page api coin start needed n tc w = (Raises, w') /\
    progress w' = progress w /\
    progress_file w' = progress_file w /\
    db w' = db w /\
    calls w' = S (calls w) /\
    events w'
    = events w
      ++ [Slept 100000;
          Requested coin
            (market_chart (Z.min max_days_per_request (needed - tc)))] /\
    accounted w w'.
Proof.
  intros Hnull. unfold prices_null in Hnull.
  destruct (api (calls w)) as [[|i|[| |prices] caps volumes]|msg] eqn:Hapi;
    try discriminate.
  exec. rewrite Hapi. cbn. eexists. conj; fields; try reflexivity.
  - now rewrite <- app_assoc.
  - unfold accounted; cbn -[Nat.sub Z.of_nat]; lia.
Qed.

(** Any other page: one provider call, then the 2 s pause; the page
    returns. *)
Lemma collect_page_effect (coin : string) (start : datetime)
    (needed n tc : Z) (w : collector) :
  prices_null (api (calls w)) = false ->
  exists total w' cool,
    collect_page api coin start needed n tc w = (Returns total, w') /\
    calls w' = S (calls w) /\
    events w'
    = events w
      ++ Slept 100000
         :: Requested coin
              (market_chart (Z.min max_days_per_request (needed - tc)))
         :: cool ++ [Slept 2000000] /\
    (cool = [] \/ cool = [Slept 60000000]) /\
    accounted w w' /\
    untouched_elsewhere coin w w' /\
    collection_stats (db w') = collection_stats (db w) /\
    tc <= total /\
    (forall p,
       lookup coin (progress w) = Some p ->
       exists p',
         lookup coin (progress w') = Some p' /\
         job_advanced p p' /\
         status p' = status p /\
         collection_end p' = collection_end p /\
         collected_days p' - collected_days p = total - tc /\
         (List.length (errors p') <= List.length (errors p) + 1)%nat).
Proof.
  intros Hnull. unfold collect_page.
  destruct (make_api_request_effect coin
              (market_chart (Z.min max_days_per_request (needed - tc))) w)
    as (r & w1 & cool & Hrun & Hp & Hpf & Hdb & Hcalls & Hev & Hcool & Hacc & Hr).
  rewrite (bind_returns _ _ _ _ _ Hrun).
  assert (Hnot : forall caps volumes, r <> Some (MarketChart Null caps volumes)).
  { intros caps volumes Habs. rewrite Habs in Hr.
    destruct (api (calls w)) as [a|msg]; [|discriminate].
    injection Hr as <-. discriminate Hnull. }
  destruct r as [[|i|[| |prices] caps volumes]|];
    try (exfalso; eapply Hnot; reflexivity).
  1, 2, 3, 5:
    exec; eexists _, _, cool; conj; fields;
    [ reflexivity | exact Hcalls | rewrite Hev, <- app_assoc; reflexivity
    | exact Hcool
    | eapply accounted_trans; [exact Hacc|];
      apply accounted_quiet; reflexivity
    | intros other Hne; cbn; rewrite !lookup_updated_other by exact Hne;
      rewrite Hp, Hdb; auto
    | now rewrite Hdb
    | lia
    | intros p Hlook; rewrite <- Hp in Hlook; job Hlook;
      eexists; conj;
      [ reflexivity
      | unfold job_advanced; cbn; conj; try reflexivity; try lia;
        eexists; reflexivity
      | reflexivity | reflexivity | cbn; lia
      | cbn; rewrite length_app; cbn; lia ] ].
  destruct (process_market_chart_data prices caps volumes start)
    as [|record more] eqn:Hdata.
  - exec. eexists _, _, cool. conj; fields.
    + reflexivity.
    + exact Hcalls.
    + rewrite Hev, <- app_assoc. reflexivity.
    + exact Hcool.
    + eapply accounted_trans; [exact Hacc|].
      apply accounted_quiet; reflexivity.
    + intros other Hne; cbn. rewrite !lookup_updated_other by exact Hne.
      rewrite Hp, Hdb. auto.
    + now rewrite Hdb.
    + lia.
    + intros p Hlook. rewrite <- Hp in Hlook. job Hlook. eexists. conj.
      * reflexivity.
      * unfold job_advanced; cbn; conj; try reflexivity; try lia.
        eexists; reflexivity.
      * reflexivity.
      * reflexivity.
      * cbn; lia.
      * cbn. rewrite length_app. cbn. lia.
  - cbv beta iota. rewrite <- Hdata.
    pose proof (saved_count_of_page coin prices caps volumes start) as Hcount.
    remember (process_market_chart_data prices caps volumes start) as data
      eqn:Hd.
    clear Hd Hdata. unfold save_daily_data in Hcount.
    exec. unfold save_daily_data. eexists _, _, cool. conj; fields.
    + reflexivity.
    + exact Hcalls.
    + rewrite Hev, <- app_assoc. reflexivity.
    + exact Hcool.
    + eapply accounted_trans; [exact Hacc|].
      apply accounted_quiet; reflexivity.
    + intros other Hne; cbn. rewrite !lookup_updated_other by exact Hne.
      rewrite save_records_elsewhere by exact Hne.
      unfold metadata_of.
      rewrite (proj1 (save_records_metadata _ _ _ _ _)).
      rewrite Hp, Hdb. auto.
    + cbn. rewrite (proj2 (save_records_metadata _ _ _ _ _)). now rewrite Hdb.
    + rewrite Hcount. lia.
    + intros p Hlook. rewrite <- Hp in Hlook. job Hlook. eexists. conj.
      * reflexivity.
      * unfold job_advanced; cbn; conj; try reflexivity; try lia.
        exists []. now rewrite app_nil_r.
      * reflexivity.
      * reflexivity.
      * cbn. rewrite Hcount. lia.
      * cbn. lia.
Qed.

(** The page loop when no answer carries a null ['prices']: [remaining]
    pages, each with one provider call. *)
Lemma page_loop_effect (coin : string) (start : datetime) (needed : Z)
    (remaining : nat) :
  (forall k, prices_null (api k) = false) ->
  forall (n tc : Z) (w : collector),
  exists total w' reqs,
    page_loop api coin start needed remaining n tc w = (Returns total, w') /\
    calls w' = (calls w + remaining)%nat /\
    chart_requests (events w') = chart_requests (events w) ++ reqs /\
    List.length reqs = remaining /\
    Forall (fun d => d <= max_days_per_request /\ d <= needed - tc) reqs /\
    collection_stats (db w') = collection_stats (db w) /\
    tc <= total /\
    (forall p,
       lookup coin (progress w) = Some p ->
       exists p',
         lookup coin (progress w') = Some p' /\
         job_advanced p p' /\
         status p' = status p /\
         collection_end p' = collection_end p /\
         collected_days p' - collected_days p = total - tc /\
         (List.length (errors p') <= List.length (errors p) + remaining)%nat).
Proof.
  intros Hprices.
  induction remaining as [|k IH]; intros n tc w; cbn [page_loop].
  - exists tc, w, []. conj; try reflexivity; try lia;
      try (now rewrite app_nil_r); try (now constructor).
    intros p Hp. exists p. conj; try reflexivity; try lia; try assumption.
    apply job_advanced_refl.
  - destruct (collect_page_effect coin start needed (n + 1) tc w
                (Hprices (calls w)))
      as (t1 & w1 & cool & Hrun & Hcalls & Hev & Hcool & _ & _ & Hst & Hle & Hjob).
    rewrite (bind_returns _ _ _ _ _ Hrun).
    destruct (IH (n + 1) t1 w1)
      as (total & w' & reqs & Hrun' & Hcalls' & Hev' & Hlen & Hall & Hst' & Hle'
          & Hjob').
    exists total, w', (Z.min max_days_per_request (needed - tc) :: reqs).
    conj.
    + exact Hrun'.
    + rewrite Hcalls', Hcalls. lia.
    + rewrite Hev', Hev, chart_requests_app. cbn [chart_requests].
      replace (chart_requests (cool ++ [Slept 2000000])) with (@nil Z).
      * now rewrite <- app_assoc.
      * destruct Hcool as [-> | ->]; reflexivity.
    + cbn. now rewrite Hlen.
    + constructor; [lia|].
      eapply Forall_impl; [|exact Hall]. cbv beta. intros d Hd. lia.
    + congruence.
    + lia.
    + intros p Hp. destruct (Hjob p Hp) as (p1 & Hp1 & Hadv & Hs & He & Hc & Hn).
      destruct (Hjob' p1 Hp1) as (p' & Hp' & Hadv' & Hs' & He' & Hc' & Hn').
      exists p'. conj; try congruence; try lia.
      eapply job_advanced_trans; eassumption.
Qed.

(** What the steps around the pages leave alone. *)
Lemma store_metadata_quiet (coin : string) (c : coin_constants)
    (info : option response) (w : collector) :
  let w' := snd (store_metadata coin c info w) in
  progress w' = progress w /\
  progress_file w' = progress_file w /\
  stats w' = stats w /\
  calls w' = calls w /\
  events w' = events w /\
  daily_prices (db w') = daily_prices (db w) /\
  collection_stats (db w') = collection_stats (db w) /\
  (forall other, other <> coin ->
     metadata_of other (db w') = metadata_of other (db w)).
Proof.
  unfold store_metadata.
  destruct info as [[|i|prices caps volumes]|]; cbn;
    try (conj; reflexivity).
  - destruct (build_metadata c (CoinInfo i)); cbn; conj; try reflexivity.
    intros other Hne. now apply metadata_of_saved_other.
  - conj; try reflexivity.
    intros other Hne. now apply metadata_of_saved_other.
Qed.

Lemma finish_collection_quiet (coin : string) (tc : Z) (w : collector) :
  let w' := snd (finish_collection coin tc w) in
  stats w' = stats w /\
  calls w' = calls w /\
  events w' = events w /\
  daily_prices (db w') = daily_prices (db w) /\
  coin_metadata (db w') = coin_metadata (db w) /\
  (forall other, other <> coin ->
     lookup other (progress w') = lookup other (progress w)).
Proof.
  exec. destruct (lookup coin (progress w)) as [p|] eqn:Hp; cbn;
    [|conj; reflexivity].
  destruct (reached_threshold p); cbn.
  - destruct (collection_start p); cbn; conj; try reflexivity;
      intros other Hne; now rewrite !lookup_updated_other by exact Hne.
  - conj; try reflexivity.
    intros other Hne. now rewrite !lookup_updated_other by exact Hne.
Qed.

Lemma start_collection_quiet (coin : string) (w : collector) :
  let w' := snd (start_collection coin w) in
  stats w' = stats w /\
  calls w' = calls w /\
  events w' = events w /\
  db w' = db w /\
  (forall other, other <> coin ->
     lookup other (progress w') = lookup other (progress w)).
Proof.
  unfold start_collection, initialize_collection.
  destruct (start_date_of coin start_dates) as [start|];
    [|cbn; conj; reflexivity].
  exec. conj; try reflexivity.
  intros other Hne. rewrite !lookup_updated_other by exact Hne.
  now apply lookup_store_other.
Qed.

(** *** The API counters *)

(** X14.  Whatever the provider answers and however the run of
    [collect_bitcoin_data] / [collect_ethereum_data] ends (True, False or an
    exception), the API counters account for the provider calls it made:
    [total_requests] grows by the number of calls, each call is counted once
    as successful or once as failed, and [rate_limit_hits] grows by at most
    the number of failed calls. *)
Theorem api_counters_account_for_every_call :
  forall (coin : string) (c : coin_constants) (w : collector),
    let w' := snd (collect_data api coin c w) in
    (calls w <= calls w')%nat /\
    total_requests (stats w') - total_requests (stats w)
    = Z.of_nat (calls w' - calls w) /\
    total_requests (stats w') - total_requests (stats w)
    = (successful_requests (stats w') - successful_requests (stats w))
      + (failed_requests (stats w') - failed_requests (stats w)) /\
    0 <= successful_requests (stats w') - successful_requests (stats w) /\
    0 <= rate_limit_hits (stats w') - rate_limit_hits (stats w)
      <= failed_requests (stats w') - failed_requests (stats w).
Proof.
  intros coin c w.
  apply (preserved_always accounted (collect_data api coin c) w).
  apply preserves_collect_data.
  - exact accounted_refl.
  - exact accounted_refl.
  - exact accounted_trans.
  - exact accounted_trans.
  - apply preserves_always. intros w0.
    destruct (make_api_request_effect coin coin_info w0)
      as (r & w' & cool & Hrun & _ & _ & _ & _ & _ & _ & Hacc & _).
    now rewrite Hrun.
  - intros info. apply preserves_always. intros w0.
    destruct (store_metadata_quiet coin c info w0) as (_ & _ & Hs & Hc & _).
    now apply accounted_quiet.
  - intros start needed n tc. apply preserves_always. intros w0.
    destruct (prices_null (api (calls w0))) eqn:Hnull.
    + destruct (collect_page_raises coin start needed n tc w0 Hnull)
        as (w' & Hrun & _ & _ & _ & _ & _ & Hacc).
      now rewrite Hrun.
    + destruct (collect_page_effect coin start needed n tc w0 Hnull)
        as (t & w' & cool & Hrun & _ & _ & _ & Hacc & _).
      now rewrite Hrun.
  - intros tc. apply preserves_always. intros w0.
    destruct (finish_collection_quiet coin tc w0) as (Hs & Hc & _).
    now apply accounted_quiet.
  - apply preserves_always. intros w0.
    destruct (start_collection_quiet coin w0) as (Hs & Hc & _).
    now apply accounted_quiet.
Qed.

(** *** Pacing *)

Lemma pace_app (h1 h2 : list event) :
  forall s,
    pace s (h1 ++ h2)
    = match pace s h1 with
      | Some s1 => pace s1 h2
      | None => None
      end.
Proof.
  induction h1 as [|e h1 IH]; intros s; cbn [app pace]; [reflexivity|].
  destruct e as [us|k e]; [apply IH|].
  destruct ((if snd s then 2100000 else 100000) <=? fst s);
    [apply IH|reflexivity].
Qed.

Lemma paced_refl (w : collector) : paced w w.
Proof.
  intros s Hs. exists [], s. rewrite app_nil_r. auto.
Qed.

Lemma paced_trans (a b c : collector) : paced a b -> paced b c -> paced a c.
Proof.
  intros Hab Hbc s Hs.
  destruct (Hab s Hs) as (h1 & s1 & He1 & Hp1 & Hs1).
  destruct (Hbc s1 Hs1) as (h2 & s2 & He2 & Hp2 & Hs2).
  exists (h1 ++ h2), s2. conj.
  - now rewrite He2, He1, app_assoc.
  - now rewrite pace_app, Hp1.
  - exact Hs2.
Qed.

Lemma paced_quiet (w w' : collector) : events w' = events w -> paced w w'.
Proof. intros He. unfold paced. rewrite He. apply paced_refl. Qed.

Lemma pace_request (coin : string) (e : endpoint) (cool : list event)
    (s : Z * bool) :
  ready s ->
  cool = [] \/ cool = [Slept 60000000] ->
  exists pause,
    pace s (Slept 100000 :: Requested coin e :: cool)
    = Some (pause, is_market_chart e) /\ 0 <= pause.
Proof.
  intros [Hpos Hchart] Hcool. destruct s as [pause chart]. cbn [pace fst snd] in *.
  destruct chart.
  - specialize (Hchart eq_refl).
    destruct (Z.leb_spec 2100000 (pause + 100000)); [|lia].
    destruct Hcool as [-> | ->]; cbn; eexists; split; try reflexivity; lia.
  - destruct (Z.leb_spec 100000 (pause + 100000)); [|lia].
    destruct Hcool as [-> | ->]; cbn; eexists; split; try reflexivity; lia.
Qed.

Lemma paced_so_far_weaker (a b : collector) : paced a b -> paced_so_far a b.
Proof.
  intros Hab s Hs. destruct (Hab s Hs) as (new & s' & He & Hp & _).
  now exists new, s'.
Qed.

Lemma paced_so_far_after (a b c : collector) :
  paced a b -> paced_so_far b c -> paced_so_far a c.
Proof.
  intros Hab Hbc s Hs.
  destruct (Hab s Hs) as (h1 & s1 & He1 & Hp1 & Hs1).
  destruct (Hbc s1 Hs1) as (h2 & s2 & He2 & Hp2).
  exists (h1 ++ h2), s2. conj.
  - now rewrite He2, He1, app_assoc.
  - now rewrite pace_app, Hp1.
Qed.

(** A call that keeps [paced] however it ends. *)
Lemma preserves_paced {A : Type} (m : M A) :
  (forall w, paced w (snd (m w))) -> preserves paced paced_so_far m.
Proof.
  intros H w. destruct (fst (m w)); [apply H|].
  apply paced_so_far_weaker, H.
Qed.

Lemma collect_data_paced (coin : string) (c : coin_constants) :
  preserves paced paced_so_far (collect_data api coin c).
Proof.
  apply preserves_collect_data.
  - exact paced_refl.
  - intros w. apply paced_so_far_weaker, paced_refl.
  - exact paced_trans.
  - exact paced_so_far_after.
  - apply preserves_paced. intros w s Hs.
    destruct (make_api_request_effect coin coin_info w)
      as (r & w' & cool & Hrun & _ & _ & _ & _ & Hev & Hcool & _).
    rewrite Hrun. cbn [snd].
    destruct (pace_request coin coin_info cool s Hs Hcool) as (pause & Hp & Hpos).
    eexists _, _. conj; [exact Hev|exact Hp|].
    split; cbn; [exact Hpos|discriminate].
  - intros info. apply preserves_paced. intros w.
    destruct (store_metadata_quiet coin c info w)
      as (_ & _ & _ & _ & He & _).
    now apply paced_quiet.
  - intros start needed n tc w.
    destruct (prices_null (api (calls w))) eqn:Hnull.
    { destruct (collect_page_raises coin start needed n tc w Hnull)
        as (w' & Hrun & _ & _ & _ & _ & Hev & _).
      rewrite Hrun. cbn [fst snd]. intros s Hs.
      destruct (pace_request coin
                  (market_chart (Z.min max_days_per_request (needed - tc)))
                  [] s Hs (or_introl eq_refl)) as (pause & Hp & Hpos).
      eexists _, _. split; [exact Hev|exact Hp]. }
    destruct (collect_page_effect coin start needed n tc w Hnull)
      as (t & w' & cool & Hrun & _ & Hev & Hcool & _).
    rewrite Hrun. cbn [fst snd]. intros s Hs.
    destruct (pace_request coin
                (market_chart (Z.min max_days_per_request (needed - tc)))
                cool s Hs Hcool) as (pause & Hp & Hpos).
    exists (Slept 100000
            :: Requested coin
                 (market_chart (Z.min max_days_per_request (needed - tc)))
            :: cool ++ [Slept 2000000]),
           (pause + 2000000, true).
    conj; [exact Hev| |split; cbn; lia].
    change (Slept 100000
            :: Requested coin
                 (market_chart (Z.min max_days_per_request (needed - tc)))
            :: cool ++ [Slept 2000000])
      with ((Slept 100000
             :: Requested coin
                  (market_chart (Z.min max_days_per_request (needed - tc)))
             :: cool) ++ [Slept 2000000]).
    rewrite pace_app, Hp. reflexivity.
  - intros tc. apply preserves_paced. intros w.
    destruct (finish_collection_quiet coin tc w) as (_ & _ & He & _).
    now apply paced_quiet.
  - apply preserves_paced. intros w.
    destruct (start_collection_quiet coin w) as (_ & _ & He & _).
    now apply paced_quiet.
Qed.

(** X15.  Whatever the provider answers and however the run ends, the
    sleeps and provider calls the run adds to the history are well paced:
    every call comes after at least 100 ms of sleep since the call before
    it, and after at least 2.1 s when the call before it was a market-chart
    call. *)
Theorem provider_calls_are_paced :
  forall (coin : string) (c : coin_constants) (w : collector),
  exists new,
    events (snd (collect_data api coin c w)) = events w ++ new /\
    well_paced new = true.
Proof.
  intros coin c w.
  assert (Hready : ready (0, false)) by (split; cbn; [lia|discriminate]).
  pose proof (collect_data_paced coin c w) as Hrun.
  destruct (fst (collect_data api coin c w)).
  - destruct (Hrun (0, false) Hready) as (new & s' & He & Hp & _).
    exists new. split; [exact He|]. unfold well_paced. now rewrite Hp.
  - destruct (Hrun (0, false) Hready) as (new & s' & He & Hp).
    exists new. split; [exact He|]. unfold well_paced. now rewrite Hp.
Qed.

(** *** Other coins *)

(** X16.  A run for one coin, however it ends, leaves what belongs to any
    other coin as it was: its job in [self.progress], its rows of
    [daily_prices] and its row of [coin_metadata]. *)
Theorem collection_leaves_other_coins_alone :
  forall (coin : string) (c : coin_constants) (w : collector) (other : string),
    other <> coin ->
    let w' := snd (collect_data api coin c w) in
    lookup other (progress w') = lookup other (progress w) /\
    rows_of other (db w') = rows_of other (db w) /\
    metadata_of other (db w') = metadata_of other (db w).
Proof.
  intros coin c w other Hne.
  cut (preserves (untouched_elsewhere coin) (untouched_elsewhere coin)
         (collect_data api coin c)).
  { intros Hrun. exact (preserved_always _ _ w Hrun other Hne). }
  clear w other Hne.
  apply preserves_collect_data.
  - exact (untouched_refl coin).
  - exact (untouched_refl coin).
  - exact (untouched_trans coin).
  - exact (untouched_trans coin).
  - apply preserves_always. intros w.
    destruct (make_api_request_effect coin coin_info w)
      as (r & w' & cool & Hrun & Hp & _ & Hdb & _).
    rewrite Hrun. now apply untouched_quiet.
  - intros info. apply preserves_always. intros w other Hne.
    destruct (store_metadata_quiet coin c info w)
      as (Hp & _ & _ & _ & _ & Hrows & _ & Hmeta).
    conj.
    + now rewrite Hp.
    + unfold rows_of. now rewrite Hrows.
    + now apply Hmeta.
  - intros start needed n tc. apply preserves_always. intros w.
    destruct (prices_null (api (calls w))) eqn:Hnull.
    + destruct (collect_page_raises coin start needed n tc w Hnull)
        as (w' & Hrun & Hp & _ & Hdb & _).
      rewrite Hrun. now apply untouched_quiet.
    + destruct (collect_page_effect coin start needed n tc w Hnull)
        as (t & w' & cool & Hrun & _ & _ & _ & _ & Hun & _).
      now rewrite Hrun.
  - intros tc. apply preserves_always. intros w other Hne.
    destruct (finish_collection_quiet coin tc w)
      as (_ & _ & _ & Hrows & Hmeta & Hp).
    conj.
    + now apply Hp.
    + unfold rows_of. now rewrite Hrows.
    + unfold metadata_of. now rewrite Hmeta.
  - apply preserves_always. intros w other Hne.
    destruct (start_collection_quiet coin w) as (_ & _ & _ & Hdb & Hp).
    conj.
    + now apply Hp.
    + now rewrite Hdb.
    + now rewrite Hdb.
Qed.

(** *** A registered job *)

(** The metadata block builds its dict exactly on the answers of
    [metadata_ok]. *)
Lemma build_metadata_returns (c : coin_constants) (i : coin_details) :
  metadata_ok i = true <-> exists m, build_metadata c (CoinInfo i) = Returns m.
Proof.
  unfold metadata_ok, build_metadata, symbol_of, supplies_of, description_of,
    first_homepage.
  destruct (ci_symbol i) as [| |symbol]; cbn;
    try (split; [discriminate|intros [m Hm]; discriminate]);
    (destruct (ci_market_data i) as [| |md]; cbn;
     try (split; [discriminate|intros [m Hm]; discriminate]);
     (destruct (ci_description i) as [| |[| |en]]; cbn;
      try (split; [discriminate|intros [m Hm]; discriminate]);
      (destruct (ci_links i) as [| |[| |[|site sites]]]; cbn;
       try (split; [discriminate|intros [m Hm]; discriminate]);
       (split; [intros _; eexists; reflexivity|reflexivity])))).
Qed.

Lemma store_metadata_returns (coin : string) (c : coin_constants)
    (info : option response) (w : collector) :
  (forall i, info = Some (CoinInfo i) -> metadata_ok i = true) ->
  fst (store_metadata coin c info w) = Returns tt.
Proof.
  intros Hok. unfold store_metadata.
  destruct info as [[|i|prices caps volumes]|]; try reflexivity.
  destruct (proj1 (build_metadata_returns c i) (Hok i eq_refl)) as [m Hm].
  now rewrite Hm.
Qed.

Lemma finish_collection_stats (coin : string) (tc : Z) (w : collector)
    (p : CollectionProgress) :
  lookup coin (progress w) = Some p ->
  clock (snd (finish_collection coin tc w)) = clock w /\
  collection_stats (db (snd (finish_collection coin tc w)))
  = if reached_threshold p then
      match collection_start p with
      | Some started =>
          collection_stats (db w)
          ++ [ {| st_coin_id := coin;
                  st_collection_date := dt_date (clock w);
                  st_records_added := tc;
                  st_records_updated := 0;
                  st_errors_count := Z.of_nat (List.length (errors p));
                  st_collection_time_seconds :=
                    total_seconds (clock w - started);
                  st_status := "completed" |} ]
      | None => collection_stats (db w)
      end
    else collection_stats (db w).
Proof.
  intros Hp. exec. rewrite Hp. cbn.
  destruct (reached_threshold p); cbn; [|auto].
  destruct (collection_start p); cbn; auto.
Qed.

(** The run of a registered job that is not completed, up to the terminal
    check. *)
Lemma collect_data_pages (coin : string) (c : coin_constants) (w : collector)
    (p : CollectionProgress) :
  lookup coin (progress w) = Some p ->
  status p <> Completed ->
  (forall i, api (calls w) = Answer (CoinInfo i) -> metadata_ok i = true) ->
  (forall k, prices_null (api k) = false) ->
  let days := td_days (end_date p - start_date p) in
  let pages := Z.to_nat ((days + max_days_per_request - 1) / max_days_per_request) in
  exists total w2 p2 reqs,
    collect_data api coin c w = finish_collection coin total w2 /\
    lookup coin (progress w2) = Some p2 /\
    job_advanced p p2 /\
    status p2 = status p /\
    collection_end p2 = collection_end p /\
    collected_days p2 - collected_days p = total /\
    (List.length (errors p2) <= List.length (errors p) + pages)%nat /\
    calls w2 = (calls w + 1 + pages)%nat /\
    chart_requests (events w2) = chart_requests (events w) ++ reqs /\
    List.length reqs = pages /\
    Forall (fun d => d <= max_days_per_request /\ d <= days) reqs /\
    collection_stats (db w2) = collection_stats (db w).
Proof.
  intros Hp Hstatus Hok Hprices days pages.
  rewrite (collect_data_registered api coin c w p Hp Hstatus).
  rewrite bind_assoc.
  destruct (make_api_request_effect coin coin_info w)
    as (r & w0 & cool & Hrun & Hp0 & _ & Hdb0 & Hcalls0 & Hev0 & Hcool & _ & Hr).
  rewrite (bind_returns _ _ _ _ _ Hrun).
  assert (Hmeta : fst (store_metadata coin c r w0) = Returns tt).
  { apply store_metadata_returns. intros i Hi. apply Hok.
    rewrite Hi in Hr. destruct (api (calls w)); congruence. }
  destruct (store_metadata_quiet coin c r w0)
    as (Hp1 & _ & _ & Hcalls1 & Hev1 & _ & Hst1 & _).
  destruct (store_metadata coin c r w0) as [o w1] eqn:Hstore.
  cbn [fst snd] in *. subst o.
  rewrite (bind_returns _ _ _ _ _ Hstore).
  destruct (page_loop_effect coin (start_date p) days pages Hprices 0 0 w1)
    as (total & w2 & reqs & Hloop & Hcalls2 & Hev2 & Hlen & Hall & Hst2 & _
        & Hjob).
  fold days. fold pages.
  rewrite (bind_returns _ _ _ _ _ Hloop).
  destruct (Hjob p) as (p2 & Hp2 & Hadv & Hs & He & Hc & Hn).
  { now rewrite Hp1, Hp0. }
  exists total, w2, p2, reqs. conj; try assumption; try reflexivity.
  - lia.
  - rewrite Hcalls2, Hcalls1, Hcalls0. lia.
  - rewrite Hev2, Hev1, Hev0, chart_requests_app. cbn [chart_requests].
    replace (chart_requests cool) with (@nil Z);
      [now rewrite app_nil_r|].
    destruct Hcool as [-> | ->]; reflexivity.
  - eapply Forall_impl; [|exact Hall]. cbv beta. intros d Hd. lia.
  - now rewrite Hst2, Hst1, Hdb0.
Qed.

(** X17.  For a registered job that is not completed, when the metadata
    answer is one on which the metadata block does not raise (no null
    ['symbol'], ['market_data'], ['description'], ['links'], no null ['en']
    or ['homepage'], no empty ['homepage'] list) and no answer of the
    provider carries a null ['prices'], the run makes exactly
    [ceil(days / 365)] market-chart requests, where [days] is
    [(end_date - start_date).days], whether the provider answers them with
    data, without data or with an exception, and however the terminal check
    ends: a failed or empty page is not requested again, and pages are not
    skipped once enough has been saved.  No request asks for more than 365
    days or for more than [days]. *)
Theorem collection_makes_one_request_per_page :
  forall (coin : string) (c : coin_constants) (w : collector)
         (p : CollectionProgress),
    lookup coin (progress w) = Some p ->
    status p <> Completed ->
    (forall i, api (calls w) = Answer (CoinInfo i) -> metadata_ok i = true) ->
    (forall k, prices_null (api k) = false) ->
    let days := td_days (end_date p - start_date p) in
    let w' := snd (collect_data api coin c w) in
    exists reqs,
      chart_requests (events w') = chart_requests (events w) ++ reqs /\
      List.length reqs
      = Z.to_nat ((days + max_days_per_request - 1) / max_days_per_request) /\
      Forall (fun d => d <= max_days_per_request /\ d <= days) reqs /\
      calls w' = (calls w + 1 + List.length reqs)%nat.
Proof.
  intros coin c w p Hp Hstatus Hok Hprices days w'.
  destruct (collect_data_pages coin c w p Hp Hstatus Hok Hprices)
    as (total & w2 & p2 & reqs & Hrun & _ & _ & _ & _ & _ & _ & Hcalls & Hev
        & Hlen & Hall & _).
  destruct (finish_collection_quiet coin total w2) as (_ & Hc & He & _).
  subst w'. rewrite Hrun.
  exists reqs. conj.
  - now rewrite He.
  - exact Hlen.
  - exact Hall.
  - rewrite Hc, Hcalls, Hlen. reflexivity.
Qed.

(** X18.  For a registered job of fewer than 2^40 days that is not
    completed and has its [collection_start] set (as
    [start_bitcoin_collection] leaves it), when the metadata answer is one on
    which the metadata block does not raise (no null ['symbol'],
    ['market_data'], ['description'], ['links'], no null ['en'] or
    ['homepage'], no empty ['homepage'] list) and no answer of the provider
    carries a null ['prices'], the run returns and does not raise; it
    returns True exactly when the job's [collected_days] has reached 95 % of
    [total_days], which is also what the float comparison
    [collected_days >= total_days * 0.95] gives, and then the job is
    'completed' with [collection_end] set and one row is appended to
    [collection_stats] whose [records_added] is the growth of
    [collected_days] during the run and whose [collection_time_seconds] is
    the float [total_seconds()] of the time since [collection_start];
    otherwise it returns False and the job is 'error' with the "collected
    only" message as [last_error].  The progress file holds the final
    jobs. *)
Theorem started_job_returns_whether_completed :
  forall (coin : string) (c : coin_constants) (w : collector)
         (p : CollectionProgress) (started : datetime),
    lookup coin (progress w) = Some p ->
    status p <> Completed ->
    collection_start p = Some started ->
    0 <= total_days p < 2 ^ 40 ->
    (forall i, api (calls w) = Answer (CoinInfo i) -> metadata_ok i = true) ->
    (forall k, prices_null (api k) = false) ->
    exists (b : bool) (w' : collector) (p' : CollectionProgress),
      collect_data api coin c w = (Returns b, w') /\
      lookup coin (progress w') = Some p' /\
      progress_file w' = progress w' /\
      total_days p' = total_days p /\
      collected_days p <= collected_days p' /\
      (b = true <-> 95 * total_days p <= 100 * collected_days p') /\
      threshold_as_computed p' = Returns b /\
      (if b
       then status p' = Completed /\
            collection_end p' = Some (clock w') /\
            exists row,
              collection_stats (db w') = collection_stats (db w) ++ [row] /\
              st_coin_id row = coin /\
              st_records_added row = collected_days p' - collected_days p /\
              st_errors_count row = Z.of_nat (List.length (errors p')) /\
              st_collection_time_seconds row
              = total_seconds (clock w' - started)
       else status p' = Error /\
            last_error p'
            = Some (CollectedOnly (collected_days p') (total_days p')) /\
            collection_stats (db w') = collection_stats (db w)).
Proof.
  intros coin c w p started Hp Hstatus Hstart Hdays Hok Hprices.
  destruct (collect_data_pages coin c w p Hp Hstatus Hok Hprices)
    as (total & w2 & p2 & reqs & Hrun & Hp2 & Hadv & Hs & He & Hc & _ & _ & _
        & _ & _ & Hst).
  destruct Hadv as (_ & Htotal & _ & _ & _ & Hcs & Hle & _).
  destruct (finish_collection_spec coin total w2 p2 Hp2)
    as (w' & Hfin & Hp' & Hfile & _).
  destruct (finish_collection_stats coin total w2 p2 Hp2) as (Hclock & Hrows).
  rewrite Hfin in Hclock, Hrows. cbn [snd] in Hclock, Hrows.
  rewrite Hcs, Hstart in Hfin, Hrows.
  pose proof (reached_threshold_iff p2) as Hiff.
  assert (Hfloat : threshold_as_computed p2 = Returns (reached_threshold p2))
    by (apply threshold_as_computed_exact; now rewrite Htotal).
  rewrite Hrun, Hfin.
  destruct (reached_threshold p2).
  - exists true, w', (set_collection_end (clock w2) (set_status Completed p2)).
    conj; try assumption; try reflexivity; cbn.
    + split; [intros _; rewrite <- Htotal; now apply Hiff|reflexivity].
    + now rewrite Hclock.
    + eexists. conj; [rewrite Hrows, Hst; reflexivity|..]; cbn;
        try reflexivity.
      * lia.
      * now rewrite Hclock.
  - exists false, w',
      (set_last_error (CollectedOnly (collected_days p2) (total_days p2))
         (set_status Error p2)).
    conj; try assumption; try reflexivity; cbn.
    + split; [discriminate|].
      intros Hreach. rewrite <- Htotal in Hreach.
      apply Hiff in Hreach. discriminate.
    + now rewrite Hrows, Hst.
Qed.

(** *** Processing of a market-chart answer *)

Lemma process_prices_spec (start : date) (caps volumes : list point)
    (prices : list point) :
  forall (i : nat) (acc : list daily_record),
  exists tail,
    process_prices start prices i caps volumes acc = acc ++ tail /\
    map (fun r => (r_date r, r_close r, r_volume r, r_market_cap r)) tail
    = map (fun ip => (Some (fst (snd ip)), Some (snd (snd ip)),
                      value_at volumes (fst ip), value_at caps (fst ip)))
          (filter (fun ip => negb (fst (snd ip) <? start))
                  (combine (seq i (List.length prices)) prices)) /\
    Forall (fun r => r_open r = r_close r /\ r_high r = r_close r /\
                     r_low r = r_close r) tail /\
    (acc = [] ->
     match tail with
     | r :: _ => r_price_change_24h r = None /\ r_volume_change_24h r = None
     | [] => True
     end).
Proof.
  induction prices as [|[d price] rest IH]; intros i acc.
  - exists []. cbn. rewrite app_nil_r. auto.
  - cbn [process_prices List.length seq combine filter fst snd].
    destruct (d <? start); cbn [negb].
    + apply IH.
    + match goal with
      | |- context [process_prices _ _ _ _ _ (acc ++ [?r])] =>
          destruct (IH (S i) (acc ++ [r])) as (tail & Hrun & Hmap & Hall & _);
          exists (r :: tail)
      end.
      conj.
      * rewrite Hrun, <- app_assoc. reflexivity.
      * cbn [map fst snd r_date r_close r_volume r_market_cap].
        now rewrite Hmap.
      * constructor; [cbn; auto|exact Hall].
      * intros ->. cbn. destruct i; auto.
Qed.

(** X22.  On an answer whose ['market_caps'] and ['total_volumes'] are not
    null, [_process_market_chart_data] turns the price points whose date is
    not before the start date into records, in the order given and one
    record per point: the record carries the point's date and its price as
    open, high, low and close, and the volume and market cap found at the
    same index of the answer (None when that series is absent or shorter).
    The first record carries no 24-hour changes.  With one of the two series
    null, every record fails and the result is empty. *)
Theorem processed_chart_keeps_points_from_start_date :
  forall (prices : list point) (market_caps total_volumes : field (list point))
         (start : datetime),
    let kept :=
      filter (fun ip => negb (fst (snd ip) <? dt_date start))
             (combine (seq 0 (List.length prices)) prices) in
    let data :=
      process_market_chart_data prices market_caps total_volumes start in
    (market_caps <> Null -> total_volumes <> Null ->
     map (fun r => (r_date r, r_close r, r_volume r, r_market_cap r)) data
     = map (fun ip => (Some (fst (snd ip)), Some (snd (snd ip)),
                       value_at (or_empty total_volumes) (fst ip),
                       value_at (or_empty market_caps) (fst ip))) kept /\
     Forall (fun r => r_open r = r_close r /\ r_high r = r_close r /\
                      r_low r = r_close r) data /\
     match data with
     | r :: _ => r_price_change_24h r = None /\ r_volume_change_24h r = None
     | [] => True
     end) /\
    (market_caps = Null \/ total_volumes = Null -> data = []).
Proof.
  intros prices market_caps total_volumes start kept data.
  subst kept data. unfold process_market_chart_data. split.
  - intros Hcaps Hvolumes.
    assert (Hnull : is_null market_caps || is_null total_volumes = false).
    { destruct market_caps, total_volumes; try reflexivity; contradiction. }
    rewrite Hnull.
    destruct (process_prices_spec (dt_date start) (or_empty market_caps)
                (or_empty total_volumes) prices 0 [])
      as (tail & Hrun & Hmap & Hall & Hfirst).
    rewrite Hrun. cbn [app]. conj.
    + exact Hmap.
    + exact Hall.
    + now apply Hfirst.
  - intros [->| ->]; cbn; [reflexivity|].
    now rewrite orb_true_r.
Qed.

(** *** The first run *)

Lemma start_collection_effect (coin : string) (start : datetime)
    (w : collector) :
  start_date_of coin start_dates = Some start ->
  exists w1,
    start_collection coin w = (Returns tt, w1) /\
    lookup coin (progress w1)
    = Some {| coin_id := coin;
              total_days := td_days (clock w - start);
              collected_days := 0;
              start_date := start;
              end_date := clock w;
              current_date := start;
              status := InProgress;
              errors := [];
              last_error := None;
              collection_start := Some (clock w);
              collection_end := None |} /\
    stats w1 = stats w /\
    db w1 = db w /\
    clock w1 = clock w /\
    calls w1 = calls w /\
    events w1 = events w.
Proof.
  intros Hstart. unfold start_collection, initialize_collection.
  rewrite Hstart. exec. rewrite ?lookup_store_same. cbn.
  rewrite ?lookup_store_same. cbn.
  eexists. conj; try reflexivity. cbn. now rewrite ?lookup_store_same.
Qed.

Lemma bind_get {A : Type} (k : collector -> M A) (w : collector) :
  bind get k w = k w w.
Proof. reflexivity. Qed.

Lemma collect_data_unregistered (coin : string) (c : coin_constants)
    (w w1 : collector) (p1 : CollectionProgress) :
  lookup coin (progress w) = None ->
  start_collection coin w = (Returns tt, w1) ->
  lookup coin (progress w1) = Some p1 ->
  collect_data api coin c w = collect_data api coin c w1.
Proof.
  intros Hnone Hstart Hp1. unfold collect_data.
  rewrite !bind_get. rewrite Hnone, Hp1.
  rewrite (bind_returns _ _ _ _ _ Hstart). now rewrite bind_ret.
Qed.

(** X19.  On a collector that has no job for the coin, the run registers
    one through [start_bitcoin_collection] / [start_ethereum_collection]:
    [total_days] is the number of whole days from the coin's start date to
    now, and [collection_start] is set.  When that number is not negative
    (and below 2^40), the metadata answer is one on which the metadata block
    does not raise (no null ['symbol'], ['market_data'], ['description'],
    ['links'], no null ['en'] or ['homepage'], no empty ['homepage'] list)
    and no answer of the provider carries a null ['prices'], the run then
    returns and does not raise; it returns True exactly when 95 % of
    [total_days] were collected, which is also what the float comparison
    [collected_days >= total_days * 0.95] gives, with the job 'completed',
    and False with the job 'error' otherwise. *)
Theorem first_run_registers_the_job_and_returns :
  forall (coin : string) (c : coin_constants) (w : collector)
         (start : datetime),
    lookup coin (progress w) = None ->
    start_date_of coin start_dates = Some start ->
    0 <= td_days (clock w - start) < 2 ^ 40 ->
    (forall i, api (calls w) = Answer (CoinInfo i) -> metadata_ok i = true) ->
    (forall k, prices_null (api k) = false) ->
    exists (b : bool) (w' : collector) (p' : CollectionProgress),
      collect_data api coin c w = (Returns b, w') /\
      lookup coin (progress w') = Some p' /\
      start_date p' = start /\
      end_date p' = clock w /\
      total_days p' = td_days (clock w - start) /\
      collection_start p' = Some (clock w) /\
      0 <= collected_days p' /\
      (b = true <-> 95 * total_days p' <= 100 * collected_days p') /\
      threshold_as_computed p' = Returns b /\
      status p' = (if b then Completed else Error).
Proof.
  intros coin c w start Hnone Hstart Hdays Hok Hprices.
  destruct (start_collection_effect coin start w Hstart)
    as (w1 & Hrun1 & Hp1 & _ & _ & _ & Hcalls1 & _).
  rewrite (collect_data_unregistered coin c w w1 _ Hnone Hrun1 Hp1).
  rewrite <- Hcalls1 in Hok.
  destruct (collect_data_pages coin c w1 _ Hp1) as
    (total & w2 & p2 & reqs & Hrun & Hp2 & Hadv & Hs & He & Hc & _);
    [discriminate|exact Hok|exact Hprices|].
  cbn in Hadv. destruct Hadv as (_ & Htotal & Hsd & Hed & _ & Hcs & Hle & _).
  cbn in Htotal, Hsd, Hed, Hcs, Hle.
  destruct (finish_collection_spec coin total w2 p2 Hp2)
    as (w' & Hfin & Hp' & _).
  rewrite Hcs in Hfin.
  pose proof (reached_threshold_iff p2) as Hiff.
  assert (Hfloat : threshold_as_computed p2 = Returns (reached_threshold p2))
    by (apply threshold_as_computed_exact; now rewrite Htotal).
  rewrite Hrun, Hfin.
  destruct (reached_threshold p2).
  - exists true, w', (set_collection_end (clock w2) (set_status Completed p2)).
    conj; try assumption; reflexivity.
  - exists false, w',
      (set_last_error (CollectedOnly (collected_days p2) (total_days p2))
         (set_status Error p2)).
    conj; try assumption; reflexivity.
Qed.

(** *** Failures of the provider *)





(** X21.  A metadata answer on which the metadata block raises makes the
    run raise before any market-chart request: an empty ['homepage'] list
    (the [IndexError] of [...get('homepage', [None])[0]]), or a null
    ['symbol'], ['market_data'], ['description'], ['links'], ['en'] or
    ['homepage'].  The jobs and the database are left as they were, so the
    job stays as it was, without a recorded error; the metadata request has
    been counted as successful. *)
Theorem empty_homepage_list_aborts_the_run :
  forall (coin : string) (c : coin_constants) (w : collector)
         (p : CollectionProgress) (i : coin_details),
    lookup coin (progress w) = Some p ->
    status p <> Completed ->
    api (calls w) = Answer (CoinInfo i) ->
    ci_links i = Has (Has []) \/ metadata_ok i = false ->
    exists w',
      collect_data api coin c w = (Raises, w') /\
      progress w' = progress w /\
      progress_file w' = progress_file w /\
      db w' = db w /\
      chart_requests (events w') = chart_requests (events w) /\
      calls w' = S (calls w) /\
      successful_requests (stats w') = successful_requests (stats w) + 1.
Proof.
  intros coin c w p i Hp Hstatus Hapi Hbad.
  assert (Hraises : build_metadata c (CoinInfo i) = Raises).
  { assert (Hnot : metadata_ok i = false).
    { destruct Hbad as [Hhome|Hnot]; [|exact Hnot].
      unfold metadata_ok. rewrite Hhome. apply andb_false_r. }
    destruct (build_metadata c (CoinInfo i)) as [m|] eqn:Hm; [|reflexivity].
    assert (Hok : metadata_ok i = true)
      by (apply (build_metadata_returns c); now exists m).
    congruence. }
  rewrite (collect_data_registered api coin c w p Hp Hstatus).
  rewrite bind_assoc. exec. rewrite Hapi. cbn.
  rewrite Hraises. cbn.
  eexists. conj; try reflexivity. cbn.
  rewrite !chart_requests_app. cbn. now rewrite !app_nil_r.
Qed.

End CollectorRun.

Section CollectorRunExamples.

Import Json DatabaseManager DatabaseQueries HistoricalCollector Observations
  CollectorRuns Scenarios RunScenarios.

(** X16 on the 800-day run: the run for bitcoin and what belongs to
    ethereum. *)
Lemma collection_leaves_other_coins_alone_witness :
  let w' := snd (collect_bitcoin_data api_rate_limited started_day_800) in
  lookup "ethereum" (progress w') = lookup "ethereum" (progress started_day_800) /\
  rows_of "ethereum" (db w') = rows_of "ethereum" (db started_day_800) /\
  metadata_of "ethereum" (db w') = metadata_of "ethereum" (db started_day_800).
Proof.
  apply (collection_leaves_other_coins_alone api_rate_limited "bitcoin"
           bitcoin_constants started_day_800 "ethereum").
  discriminate.
Defined.

Lemma answered_metadata_is_ok (w : collector) :
  calls w = O ->
  forall i,
    api_rate_limited (calls w) = Answer (CoinInfo i) ->
    metadata_ok i = true.
Proof.
  intros Hcalls i Hi. rewrite Hcalls in Hi. cbn in Hi.
  injection Hi as <-. reflexivity.
Qed.

Lemma rate_limited_run_has_prices (k : nat) :
  prices_null (api_rate_limited k) = false.
Proof. destruct k as [|[|[|k]]]; reflexivity. Qed.

Lemma answered_run_has_prices (k : nat) :
  prices_null (api_answers_all k) = false.
Proof. destruct k as [|k]; reflexivity. Qed.

(** X17 on the 800-day run, whose second page is refused: three requests. *)
Lemma collection_makes_one_request_per_page_witness :
  exists reqs,
    chart_requests
      (events (snd (collect_bitcoin_data api_rate_limited started_day_800)))
    = chart_requests (events started_day_800) ++ reqs /\
    List.length reqs = 3%nat.
Proof.
  destruct (collection_makes_one_request_per_page api_rate_limited "bitcoin"
              bitcoin_constants started_day_800 started_job)
    as (reqs & Hev & Hlen & _).
  - vm_compute. reflexivity.
  - discriminate.
  - now apply answered_metadata_is_ok.
  - exact rate_limited_run_has_prices.
  - exists reqs. split; [exact Hev|]. rewrite Hlen. vm_compute. reflexivity.
Defined.

(** X18 on the 800-day run: the run returns. *)
Lemma started_job_returns_whether_completed_witness :
  exists (b : bool) (w' : collector),
    collect_bitcoin_data api_rate_limited started_day_800 = (Returns b, w').
Proof.
  destruct (started_job_returns_whether_completed api_rate_limited "bitcoin"
              bitcoin_constants started_day_800 started_job day_800)
    as (b & w' & p' & Hrun & _).
  - vm_compute. reflexivity.
  - discriminate.
  - reflexivity.
  - split; [vm_compute; discriminate|vm_compute; reflexivity].
  - now apply answered_metadata_is_ok.
  - exact rate_limited_run_has_prices.
  - exists b, w'. exact Hrun.
Defined.

(** X19 on a fresh collector, ten days after the start date of bitcoin. *)
Lemma first_run_registers_the_job_and_returns_witness :
  exists (b : bool) (w' : collector) (p' : CollectionProgress),
    collect_bitcoin_data api_answers_all (fresh_collector ten_days_in)
    = (Returns b, w') /\
    lookup "bitcoin" (progress w') = Some p' /\
    total_days p' = 10.
Proof.
  destruct (first_run_registers_the_job_and_returns api_answers_all "bitcoin"
              bitcoin_constants (fresh_collector ten_days_in)
              (mk_datetime 736330 0 0))
    as (b & w' & p' & Hrun & Hp' & _ & _ & Htotal & _).
  - reflexivity.
  - reflexivity.
  - split; [vm_compute; discriminate|vm_compute; reflexivity].
  - intros i Hi. cbn in Hi. injection Hi as <-. reflexivity.
  - exact answered_run_has_prices.
  - exists b, w', p'. split; [exact Hrun|]. split; [exact Hp'|].
    rewrite Htotal. vm_compute. reflexivity.
Defined.


(** X21 on the 10-day job. *)
Lemma empty_homepage_list_aborts_the_run_witness :
  exists w',
    collect_bitcoin_data api_without_homepage started_ten_days_in = (Raises, w') /\
    progress w' = progress started_ten_days_in.
Proof.
  destruct (empty_homepage_list_aborts_the_run api_without_homepage "bitcoin"
              bitcoin_constants started_ten_days_in started_ten_day_job
              details_without_homepage)
    as (w' & Hrun & Hp & _).
  - vm_compute. reflexivity.
  - discriminate.
  - reflexivity.
  - left. reflexivity.
  - exists w'. split; assumption.
Defined.

(** X22 on the chart of the 10-day run, from its third day on: nine
    records; with a null ['market_caps'], none. *)
Lemma processed_chart_keeps_points_from_start_date_witness :
  List.length
    (process_market_chart_data (daily_points 736330 11)
       (Has (daily_points 736330 11)) Absent (mk_datetime 736332 0 0))
  = 9%nat /\
  process_market_chart_data (daily_points 736330 11)
    Null Absent (mk_datetime 736332 0 0) = [].
Proof.
  split.
  - destruct (proj1 (processed_chart_keeps_points_from_start_date
                       (daily_points 736330 11)
                       (Has (daily_points 736330 11)) Absent
                       (mk_datetime 736332 0 0)))
      as (Hmap & _); [discriminate|discriminate|].
    apply (f_equal (@List.length _)) in Hmap.
    rewrite !length_map in Hmap. rewrite Hmap. vm_compute. reflexivity.
  - apply (proj2 (processed_chart_keeps_points_from_start_date
                    (daily_points 736330 11) Null Absent
                    (mk_datetime 736332 0 0))).
    now left.
Defined.

End CollectorRunExamples.

(** ** The points handed to the AI *)

Section Points.

Import DatabaseManager DatabaseQueries CryptoHistoricalAnalyzer AiPoints.

Lemma last_slice_suffix {A : Type} (n : Z) (points : list A) :
  exists dropped, points = dropped ++ last_slice n points.
Proof.
  unfold last_slice. destruct (0 <? n).
  - exists (firstn (List.length points - Z.to_nat n) points).
    now rewrite firstn_skipn.
  - exists (firstn (Z.to_nat (- n)) points). now rewrite firstn_skipn.
Qed.

Lemma last_slice_length {A : Type} (n : Z) (points : list A) :
  1 <= n ->
  n < Z.of_nat (List.length points) ->
  Z.of_nat (List.length (last_slice n points)) = n.
Proof.
  intros Hpos Hlong. unfold last_slice.
  destruct (Z.ltb_spec 0 n); [|lia].
  rewrite length_skipn. lia.
Qed.

Lemma tail_length {A : Type} (n : nat) (df : list A) :
  (List.length (tail n df) <= n)%nat.
Proof. unfold tail. rewrite length_skipn. lia. Qed.

Lemma eth_points_length (df : list price_row) (max_points : Z) :
  Z.of_nat (List.length (eth_points df max_points)) <= Z.max max_points 60.
Proof.
  unfold eth_points. destruct df as [|r df]; [cbn; lia|].
  pose proof (tail_length 60 (r :: df)) as Hrecent.
  set (recent := tail 60 (r :: df)) in *.
  destruct (drop_last 60 (r :: df)) as [|x remain].
  - rewrite length_map. lia.
  - rewrite length_map.
    destruct (Z.ltb_spec 0 (Z.max 0 (max_points - Z.of_nat (List.length recent)))).
    + rewrite length_app, !length_map. unfold head.
      rewrite length_firstn. lia.
    + rewrite length_map. lia.
Qed.

(** X23.  [get_ai_historical_points] returns the end of the list it gathered
    (the last 60 ETH rows, then the sample of older ETH rows, then the BTC
    sample): what the final cut removes is removed from the front, the most
    recent ETH rows first.  For [max_points >= 1] the result has at most
    [max_points] elements.  For [max_points = 0] nothing is cut (the slice
    [points[-0:]] is the whole list), so that the result can be longer than
    [max_points].  The ETH part alone has at most [max(max_points, 60)]
    elements. *)
Theorem ai_points_are_the_end_of_the_gathered_list :
  forall (a : analyzer) (bitcoin_manager : option sampler) (max_points : Z),
    let points := gathered_points a bitcoin_manager max_points in
    let result := get_ai_historical_points a bitcoin_manager max_points in
    (exists dropped, points = dropped ++ result) /\
    (1 <= max_points ->
     Z.of_nat (List.length result)
     = Z.min max_points (Z.of_nat (List.length points))) /\
    (max_points = 0 -> result = points) /\
    (forall df,
       Z.of_nat (List.length (eth_points df max_points)) <= Z.max max_points 60).
Proof.
  intros a bitcoin_manager max_points points result.
  subst result. unfold get_ai_historical_points. fold points.
  destruct (Z.ltb_spec max_points (Z.of_nat (List.length points))) as [Hlong|Hshort].
  - split; [apply last_slice_suffix|]. split; [|split].
    + intros Hpos. rewrite last_slice_length by assumption. lia.
    + intros ->. reflexivity.
    + intros df. apply eth_points_length.
  - split; [exists []; reflexivity|]. split; [|split].
    + intros _. lia.
    + reflexivity.
    + intros df. apply eth_points_length.
Qed.

End Points.

(** ** Moving averages, levels and trend *)

Section Trend.

Import Indicators TrendIndicators.

Lemma all_present_spec (s : series) (w : list Q) :
  all_present s = Some w <-> s = map Some w.
Proof.
  revert w. induction s as [|[x|] s IH]; intros w; cbn.
  - split.
    + intros H. injection H as <-. reflexivity.
    + destruct w; [reflexivity|discriminate].
  - destruct (all_present s) as [v|] eqn:Hs; cbn.
    + split.
      * intros H. injection H as <-. cbn. f_equal. now apply IH.
      * destruct w as [|y w]; [discriminate|]. cbn. intros H.
        injection H as -> Hrest. apply IH in Hrest. congruence.
    + split; [discriminate|].
      destruct w as [|y w]; [discriminate|]. cbn. intros H.
      injection H as -> Hrest. apply IH in Hrest. discriminate.
  - split; [discriminate|]. destruct w; discriminate.
Qed.

Lemma rolling_nth (f : list Q -> Q) (period : nat) (s : series) (i : nat) :
  nth_error (rolling f period s) i
  = if (i <? List.length s)%nat
    then Some (option_map f (full_window period s i))
    else None.
Proof.
  unfold rolling. rewrite nth_error_map, nth_error_seq.
  destruct (i <? List.length s)%nat; reflexivity.
Qed.

Lemma full_window_spec (period : nat) (s : series) (i : nat) (w : list Q) :
  (i < List.length s)%nat ->
  full_window period s i = Some w ->
  (1 <= period <= S i)%nat /\
  firstn period (skipn (S i - period) s) = map Some w /\
  List.length w = period.
Proof.
  intros Hi. unfold full_window.
  destruct (Nat.leb_spec 1 period); cbn [andb]; [|discriminate].
  destruct (Nat.leb_spec period (S i)); [|discriminate].
  intros Hw. apply all_present_spec in Hw. split; [lia|]. split; [exact Hw|].
  apply (f_equal (@List.length _)) in Hw.
  rewrite length_map, length_firstn, length_skipn in Hw. lia.
Qed.

(** A shorter window ending at the same index lies within the longer one. *)
Lemma full_window_shorter (long short : nat) (s : series) (i : nat)
    (w : list Q) :
  (i < List.length s)%nat ->
  (1 <= short <= long)%nat ->
  full_window long s i = Some w ->
  full_window short s i = Some (skipn (long - short) w).
Proof.
  intros Hi Hshort Hw.
  destruct (full_window_spec long s i w Hi Hw) as (Hlong & Heq & Hlen).
  unfold full_window.
  destruct (Nat.leb_spec 1 short); cbn [andb]; [|lia].
  destruct (Nat.leb_spec short (S i)); [|lia].
  apply all_present_spec.
  rewrite <- skipn_map, <- Heq.
  rewrite skipn_firstn_comm, skipn_skipn.
  replace (long - short + (S i - long))%nat with (S i - short)%nat by lia.
  replace (long - (long - short))%nat with short by lia.
  reflexivity.
Qed.

(** The observation at the index is the last one of its window. *)
Lemma full_window_last (period : nat) (s : series) (i : nat) (w : list Q) :
  (i < List.length s)%nat ->
  full_window period s i = Some w ->
  exists p, nth_error s i = Some (Some p) /\ nth_error w (period - 1) = Some p.
Proof.
  intros Hi Hw.
  destruct (full_window_spec period s i w Hi Hw) as (Hp & Heq & Hlen).
  assert (Hnth : nth_error (map Some w) (period - 1) = nth_error s i).
  { rewrite <- Heq. rewrite nth_error_firstn.
    destruct (Nat.ltb_spec (period - 1) period); [|lia].
    rewrite nth_error_skipn. f_equal. lia. }
  rewrite nth_error_map in Hnth.
  destruct (nth_error w (period - 1)) as [p|] eqn:Hwp.
  - exists p. cbn in Hnth. now split.
  - apply nth_error_None in Hwp. lia.
Qed.

Lemma smaller_spec (a b : Q) :
  (smaller a b <= a /\ smaller a b <= b)%Q /\ (smaller a b = a \/ smaller a b = b).
Proof.
  unfold smaller. destruct (Qle_bool a b) eqn:E.
  - apply Qle_bool_iff in E. repeat split; auto. apply Qle_refl.
  - assert (~ (a <= b)%Q) by (rewrite <- Qle_bool_iff; congruence).
    repeat split; auto; [|apply Qle_refl].
    apply Qlt_le_weak. now apply Qnot_le_lt.
Qed.

Lemma larger_spec (a b : Q) :
  (a <= larger a b /\ b <= larger a b)%Q /\ (larger a b = a \/ larger a b = b).
Proof.
  unfold larger. destruct (Qle_bool a b) eqn:E.
  - apply Qle_bool_iff in E. repeat split; auto. apply Qle_refl.
  - assert (~ (a <= b)%Q) by (rewrite <- Qle_bool_iff; congruence).
    repeat split; auto; [apply Qle_refl|].
    apply Qlt_le_weak. now apply Qnot_le_lt.
Qed.

Lemma fold_smaller_spec (rest : list Q) :
  forall x,
    (fold_left smaller rest x <= x)%Q /\
    (forall y, In y rest -> (fold_left smaller rest x <= y)%Q) /\
    In (fold_left smaller rest x) (x :: rest).
Proof.
  induction rest as [|z rest IH]; intros x; cbn [fold_left].
  - split; [apply Qle_refl|]. split; [intros y []|now left].
  - destruct (IH (smaller x z)) as (H1 & H2 & H3).
    destruct (smaller_spec x z) as [[Hx Hz] Hor].
    split; [eapply Qle_trans; eassumption|]. split.
    + intros y [<-|Hy]; [eapply Qle_trans; eassumption|now apply H2].
    + destruct H3 as [H3|H3]; [|now right; right].
      rewrite <- H3. destruct Hor as [-> | ->]; [now left|now right; left].
Qed.

Lemma fold_larger_spec (rest : list Q) :
  forall x,
    (x <= fold_left larger rest x)%Q /\
    (forall y, In y rest -> (y <= fold_left larger rest x)%Q) /\
    In (fold_left larger rest x) (x :: rest).
Proof.
  induction rest as [|z rest IH]; intros x; cbn [fold_left].
  - split; [apply Qle_refl|]. split; [intros y []|now left].
  - destruct (IH (larger x z)) as (H1 & H2 & H3).
    destruct (larger_spec x z) as [[Hx Hz] Hor].
    split; [eapply Qle_trans; eassumption|]. split.
    + intros y [<-|Hy]; [eapply Qle_trans; eassumption|now apply H2].
    + destruct H3 as [H3|H3]; [|now right; right].
      rewrite <- H3. destruct Hor as [-> | ->]; [now left|now right; left].
Qed.

(** [minimum] and [maximum] bound the values of the window and are among
    them. *)
Lemma minimum_maximum_spec (w : list Q) (x : Q) :
  In x w ->
  (minimum w <= x <= maximum w)%Q /\ In (minimum w) w /\ In (maximum w) w.
Proof.
  destruct w as [|a rest]; [intros []|]. intros Hin. unfold minimum, maximum.
  destruct (fold_smaller_spec rest a) as (Ha & Hrest & Hmem).
  destruct (fold_larger_spec rest a) as (Ha' & Hrest' & Hmem').
  split; [|split; assumption].
  destruct Hin as [<-|Hin]; split; auto.
Qed.

Lemma inject_length_succ {A : Type} (x : A) (w : list A) :
  (inject_Z (Z.of_nat (List.length (x :: w)))
   == inject_Z (Z.of_nat (List.length w)) + 1)%Q.
Proof.
  cbn [List.length]. rewrite Nat2Z.inj_succ. unfold Z.succ.
  now rewrite inject_Z_plus.
Qed.

Lemma total_bounds (w : list Q) (lo hi : Q) :
  (forall x, In x w -> (lo <= x <= hi)%Q) ->
  (inject_Z (Z.of_nat (List.length w)) * lo <= total w
   <= inject_Z (Z.of_nat (List.length w)) * hi)%Q.
Proof.
  induction w as [|a w IH]; intros Hall.
  - cbn [List.length total fold_right].
    change (inject_Z (Z.of_nat 0)) with 0%Q. rewrite !Qmult_0_l.
    split; apply Qle_refl.
  - rewrite inject_length_succ. cbn [total fold_right].
    destruct (Hall a (or_introl eq_refl)) as [Hlo Hhi].
    destruct IH as [IHlo IHhi]; [intros x Hx; apply Hall; now right|].
    unfold total in *. split; lra.
Qed.

Lemma length_positive {A : Type} (w : list A) :
  w <> [] -> (0 < inject_Z (Z.of_nat (List.length w)))%Q.
Proof.
  intros Hne. destruct w as [|a w]; [congruence|].
  change 0%Q with (inject_Z 0). rewrite <- Zlt_Qlt. cbn [List.length]. lia.
Qed.

Lemma mean_bounds (w : list Q) (lo hi : Q) :
  w <> [] ->
  (forall x, In x w -> (lo <= x <= hi)%Q) ->
  (lo <= mean w <= hi)%Q.
Proof.
  intros Hne Hall. pose proof (length_positive w Hne) as Hpos.
  destruct (total_bounds w lo hi Hall) as [Hlo Hhi]. unfold mean. split.
  - apply Qle_shift_div_l; [exact Hpos|]. lra.
  - apply Qle_shift_div_r; [exact Hpos|]. lra.
Qed.

(** X24.  Where the support level of a row is defined (20 prices up to the
    row, none missing), the resistance level, the price and the 7-day
    average of the row are defined as well, and both the price and the 7-day
    average lie between the support and the resistance level. *)
Theorem levels_bracket_price_and_short_average :
  forall (price_usd : series) (i : nat) (s : Q),
    nth_error (support_level price_usd) i = Some (Some s) ->
    exists r p m,
      nth_error (resistance_level price_usd) i = Some (Some r) /\
      nth_error price_usd i = Some (Some p) /\
      nth_error (ma_7 price_usd) i = Some (Some m) /\
      (s <= p <= r)%Q /\
      (s <= m <= r)%Q.
Proof.
  intros price_usd i s Hs.
  unfold support_level, resistance_level, ma_7 in *.
  rewrite rolling_nth in Hs.
  destruct (Nat.ltb_spec i (List.length price_usd)) as [Hi|]; [|discriminate].
  destruct (full_window 20 price_usd i) as [w|] eqn:Hw; [|discriminate].
  cbn in Hs. injection Hs as <-.
  destruct (full_window_spec 20 price_usd i w Hi Hw) as (_ & _ & Hlen).
  destruct (full_window_last 20 price_usd i w Hi Hw) as (p & Hp & Hlast).
  pose proof (full_window_shorter 20 7 price_usd i w Hi) as Hshort.
  exists (maximum w), p, (mean (skipn 13 w)).
  rewrite !rolling_nth, Hw, Hshort by (lia || exact Hw).
  destruct (Nat.ltb_spec i (List.length price_usd)); [|lia].
  split; [reflexivity|]. split; [exact Hp|]. split; [reflexivity|].
  split.
  - apply minimum_maximum_spec. eapply nth_error_In. exact Hlast.
  - apply mean_bounds.
    + intros Hnil. apply (f_equal (@List.length _)) in Hnil.
      rewrite length_skipn, Hlen in Hnil. discriminate.
    + intros x Hx. apply minimum_maximum_spec.
      rewrite <- (firstn_skipn 13 w). apply in_or_app. now right.
Qed.

(** *** A rising series *)

Lemma full_window_present (period : nat) (closes : list Q) (i : nat) :
  (1 <= period <= S i)%nat ->
  full_window period (map Some closes) i
  = Some (firstn period (skipn (S i - period) closes)).
Proof.
  intros Hp. unfold full_window.
  destruct (Nat.leb_spec 1 period); cbn [andb]; [|lia].
  destruct (Nat.leb_spec period (S i)); [|lia].
  apply all_present_spec. now rewrite skipn_map, firstn_map.
Qed.

Lemma full_window_early (period : nat) (s : series) (i : nat) :
  (S i < period)%nat -> full_window period s i = None.
Proof.
  intros Hp. unfold full_window.
  destruct (Nat.leb_spec period (S i)); [lia|]. now rewrite andb_false_r.
Qed.

Lemma sorted_skipn {A : Type} (R : A -> A -> Prop) (k : nat) (l : list A) :
  StronglySorted R l -> StronglySorted R (skipn k l).
Proof.
  revert l. induction k as [|k IH]; intros l Hs; [exact Hs|].
  destruct l as [|x l]; [exact Hs|]. cbn. apply IH.
  now apply StronglySorted_inv in Hs.
Qed.

Lemma sorted_firstn {A : Type} (R : A -> A -> Prop) (k : nat) (l : list A) :
  StronglySorted R l -> StronglySorted R (firstn k l).
Proof.
  revert l. induction k as [|k IH]; intros l Hs; [constructor|].
  destruct l as [|x l]; [constructor|]. cbn.
  apply StronglySorted_inv in Hs as [Hs Hall].
  constructor; [now apply IH|].
  rewrite Forall_forall in *. intros y Hy. apply Hall.
  rewrite <- (firstn_skipn k l). apply in_or_app. now left.
Qed.

Lemma sorted_app_lt {A : Type} (R : A -> A -> Prop) (a b : list A) :
  StronglySorted R (a ++ b) ->
  forall x y, In x a -> In y b -> R x y.
Proof.
  induction a as [|z a IH]; intros Hs x y Hx Hy; [destruct Hx|].
  cbn in Hs. apply StronglySorted_inv in Hs as [Hs Hall].
  destruct Hx as [<-|Hx]; [|now apply IH].
  rewrite Forall_forall in Hall. apply Hall. apply in_or_app. now right.
Qed.

Lemma total_app (a b : list Q) : (total (a ++ b) == total a + total b)%Q.
Proof.
  induction a as [|x a IH]; cbn [app total fold_right].
  - now rewrite Qplus_0_l.
  - unfold total in IH. rewrite IH. apply Qplus_assoc.
Qed.

Lemma total_above (w : list Q) (lo : Q) :
  (forall x, In x w -> (lo <= x)%Q) ->
  (inject_Z (Z.of_nat (List.length w)) * lo <= total w)%Q.
Proof.
  induction w as [|a w IH]; intros Hall.
  - cbn [List.length total fold_right].
    change (inject_Z (Z.of_nat 0)) with 0%Q. rewrite Qmult_0_l.
    apply Qle_refl.
  - rewrite inject_length_succ. cbn [total fold_right].
    pose proof (Hall a (or_introl eq_refl)) as Ha.
    assert (IH' : (inject_Z (Z.of_nat (List.length w)) * lo <= total w)%Q).
    { apply IH. intros x Hx. apply Hall. now right. }
    unfold total in *. lra.
Qed.

Lemma total_below (w : list Q) (hi : Q) :
  w <> [] ->
  (forall x, In x w -> (x < hi)%Q) ->
  (total w < inject_Z (Z.of_nat (List.length w)) * hi)%Q.
Proof.
  induction w as [|a w IH]; intros Hne Hall; [congruence|].
  rewrite inject_length_succ. cbn [total fold_right].
  pose proof (Hall a (or_introl eq_refl)) as Ha.
  destruct w as [|b w].
  - cbn [List.length total fold_right].
    change (inject_Z (Z.of_nat 0)) with 0%Q. lra.
  - assert (IH' : (total (b :: w)
                   < inject_Z (Z.of_nat (List.length (b :: w))) * hi)%Q).
    { apply IH; [discriminate|]. intros x Hx. apply Hall. now right. }
    unfold total in *. lra.
Qed.

Lemma gt_true (a b : Q) : (b < a)%Q -> gt a b = true.
Proof.
  intros Hlt. unfold gt. destruct (Qle_bool a b) eqn:E; [|reflexivity].
  apply Qle_bool_iff in E. lra.
Qed.

Lemma combine_nth_error {A B : Type} (a : list A) (b : list B) (i : nat) :
  nth_error (combine a b) i
  = match nth_error a i, nth_error b i with
    | Some x, Some y => Some (x, y)
    | _, _ => None
    end.
Proof.
  revert b i. induction a as [|x a IH]; intros b i.
  - destruct i; reflexivity.
  - destruct b as [|y b]; cbn.
    + destruct i; cbn; [reflexivity|]. now destruct (nth_error a i).
    + destruct i; cbn; [reflexivity|apply IH].
Qed.

Lemma split_last {A : Type} (n : nat) (l : list A) :
  List.length l = S n -> exists p, l = firstn n l ++ [p].
Proof.
  intros Hlen. pose proof (firstn_skipn n l) as Hsplit.
  pose proof (length_skipn n l) as Hrest. rewrite Hlen in Hrest.
  replace (S n - n)%nat with 1%nat in Hrest by lia.
  destruct (skipn n l) as [|p [|q tl]]; try discriminate.
  exists p. now symmetry.
Qed.

(** The 7-day average of a strictly rising window lies below its last price
    and above the 25-day average. *)
Lemma rising_window_averages (w : list Q) :
  List.length w = 25%nat ->
  StronglySorted Qlt w ->
  exists p,
    nth_error w 24 = Some p /\
    (mean (skipn 18 w) < p)%Q /\
    (mean w < mean (skipn 18 w))%Q.
Proof.
  intros Hlen Hsorted.
  set (a := firstn 18 w). set (w7 := skipn 18 w).
  assert (Hsplit : w = a ++ w7) by (symmetry; apply firstn_skipn).
  assert (Hlen_a : List.length a = 18%nat)
    by (unfold a; rewrite length_firstn; lia).
  assert (Hlen7 : List.length w7 = 7%nat)
    by (unfold w7; rewrite length_skipn; lia).
  set (b := firstn 6 w7).
  assert (Hlen_b : List.length b = 6%nat)
    by (unfold b; rewrite length_firstn; lia).
  destruct (split_last 6 w7 Hlen7) as (p & Hsplit7). fold b in Hsplit7.
  assert (Hsorted7 : StronglySorted Qlt w7) by now apply sorted_skipn.
  destruct w7 as [|m rest] eqn:Hw7; [discriminate|].
  exists p. split; [|split].
  - rewrite Hsplit, Hsplit7. rewrite nth_error_app2 by lia.
    rewrite Hlen_a. change (24 - 18)%nat with 6%nat.
    rewrite nth_error_app2 by lia. rewrite Hlen_b. reflexivity.
  - unfold mean. rewrite Hlen7.
    change (inject_Z (Z.of_nat 7)) with 7%Q.
    apply Qlt_shift_div_r; [lra|].
    rewrite Hsplit7, total_app. cbn [total fold_right].
    assert (Hb : (total b < inject_Z (Z.of_nat (List.length b)) * p)%Q).
    { apply total_below.
      - intros Hnil. rewrite Hnil in Hlen_b. discriminate.
      - intros x Hx. rewrite Hsplit7 in Hsorted7.
        apply (sorted_app_lt Qlt b [p]); [exact Hsorted7|exact Hx|now left]. }
    rewrite Hlen_b in Hb. change (inject_Z (Z.of_nat 6)) with 6%Q in Hb.
    unfold total in *. lra.
  - assert (Ha : (total a < inject_Z (Z.of_nat (List.length a)) * m)%Q).
    { apply total_below.
      - intros Hnil. rewrite Hnil in Hlen_a. discriminate.
      - intros x Hx. rewrite Hsplit in Hsorted.
        apply (sorted_app_lt Qlt a (m :: rest)); [exact Hsorted|exact Hx|now left]. }
    rewrite Hlen_a in Ha. change (inject_Z (Z.of_nat 18)) with 18%Q in Ha.
    assert (H7 : (inject_Z (Z.of_nat (List.length (m :: rest))) * m
                  <= total (m :: rest))%Q).
    { apply total_above. intros x [<-|Hx]; [apply Qle_refl|].
      apply StronglySorted_inv in Hsorted7 as [_ Hall].
      rewrite Forall_forall in Hall. apply Qlt_le_weak. now apply Hall. }
    rewrite Hlen7 in H7. change (inject_Z (Z.of_nat 7)) with 7%Q in H7.
    unfold mean. rewrite Hlen, Hlen7.
    change (inject_Z (Z.of_nat 25)) with 25%Q.
    change (inject_Z (Z.of_nat 7)) with 7%Q.
    apply Qlt_shift_div_r; [lra|].
    rewrite Hsplit at 1. rewrite total_app.
    assert (Hu : (total (m :: rest) == total (m :: rest) / 7 * 7)%Q)
      by (field; lra).
    set (t7 := total (m :: rest)) in *.
    set (u := (t7 / 7)%Q) in *.
    set (ta := total a) in *.
    lra.
Qed.

Lemma total_opp (w : list Q) : (total (map Qopp w) == - total w)%Q.
Proof.
  induction w as [|x w IH]; cbn [map total fold_right].
  - reflexivity.
  - unfold total in IH. rewrite IH. ring.
Qed.

Lemma mean_opp (w : list Q) : (mean (map Qopp w) == - mean w)%Q.
Proof.
  unfold mean. rewrite length_map, total_opp. unfold Qdiv. ring.
Qed.

Lemma falling_sorted_opp (w : list Q) :
  StronglySorted (fun a b => (b < a)%Q) w -> StronglySorted Qlt (map Qopp w).
Proof.
  induction 1 as [|x w Hs IH Hall]; cbn; constructor; [exact IH|].
  rewrite Forall_map. eapply Forall_impl; [|exact Hall].
  cbv beta. intros y Hy. lra.
Qed.

(** The mirror image for a strictly falling window. *)
Lemma falling_window_averages (w : list Q) :
  List.length w = 25%nat ->
  StronglySorted (fun a b => (b < a)%Q) w ->
  exists p,
    nth_error w 24 = Some p /\
    (p < mean (skipn 18 w))%Q /\
    (mean (skipn 18 w) < mean w)%Q.
Proof.
  intros Hlen Hsorted.
  destruct (rising_window_averages (map Qopp w)) as (q & Hq & H7 & H25).
  - now rewrite length_map.
  - now apply falling_sorted_opp.
  - rewrite nth_error_map in Hq.
    destruct (nth_error w 24) as [p|]; [|discriminate].
    cbn in Hq. injection Hq as <-.
    rewrite skipn_map, !mean_opp in *.
    exists p. split; [reflexivity|]. split; lra.
Qed.

Lemma trend_column_nth (closes : list Q) (i : nat) (p : Q) :
  nth_error closes i = Some p ->
  nth_error (trend_column (map Some closes)) i
  = Some (determine_trend (Some p)
            (option_map mean (full_window 7 (map Some closes) i))
            (option_map mean (full_window 25 (map Some closes) i))).
Proof.
  intros Hp.
  assert (Hi : (i < List.length (map Some closes))%nat).
  { rewrite length_map. apply nth_error_Some. congruence. }
  unfold trend_column, ma_7, ma_25.
  rewrite nth_error_map, !combine_nth_error, !rolling_nth, nth_error_map, Hp.
  apply Nat.ltb_lt in Hi. now rewrite Hi.
Qed.

(** X25.  On a price series without missing values that rises strictly from
    day to day, the trend of every row from the 25th on is 'strong_bullish'
    (the price is above the 7-day average, which is above the 25-day
    average); on one that falls strictly it is 'strong_bearish'.  The first
    24 rows are 'neutral' in either case, for want of a 25-day average. *)
Theorem steady_series_has_strong_trend :
  forall (closes : list Q) (i : nat),
    (i < List.length closes)%nat ->
    (StronglySorted Qlt closes ->
     nth_error (trend_column (map Some closes)) i
     = Some (if (24 <=? i)%nat then strong_bullish else neutral)) /\
    (StronglySorted (fun a b => (b < a)%Q) closes ->
     nth_error (trend_column (map Some closes)) i
     = Some (if (24 <=? i)%nat then strong_bearish else neutral)).
Proof.
  intros closes i Hi.
  destruct (nth_error closes i) as [p|] eqn:Hp;
    [|apply nth_error_None in Hp; lia].
  rewrite (trend_column_nth closes i p Hp).
  destruct (Nat.leb_spec 24 i) as [Hlate|Hearly].
  - rewrite (full_window_present 25 closes i) by lia.
    set (w := firstn 25 (skipn (S i - 25) closes)).
    assert (Hw : full_window 25 (map Some closes) i = Some w)
      by (apply full_window_present; lia).
    assert (Hi' : (i < List.length (map Some closes))%nat)
      by now rewrite length_map.
    rewrite (full_window_shorter 25 7 _ i w Hi') by (lia || exact Hw).
    change (25 - 7)%nat with 18%nat.
    assert (Hlen : List.length w = 25%nat).
    { unfold w. rewrite length_firstn, length_skipn. lia. }
    destruct (full_window_last 25 _ i w Hi' Hw) as (p' & Hp' & Hlast).
    rewrite nth_error_map, Hp in Hp'. cbn in Hp'. injection Hp' as <-.
    change (25 - 1)%nat with 24%nat in Hlast.
    cbn [option_map determine_trend].
    split; intros Hsorted.
    + destruct (rising_window_averages w Hlen) as (q & Hq & H7 & H25).
      { unfold w. now apply sorted_firstn, sorted_skipn. }
      rewrite Hlast in Hq. injection Hq as <-.
      now rewrite (gt_true _ _ H7), (gt_true _ _ H25).
    + destruct (falling_window_averages w Hlen) as (q & Hq & H7 & H25).
      { unfold w. now apply sorted_firstn, sorted_skipn. }
      rewrite Hlast in Hq. injection Hq as <-.
      rewrite (gt_true _ _ H7), (gt_true _ _ H25).
      unfold gt.
      assert (Hle : Qle_bool p (mean (skipn 18 w)) = true).
      { apply Qle_bool_iff. lra. }
      now rewrite Hle.
  - rewrite (full_window_early 25) by lia.
    cbn [option_map].
    split; intros _;
      destruct (option_map mean (full_window 7 (map Some closes) i));
      reflexivity.
Qed.

End Trend.

(** ** The current position *)

Section Position.

Import Float64 TrendIndicators PositionStats.

Lemma fold_fmax_finite (rest : list Q) :
  forall x,
    fold_left fmax (map finite rest) (finite x)
    = finite (fold_left larger rest x).
Proof.
  induction rest as [|y rest IH]; intros x; cbn [map fold_left];
    [reflexivity|].
  unfold fmax at 2, larger at 2. cbn [fle].
  destruct (Qle_bool x y); apply IH.
Qed.

Lemma fold_fmin_finite (rest : list Q) :
  forall x,
    fold_left fmin (map finite rest) (finite x)
    = finite (fold_left smaller rest x).
Proof.
  induction rest as [|y rest IH]; intros x; cbn [map fold_left];
    [reflexivity|].
  unfold fmin at 2, smaller at 2. cbn [fle].
  destruct (Qle_bool x y); apply IH.
Qed.

Lemma finite_column (qs : list Q) :
  filter (fun a => negb (is_nan a)) (map finite qs) = map finite qs.
Proof. induction qs as [|q qs IH]; cbn; [reflexivity|now rewrite IH]. Qed.

Lemma column_max_finite (qs : list Q) :
  qs <> [] -> column_max (map finite qs) = finite (maximum qs).
Proof.
  intros Hne. unfold column_max. rewrite finite_column.
  destruct qs as [|x rest]; [congruence|]. apply fold_fmax_finite.
Qed.

Lemma column_min_finite (qs : list Q) :
  qs <> [] -> column_min (map finite qs) = finite (minimum qs).
Proof.
  intros Hne. unfold column_min. rewrite finite_column.
  destruct qs as [|x rest]; [congruence|]. apply fold_fmin_finite.
Qed.

Lemma rank_of_finite (latest : Q) (qs : list Q) :
  rank_of (finite latest) (map finite qs)
  = Z.of_nat (List.length (filter (fun c => Qle_bool c latest) qs)).
Proof.
  unfold rank_of. f_equal.
  induction qs as [|q qs IH]; cbn [map filter fle]; [reflexivity|].
  destruct (Qle_bool q latest); cbn [List.length]; now rewrite IH.
Qed.

Lemma rank_of_bounds (latest : Q) (qs : list Q) :
  In latest qs ->
  1 <= rank_of (finite latest) (map finite qs) <= Z.of_nat (List.length qs).
Proof.
  intros Hin. rewrite rank_of_finite. split.
  - assert (Hmem : In latest (filter (fun c => Qle_bool c latest) qs)).
    { apply filter_In. split; [exact Hin|]. apply Qle_bool_iff, Qle_refl. }
    destruct (filter (fun c => Qle_bool c latest) qs); [destruct Hmem|].
    cbn [List.length]. lia.
  - pose proof (filter_length_le (fun c => Qle_bool c latest) qs). lia.
Qed.

Lemma is_double_0 : is_double 0.
Proof. reflexivity. Qed.

Lemma is_double_1 : is_double 1.
Proof. vm_compute. reflexivity. Qed.

Lemma is_double_100 : is_double 100.
Proof. vm_compute. reflexivity. Qed.

Lemma nonzero_divisor (level : Q) : (0 < level)%Q -> Qeq_bool level 0 = false.
Proof.
  intros Hpos. destruct (Qeq_bool level 0) eqn:E; [|reflexivity].
  apply Qeq_bool_iff in E. lra.
Qed.

(** The distance of the latest close below the highest one, in per cent:
    between -100 and 0, both bounds included. *)
Lemma percent_from_high (latest high : Q) :
  is_double high -> (0 < latest)%Q -> (latest <= high)%Q ->
  exists a,
    percent_from (finite latest) (finite high) = finite a /\
    (- (100) <= a)%Q /\ (a <= 0)%Q.
Proof.
  intros Hhigh Hpos Hle. unfold percent_from. cbn [fsub].
  destruct (round_between (- high) (latest - high) 0
              (is_double_opp high Hhigh) is_double_0)
    as (d & Hd & Hd_lo & Hd_hi); [lra|lra|].
  rewrite Hd. cbn [fdiv]. rewrite nonzero_divisor by lra.
  destruct (round_between (- (1)) (d / high) 0
              (is_double_opp 1 is_double_1) is_double_0)
    as (q & Hq & Hq_lo & Hq_hi).
  { apply Qle_shift_div_l; [lra|]. lra. }
  { apply Qle_shift_div_r; [lra|]. lra. }
  rewrite Hq. cbn [fmul].
  destruct (round_between (- (100)) (q * 100) 0
              (is_double_opp 100 is_double_100) is_double_0)
    as (a & Ha & Ha_lo & Ha_hi); [lra|lra|].
  exists a. now rewrite Ha.
Qed.

(** The distance of the latest close above the lowest one, in per cent: not
    negative, and [+inf] when the quotient or the product overflows. *)
Lemma percent_from_low (latest low : Q) :
  is_double latest -> (0 < low)%Q -> (low <= latest)%Q ->
  (exists b,
     percent_from (finite latest) (finite low) = finite b /\ (0 <= b)%Q) \/
  percent_from (finite latest) (finite low) = infinity false.
Proof.
  intros Hlatest Hpos Hle. unfold percent_from. cbn [fsub].
  destruct (round_between 0 (latest - low) latest is_double_0 Hlatest)
    as (d & Hd & Hd_lo & Hd_hi); [lra|lra|].
  rewrite Hd. cbn [fdiv]. rewrite nonzero_divisor by lra.
  destruct (round_above 0 (d / low) is_double_0) as [(q & Hq & Hq_lo)|Hq].
  { apply Qle_shift_div_l; [lra|]. lra. }
  - rewrite Hq. cbn [fmul].
    destruct (round_above 0 (q * 100) is_double_0) as [(b & Hb & Hb_lo)|Hb];
      [lra| |].
    + left. exists b. now rewrite Hb.
    + right. exact Hb.
  - rewrite Hq. right. reflexivity.
Qed.

(** The share of the rows not above the latest close, in per cent. *)
Lemma percentile_bounds (rank total : Z) :
  1 <= rank <= total -> total < 2 ^ 1000 ->
  exists share pc,
    true_divide rank total = Returns share /\
    fmul share (finite 100) = finite pc /\
    (0 < pc)%Q /\ (pc <= 100)%Q.
Proof.
  intros Hrank Hbound.
  destruct (percentage_rounded rank total) as (pc & Hrun & Herr);
    [lia|lia|lia|].
  cbv zeta in Herr.
  assert (Hr : (1 <= inject_Z rank)%Q) by (rewrite <- (Zle_Qle 1); lia).
  assert (Hrt : (inject_Z rank <= inject_Z total)%Q)
    by (rewrite <- Zle_Qle; lia).
  assert (Hshare : (0 < inject_Z rank / inject_Z total)%Q)
    by (apply Qlt_shift_div_l; lra).
  assert (Hshare' : (inject_Z rank / inject_Z total <= 1)%Q)
    by (apply Qle_shift_div_r; lra).
  unfold true_divide in *.
  destruct (Z.eqb_spec total 0) as [|_]; [lia|].
  destruct (round_between 0 (inject_Z rank / inject_Z total) 1
              is_double_0 is_double_1)
    as (q & Hq & Hq_lo & Hq_hi); [lra|lra|].
  rewrite Hq in *. injection Hrun as Hrun.
  exists (finite q), pc. split; [reflexivity|]. split; [exact Hrun|].
  cbn [fmul] in Hrun.
  destruct (round_between 0 (q * 100) 100 is_double_0 is_double_100)
    as (pc' & Hpc & Hpc_lo & Hpc_hi); [lra|lra|].
  rewrite Hpc in Hrun. injection Hrun as ->.
  split; [|exact Hpc_hi].
  set (exact := (inject_Z rank / inject_Z total * 100)%Q) in *.
  assert (Hexact : (0 < exact)%Q) by (unfold exact; lra).
  rewrite (Qabs_pos exact) in Herr by lra.
  apply Qabs_Qle_condition in Herr as [Hlow _].
  change (two_to (-52) + two_to (-106))%Q
    with ((1 # 4503599627370496)
          + (1 # 81129638414606681695789005144064))%Q in Hlow.
  lra.
Qed.

(** X26.  [get_current_position_stats] on the frame [load_data] returns,
    when that frame is not empty, has fewer than [2^1000] rows and its
    closes are positive finite doubles: the current price lies between the
    historical minimum and maximum; [percent_from_ath] is a finite float
    between -100 and 0, both included (the subtraction, the division and the
    product are each rounded); [percent_from_atl] is not negative, and is
    [+inf] when the division or the product overflows; the rank lies between
    1 and the number of records; and the percentile lies in (0, 100].
    With no positive close in the file, the first call raises (the frame is
    cached before [load_data] fails on its log line), and a call within the
    next hour returns the empty dict. *)
Theorem position_stats_are_consistent :
  (forall (m m' : manager) (now : datetime) (csv : outcome (list float))
          (closes : list Q),
     load_data m now false csv = (Returns (map finite closes), m') ->
     closes <> [] ->
     Forall (fun c => (0 < c)%Q /\ is_double c) closes ->
     Z.of_nat (List.length closes) < 2 ^ 1000 ->
     exists st latest low high a pc,
       get_current_position_stats m now csv = (Returns (Some st), m') /\
       current_price st = finite latest /\
       historical_min st = finite low /\
       historical_max st = finite high /\
       (low <= latest)%Q /\ (latest <= high)%Q /\
       percent_from_ath st = finite a /\ (- (100) <= a)%Q /\ (a <= 0)%Q /\
       ((exists b, percent_from_atl st = finite b /\ (0 <= b)%Q) \/
        percent_from_atl st = infinity false) /\
       1 <= current_rank st <= total_records st /\
       percentile st = finite pc /\ (0 < pc)%Q /\ (pc <= 100)%Q) /\
  (forall (now later : datetime) (rows : list float)
          (csv : outcome (list float)),
     filter fpositive rows = [] ->
     later - now < 3600 * us_per_second ->
     let first := get_current_position_stats new_manager now (Returns rows) in
     fst first = Raises /\
     fst (get_current_position_stats (snd first) later csv) = Returns None).
Proof.
  split.
  - intros m m' now csv closes Hload Hne Hall Hrows.
    unfold get_current_position_stats. rewrite Hload.
    rewrite <- map_rev.
    destruct (rev closes) as [|latest older] eqn:Hrev.
    { apply (f_equal (@rev _)) in Hrev. rewrite rev_involutive in Hrev.
      cbn in Hrev. congruence. }
    assert (Hin : In latest closes).
    { apply in_rev. rewrite Hrev. now left. }
    destruct (minimum_maximum_spec closes latest Hin)
      as ((Hlow & Hhigh) & Hmin & Hmax).
    rewrite Forall_forall in Hall.
    destruct (Hall _ Hin) as [Hlatest Hlatest_d].
    destruct (Hall _ Hmin) as [Hlow_pos _].
    destruct (Hall _ Hmax) as [_ Hhigh_d].
    destruct (rank_of_bounds latest closes Hin) as [Hrank1 Hrank2].
    cbn [map]. rewrite length_map.
    destruct (percentile_bounds (rank_of (finite latest) (map finite closes))
                (Z.of_nat (List.length closes)))
      as (share & pc & Hshare & Hpc & Hpc_lo & Hpc_hi); [lia|exact Hrows|].
    rewrite Hshare.
    rewrite (column_max_finite closes Hne), (column_min_finite closes Hne).
    destruct (percent_from_high latest (maximum closes) Hhigh_d Hlatest Hhigh)
      as (a & Ha & Ha_lo & Ha_hi).
    pose proof (percent_from_low latest (minimum closes) Hlatest_d Hlow_pos
                  Hlow) as Hatl.
    eexists _, latest, (minimum closes), (maximum closes), a, pc.
    split; [reflexivity|]. cbn.
    repeat match goal with |- _ /\ _ => split end;
      try reflexivity; try assumption.
  - intros now later rows csv Hnone Hsoon first. subst first.
    unfold get_current_position_stats, load_data, new_manager.
    cbn [data_cache last_load_time]. rewrite Hnone.
    cbn [fst snd data_cache last_load_time negb andb].
    split; [reflexivity|].
    assert (Hrecent : (later - now <? 3600 * us_per_second) = true)
      by now apply Z.ltb_lt.
    rewrite Hrecent. reflexivity.
Qed.

End Position.

Section TrendExamples.

Import Float64 Indicators TrendIndicators PositionStats.

(** X24 on thirty closes rising from 100 by one a day, at the 26th row: the
    support level is 106. *)
Lemma levels_bracket_price_and_short_average_witness :
  exists r p m,
    nth_error (resistance_level (map Some thirty_rising)) 25 = Some (Some r) /\
    nth_error (map Some thirty_rising) 25 = Some (Some p) /\
    nth_error (ma_7 (map Some thirty_rising)) 25 = Some (Some m) /\
    (106 <= p <= r)%Q /\
    (106 <= m <= r)%Q.
Proof.
  apply (levels_bracket_price_and_short_average (map Some thirty_rising) 25 106).
  vm_compute. reflexivity.
Defined.

Lemma thirty_rising_sorted : StronglySorted Qlt thirty_rising.
Proof.
  unfold thirty_rising. cbn [seq map].
  repeat (constructor; [|repeat (constructor; [reflexivity|]); constructor]).
  constructor.
Qed.

(** X25 on the same closes, at the last row. *)
Lemma steady_series_has_strong_trend_witness :
  nth_error (trend_column (map Some thirty_rising)) 29 = Some strong_bullish.
Proof.
  refine (proj1 (steady_series_has_strong_trend thirty_rising 29 _) _).
  - vm_compute. lia.
  - exact thirty_rising_sorted.
Defined.

(** X26 on the same closes, read by a manager that has loaded nothing yet;
    on the closes 1e17 and 1, where the latest close is 100 % below the
    high to the last bit; and on a file without a positive close. *)
Lemma position_stats_are_consistent_witness :
  let now := mk_datetime 738955 10 0 in
  (exists st pc,
     fst (get_current_position_stats new_manager now
            (Returns (map finite thirty_rising))) = Returns (Some st) /\
     current_price st = finite 129 /\
     historical_max st = finite 129 /\
     percent_from_ath st = finite 0 /\
     percentile st = finite pc /\ (0 < pc)%Q /\ (pc <= 100)%Q) /\
  percent_from (finite 1) (finite (inject_Z (10 ^ 17))) = finite (- (100)) /\
  fst (get_current_position_stats new_manager now (Returns [finite 0]))
  = Raises.
Proof.
  intros now. split; [|split].
  - destruct (proj1 position_stats_are_consistent new_manager
                {| data_cache := Some (map finite thirty_rising);
                   last_load_time := Some now |}
                now (Returns (map finite thirty_rising)) thirty_rising)
      as (st & latest & low & high & a & pc & Hrun & Hprice & _ & Hmax & _ & _
          & Hath & _ & _ & _ & _ & Hpc & Hpc_lo & Hpc_hi).
    + vm_compute. reflexivity.
    + discriminate.
    + unfold thirty_rising. cbn [seq map].
      repeat (constructor; [split; [reflexivity|vm_compute; reflexivity]|]).
      constructor.
    + vm_compute. reflexivity.
    + exists st, pc. rewrite Hrun. cbn [fst].
      split; [reflexivity|].
      vm_compute in Hrun. injection Hrun as <-.
      repeat split; try reflexivity; assumption.
  - vm_compute. reflexivity.
  - apply (proj2 position_stats_are_consistent now now [finite 0]
             (Returns [])); [reflexivity|vm_compute; reflexivity].
Defined.

End TrendExamples.

(** ** The incremental update of the analyzer *)

Section Update.

Import Json DatabaseManager DatabaseQueries HistoricalCollector
  CryptoHistoricalAnalyzer IncrementalUpdate.




End Update.

Section UpdateExamples.

Import Json DatabaseManager HistoricalCollector CryptoHistoricalAnalyzer
  IncrementalUpdate Scenarios.


End UpdateExamples.

(** ** The estimate of the remaining time *)

Section Estimate.

Import Json HistoricalCollector ProgressEstimates.

Lemma divide_and_round_bounds (a b : Z) :
  0 <= a -> 0 < b ->
  a / b <= divide_and_round a b <= a / b + 1 /\
  (b < 2 * a -> 1 <= divide_and_round a b).
Proof.
  intros Ha Hb. unfold divide_and_round.
  pose proof (Z.div_mod a b ltac:(lia)) as Hdm.
  pose proof (Z.mod_pos_bound a b Hb) as Hmod.
  pose proof (Z.div_pos a b Ha Hb) as Hq.
  destruct (Z.ltb_spec 0 b) as [_|]; [|lia].
  destruct (Z.ltb_spec b (2 * (a mod b))) as [Hhalf|Hhalf]; cbn [orb].
  - split; [lia|]. intros _. lia.
  - destruct (Z.eqb_spec (2 * (a mod b)) b) as [Heq|Hne]; cbn [andb].
    + destruct (Z.eqb_spec ((a / b) mod 2) 1) as [Hodd|Heven].
      * split; [lia|]. intros _. lia.
      * split; [lia|]. intros Hbig.
        assert (a / b <> 0); [|lia].
        intros Hzero. rewrite Hzero in *.
        assert (a = a mod b) by lia. lia.
    + split; [lia|]. intros Hbig.
      assert (a / b <> 0); [|lia].
      intros Hzero. rewrite Hzero in *. lia.
Qed.

Lemma make_timedelta_in_range (us : Z) :
  - (max_timedelta_days * us_per_day) <= us < max_timedelta_days * us_per_day ->
  make_timedelta us = Returns us.
Proof.
  intros Hrange. unfold make_timedelta.
  assert (Hday : 0 < us_per_day) by (vm_compute; reflexivity).
  assert (Hlow : - max_timedelta_days <= us / us_per_day).
  { apply Z.div_le_lower_bound; [exact Hday|]. lia. }
  assert (Hhigh : us / us_per_day < max_timedelta_days).
  { apply Z.div_lt_upper_bound; [exact Hday|]. lia. }
  destruct (Z.ltb_spec (us / us_per_day) (- max_timedelta_days)); [lia|].
  destruct (Z.ltb_spec max_timedelta_days (us / us_per_day)); [lia|].
  reflexivity.
Qed.

(** X28.  For a job in progress whose collection started at or before now
    and which has collected at least one day, [estimated_time_remaining] is
    the average time per collected day (elapsed time over [collected_days],
    rounded to the microsecond) times [total_days - collected_days], as long
    as that is a representable [timedelta]: it is not negative while
    [collected_days <= total_days], and it is negative once [collected_days]
    has passed [total_days] (as soon as the average rounds to a microsecond
    or more). *)
Theorem estimate_follows_progress :
  forall (now : datetime) (p : CollectionProgress) (started : datetime),
    status p = InProgress ->
    collection_start p = Some started ->
    started <= now ->
    0 < collected_days p ->
    let avg := divide_and_round (now - started) (collected_days p) in
    avg * (1 + Z.abs (total_days p - collected_days p))
      < max_timedelta_days * us_per_day ->
    exists remaining,
      estimated_time_remaining now p = Returns (Some remaining) /\
      remaining = avg * (total_days p - collected_days p) /\
      (collected_days p <= total_days p -> 0 <= remaining) /\
      (total_days p < collected_days p -> remaining <= 0) /\
      (total_days p < collected_days p ->
       collected_days p < 2 * (now - started) -> remaining < 0).
Proof.
  intros now p started Hstatus Hstart Hle Hpos avg Hsmall.
  destruct (divide_and_round_bounds (now - started) (collected_days p))
    as [[Hlow Hhigh] Hone]; [lia|lia|].
  fold avg in Hlow, Hhigh, Hone.
  assert (Havg : 0 <= avg).
  { pose proof (Z.div_pos (now - started) (collected_days p)). lia. }
  unfold estimated_time_remaining. rewrite Hstatus, Hstart. cbn [job_status_eqb negb].
  destruct (Z.eqb_spec (collected_days p) 0); [lia|].
  fold avg.
  rewrite (make_timedelta_in_range avg) by nia.
  rewrite make_timedelta_in_range by nia.
  eexists. split; [reflexivity|]. split; [reflexivity|].
  split; [nia|]. split; [nia|].
  intros Hover Hfast. specialize (Hone Hfast). nia.
Qed.

End Estimate.

Section EstimateExamples.

Import Json HistoricalCollector ProgressEstimates.

(** X28 on a job that has collected 401 of 400 days in 40 s (the 400-day run
    of C9): the estimate is negative. *)
Lemma estimate_follows_progress_witness :
  exists remaining,
    estimated_time_remaining (mk_datetime 736730 0 0 + 40000000) overshot_job
    = Returns (Some remaining) /\
    remaining < 0.
Proof.
  destruct (estimate_follows_progress (mk_datetime 736730 0 0 + 40000000)
              overshot_job (mk_datetime 736730 0 0))
    as (remaining & Hrun & _ & _ & _ & Hneg).
  - reflexivity.
  - reflexivity.
  - lia.
  - vm_compute. reflexivity.
  - vm_compute. reflexivity.
  - exists remaining. split; [exact Hrun|].
    apply Hneg; vm_compute; reflexivity.
Defined.

End EstimateExamples.
